(** * Workout-Log: a shallow embedding of [script.js] and its specification

    The program is a browser script: two classes of workout ([Running],
    [Cycling]) over a base class [Workout], and one controller class [App]
    that validates a form, keeps the workouts in an array, renders them and
    persists the array in [localStorage] as JSON text.

    JavaScript numbers are IEEE 754 binary64 values, so they are Rocq's
    primitive [float]s; strings are byte strings, read as UTF-8; objects are
    ordered property lists; the private fields of [App] and the parts of the
    browser the script touches form an explicit state that every method
    threads, with thrown errors as results. The built-ins the script relies
    on ([Number.isFinite], number to string, [Date.prototype.toISOString],
    [JSON.stringify], [JSON.parse], [localStorage]) are written out after
    ECMA-262, so that the stored text is the text a browser stores. *)

From Stdlib Require Import ZArith List String Ascii Bool Floats Lia.
From stdpp Require Import gmap strings.

Set Warnings "-inexact-float,-register-all".
Local Open Scope string_scope.
Local Open Scope Z_scope.

(** ** Text *)

(** Characters by code unit. *)
Definition code (c : ascii) : Z := Z.of_N (N_of_ascii c).
Definition char (n : Z) : ascii := ascii_of_N (Z.to_N n).

Definition digit (d : Z) : ascii := char (48 + d).

Fixpoint digits_acc (fuel : nat) (n : Z) (acc : string) : string :=
  match fuel with
  | O => acc
  | S fuel' =>
      let acc' := String (digit (n mod 10)) acc in
      if n <? 10 then acc' else digits_acc fuel' (n / 10) acc'
  end.

(** The decimal numeral of a natural number, without leading zeros. *)
Definition decimal (n : Z) : string :=
  digits_acc (S (Z.to_nat (Z.log2 n))) n "".

(** [n + ''] for an integer [n] (below 10^21 in magnitude, where JavaScript
    prints every digit). *)
Definition Z_to_string (n : Z) : string :=
  if n <? 0 then "-" ++ decimal (- n) else decimal n.

(** [s.slice(-n)]: the last [n] characters of [s], all of [s] when it is
    shorter. *)
Definition slice_last (n : nat) (s : string) : string :=
  substring (String.length s - n) n s.

(** [s.slice(1)]. *)
Definition slice_1 (s : string) : string :=
  match s with
  | EmptyString => EmptyString
  | String _ rest => rest
  end.

(** [toUpperCase] on one ASCII letter. *)
Definition toUpperCase (c : ascii) : ascii :=
  let n := code c in
  if (97 <=? n) && (n <=? 122) then char (n - 32) else c.

(** [n] written with at least [width] digits, zero-padded on the left. *)
Fixpoint pad_zeros (k : nat) (s : string) : string :=
  match k with
  | O => s
  | S k' => pad_zeros k' (String "0" s)
  end.

Definition pad (width : nat) (n : Z) : string :=
  let s := decimal n in pad_zeros (width - String.length s) s.

(** ** Numbers *)

Module Number.

(** [Number.isFinite(inp)]: neither NaN nor an infinity. *)
Definition isFinite (inp : float) : bool := PrimFloat.is_finite inp.

(** [a > b] on numbers is [b < a]; any comparison with NaN is false. *)
Definition gt (a b : float) : bool := PrimFloat.ltb b a.

(** [a <= b] on numbers. *)
Definition le (a b : float) : bool := PrimFloat.leb a b.

(** The number nearest to [n * 10^e10] (ties to even), negated when [neg]:
    the value of a decimal literal with digits [n] and exponent [e10]. The
    quotient and its rounding are those of the binary64 division. *)
Definition of_decimal (neg : bool) (n e10 : Z) : float :=
  if n <=? 0 then (if neg then neg_zero else zero) else
  let '(num, den) :=
    if 0 <=? e10 then (n * 10 ^ e10, 1) else (n, 10 ^ (- e10)) in
  let '(q, e', l) := SFdiv_core_binary prec emax num 0 den 0 in
  SF2Prim (binary_round_aux prec emax neg q e' l).

(** A positive finite number as an exact fraction. *)
Definition to_fraction (x : float) : Z * Z :=
  match Prim2SF x with
  | S754_finite _ m e =>
      if 0 <=? e then (Z.pos m * 2 ^ e, 1) else (Z.pos m, 2 ^ (- e))
  | _ => (0, 1)
  end.

Definition digits10 (n : Z) : Z := Z.of_nat (String.length (decimal n)).

(** The [n] of Number::toString: [10^(n-1) <= a/b < 10^n]. *)
Definition magnitude (a b : Z) : Z :=
  let n0 := digits10 a - digits10 b in
  let ge := if 0 <=? n0 then b * 10 ^ n0 <=? a else b <=? a * 10 ^ (- n0) in
  if ge then n0 + 1 else n0.

(** The one or two [k]-digit decimals next to [a/b], nearest first (the even
    one first on a tie), each with its own [n]. *)
Definition candidates (a b n k : Z) : list (Z * Z) :=
  let p := n - k in
  let '(num, den) := if 0 <=? p then (a, b * 10 ^ p) else (a * 10 ^ (- p), b) in
  let lo := num / den in
  let r := num mod den in
  let hi := if lo + 1 =? 10 ^ k then (10 ^ (k - 1), n + 1) else (lo + 1, n) in
  if r =? 0 then [(lo, n)]
  else match 2 * r ?= den with
       | Lt => [(lo, n); hi]
       | Gt => [hi; (lo, n)]
       | Eq => if Z.even lo then [(lo, n); hi] else [hi; (lo, n)]
       end.

(** The shortest digit string [s] (of [k] digits) and exponent [n] with
    [s * 10^(n-k)] rounding to [x], looked for from [k] upwards. *)
Fixpoint shortest (fuel : nat) (x : float) (a b n k : Z) : Z * Z * Z :=
  let cs := candidates a b n k in
  match List.filter (fun c => PrimFloat.eqb (of_decimal false (fst c) (snd c - k)) x) cs with
  | (s, n') :: _ => (s, n', k)
  | [] =>
      match fuel with
      | O => match cs with (s, n') :: _ => (s, n', k) | [] => (0, n, k) end
      | S fuel' => shortest fuel' x a b n (k + 1)
      end
  end.

Definition zeros (n : Z) : string := pad_zeros (Z.to_nat n) "".

Definition exponent_part (e : Z) : string :=
  "e" ++ (if e <? 0 then "-" else "+") ++ decimal (Z.abs e).

(** Steps 5 to 10 of Number::toString, for a positive finite number. *)
Definition positive_to_string (x : float) : string :=
  let '(a, b) := to_fraction x in
  let '(s, n, k) := shortest 16 x a b (magnitude a b) 1 in
  let ds := decimal s in
  if (k <=? n) && (n <=? 21) then ds ++ zeros (n - k)
  else if (0 <? n) && (n <=? 21) then
    substring 0 (Z.to_nat n) ds ++ "." ++
    substring (Z.to_nat n) (Z.to_nat (k - n)) ds
  else if (-6 <? n) && (n <=? 0) then "0." ++ zeros (- n) ++ ds
  else if k =? 1 then ds ++ exponent_part (n - 1)
  else substring 0 1 ds ++ "." ++ substring 1 (Z.to_nat (k - 1)) ds ++
       exponent_part (n - 1).

(** Number::toString(x) in radix 10. *)
Definition toString (x : float) : string :=
  if PrimFloat.is_nan x then "NaN"
  else if PrimFloat.is_zero x then "0"
  else if PrimFloat.ltb x 0 then
    (if PrimFloat.is_infinity x then "-Infinity"
     else "-" ++ positive_to_string (- x)%float)
  else if PrimFloat.is_infinity x then "Infinity"
  else positive_to_string x.

End Number.

(** The two arrow functions at the top of [_newWorkout]. *)
Definition validInputs (inputs : list float) : bool :=
  forallb (fun inp => Number.isFinite inp) inputs.

Definition allPositive (inputs : list float) : bool :=
  forallb (fun inp => Number.gt inp 0%float) inputs.

(** ** Dates

    A [Date] object is its time value (milliseconds since the epoch) together
    with what [getMonth()] and [getDate()] answer in the local time zone of
    the browser, which the script cannot compute from the time value alone. *)

Record Date := mkDate {
  getTime : Z;
  getMonth : nat;
  getDate : Z
}.

(** The proleptic Gregorian date of a day number counted from 1970-01-01. *)
Definition civil_from_days (days : Z) : Z * Z * Z :=
  let z := days + 719468 in
  let era := z / 146097 in
  let doe := z mod 146097 in
  let yoe := (doe - doe / 1460 + doe / 36524 - doe / 146096) / 365 in
  let doy := doe - (365 * yoe + yoe / 4 - yoe / 100) in
  let mp := (5 * doy + 2) / 153 in
  let d := doy - (153 * mp + 2) / 5 + 1 in
  let m := if mp <? 10 then mp + 3 else mp - 9 in
  let y := yoe + era * 400 + (if m <=? 2 then 1 else 0) in
  (y, m, d).

(** [Date.prototype.toISOString()], which [toJSON()] returns:
    [YYYY-MM-DDTHH:mm:ss.sssZ] in UTC, the year with a sign and six digits
    outside 0..9999. *)
Definition toISOString (d : Date) : string :=
  let t := getTime d in
  let '(y, m, dd) := civil_from_days (t / 86400000) in
  let ms := t mod 86400000 in
  let year :=
    if (0 <=? y) && (y <=? 9999) then pad 4 y
    else if y <? 0 then "-" ++ pad 6 (- y) else "+" ++ pad 6 y in
  year ++ "-" ++ pad 2 m ++ "-" ++ pad 2 dd ++ "T" ++
  pad 2 (ms / 3600000) ++ ":" ++ pad 2 (ms / 60000 mod 60) ++ ":" ++
  pad 2 (ms / 1000 mod 60) ++ "." ++ pad 3 (ms mod 1000) ++ "Z".

(** What one construction reads from the clock: [new Date()] for the [date]
    field and [Date.now()] for the [id] field, two separate readings. *)
Record Clock := mkClock {
  new_Date : Date;
  Date_now : Z
}.

(** ** The workout classes *)

(** [class Workout]: the two field initialisers, then the constructor. *)
Record Workout := mkWorkout {
  date : Date;
  id : string;
  coords : float * float;
  distance : float;
  duration : float
}.

Definition Workout_new (clock : Clock) (coords : float * float)
    (distance duration : float) : Workout :=
  {| date := new_Date clock;
     id := slice_last 10 (Z_to_string (Date_now clock));
     coords := coords;
     distance := distance;
     duration := duration |}.

Definition months : list string :=
  [ "January"; "February"; "March"; "April"; "May"; "June"; "July";
    "August"; "September"; "October"; "November"; "December" ].

(** [_setDescription]: the value it assigns to [this.description], from
    [this.type] and [this.date]. The two classes call it with their own
    [type], which is not empty (on an empty [type] the source would throw at
    [this.type[0].toUpperCase()]; no call reaches that). *)
Definition _setDescription (type : string) (this : Workout) : string :=
  match type with
  | EmptyString => EmptyString
  | String c _ =>
      String (toUpperCase c) (slice_1 type) ++ " on " ++
      nth (getMonth (date this)) months "undefined" ++ " " ++
      Z_to_string (getDate (date this))
  end.

(** [calculatePace]: the value assigned to [this.pace] and returned. *)
Definition calculatePace (this : Workout) : float :=
  (duration this / distance this)%float.

(** [calculateSpeed]: the value assigned to [this.speed] and returned. *)
Definition calculateSpeed (this : Workout) : float :=
  (distance this / duration this / 60)%float.

(** [class Running extends Workout]: the inherited fields, then [type],
    [cadence], [pace] and [description] in the order they are created. *)
Record Running := mkRunning {
  Running_super : Workout;
  Running_type : string;
  cadence : float;
  pace : float;
  Running_description : string
}.

Definition Running_new (clock : Clock) (coords : float * float)
    (distance duration cadence : float) : Running :=
  let this := Workout_new clock coords distance duration in
  let type := "running" in
  {| Running_super := this;
     Running_type := type;
     cadence := cadence;
     pace := calculatePace this;
     Running_description := _setDescription type this |}.

(** [class Cycling extends Workout]. *)
Record Cycling := mkCycling {
  Cycling_super : Workout;
  Cycling_type : string;
  elevation : float;
  speed : float;
  Cycling_description : string
}.

Definition Cycling_new (clock : Clock) (coords : float * float)
    (distance duration elevation : float) : Cycling :=
  let this := Workout_new clock coords distance duration in
  let type := "cycling" in
  {| Cycling_super := this;
     Cycling_type := type;
     elevation := elevation;
     speed := calculateSpeed this;
     Cycling_description := _setDescription type this |}.

(** ** Values

    What a variable of the script can hold. An object is its prototype and its
    own enumerable properties in creation order, which is the order
    [JSON.stringify] writes them in. *)

Inductive Prototype := Object_prototype | Running_prototype | Cycling_prototype.

Inductive jsval :=
| Undefined
| Null
| Boolean (b : bool)
| Num (x : float)
| Str (s : string)
| DateObject (d : Date)
| Arr (elements : list jsval)
| Obj (proto : Prototype) (properties : list (string * jsval)).

(** The own properties of the class instances, as the field initialisers and
    constructors create them. *)
Definition Workout_properties (w : Workout) : list (string * jsval) :=
  [ ("date", DateObject (date w));
    ("id", Str (id w));
    ("coords", Arr [Num (fst (coords w)); Num (snd (coords w))]);
    ("distance", Num (distance w));
    ("duration", Num (duration w)) ].

Definition Running_object (r : Running) : jsval :=
  Obj Running_prototype
    (Workout_properties (Running_super r) ++
     [ ("type", Str (Running_type r));
       ("cadence", Num (cadence r));
       ("pace", Num (pace r));
       ("description", Str (Running_description r)) ]).

Definition Cycling_object (c : Cycling) : jsval :=
  Obj Cycling_prototype
    (Workout_properties (Cycling_super c) ++
     [ ("type", Str (Cycling_type c));
       ("elevation", Num (elevation c));
       ("speed", Num (speed c));
       ("description", Str (Cycling_description c)) ]).

(** What is thrown: the two errors of the language that the script meets,
    and the plain [Error] with which Leaflet refuses a second map in the same
    container. *)
Inductive Error := TypeError | SyntaxError | LeafletError.

Inductive Completion (A : Type) :=
| Normal (a : A)
| Throw (e : Error).
Arguments Normal {A} a.
Arguments Throw {A} e.

Fixpoint assoc (name : string) (properties : list (string * jsval)) : jsval :=
  match properties with
  | [] => Undefined
  | (k, v) :: rest => if String.eqb k name then v else assoc name rest
  end.

(** [value.name] for a name that no built-in prototype defines ([id],
    [coords], [type], [pace], ...): a TypeError on [undefined] and [null],
    the own property of an object, [undefined] otherwise. *)
Definition Get (value : jsval) (name : string) : Completion jsval :=
  match value with
  | Undefined | Null => Throw TypeError
  | Obj _ properties => Normal (assoc name properties)
  | _ => Normal Undefined
  end.

(** [!value] is [negb (ToBoolean value)]. *)
Definition ToBoolean (value : jsval) : bool :=
  match value with
  | Undefined | Null => false
  | Boolean b => b
  | Num x => negb (PrimFloat.is_zero x || PrimFloat.is_nan x)
  | Str s => negb (String.eqb s "")
  | _ => true
  end.

(** [value === s] for a string [s]. *)
Definition strict_equals_string (value : jsval) (s : string) : bool :=
  match value with
  | Str t => String.eqb t s
  | _ => false
  end.

(** [ToString(value)], as a substitution of a template literal applies it,
    by how it ends; the string itself is not built. A primitive and a date
    always give a string. An array is joined, which converts each of its
    elements. An object is converted by the [toString] it finds: the one it
    inherits gives a string, but an own property of that name (never a
    function here, values holding none) is not callable, [valueOf] then gives
    no primitive either, and the conversion throws a TypeError. *)
Fixpoint ToString (value : jsval) : Completion unit :=
  match value with
  | Arr elements =>
      (fix each (l : list jsval) : Completion unit :=
         match l with
         | [] => Normal tt
         | e :: l' =>
             match ToString e with
             | Normal _ => each l'
             | Throw err => Throw err
             end
         end) elements
  | Obj _ properties =>
      if existsb (fun kv => String.eqb (fst kv) "toString") properties
      then Throw TypeError
      else Normal tt
  | _ => Normal tt
  end.

(** ** JSON *)

Module JSON.

Definition quotation_mark : ascii := Eval cbv in char 34.
Definition backslash : ascii := Eval cbv in char 92.

Definition hex_digit (n : Z) : ascii :=
  if n <? 10 then char (48 + n) else char (87 + n).

(** One code unit of QuoteJSONString. Strings are byte strings here, so a
    character outside ASCII is written as its bytes, as it is. The one case
    this does not follow is a surrogate without its partner, which the
    language writes as an escape: only stored text from elsewhere can bring
    one in, no string that the script makes holds one. *)
Definition escape (c : ascii) : string :=
  let n := code c in
  if n =? 8 then "\b"
  else if n =? 9 then "\t"
  else if n =? 10 then "\n"
  else if n =? 12 then "\f"
  else if n =? 13 then "\r"
  else if n =? 34 then String backslash (String quotation_mark "")
  else if n =? 92 then "\\"
  else if n <? 32 then
    "\u00" ++ String (hex_digit (n / 16)) (String (hex_digit (n mod 16)) "")
  else String c "".

Fixpoint escape_all (s : string) : string :=
  match s with
  | EmptyString => EmptyString
  | String c rest => escape c ++ escape_all rest
  end.

Definition QuoteJSONString (s : string) : string :=
  String quotation_mark (escape_all s ++ String quotation_mark "").

Fixpoint join (parts : list string) : string :=
  match parts with
  | [] => ""
  | [p] => p
  | p :: rest => p ++ "," ++ join rest
  end.

(** SerializeJSONProperty without indentation: [None] is [undefined]. A date
    is written through its [toJSON], a number that is not finite as [null],
    an [undefined] array element as [null], and a property whose value is
    [undefined] is left out. *)
Fixpoint SerializeJSONProperty (value : jsval) : option string :=
  match value with
  | Undefined => None
  | Null => Some "null"
  | Boolean b => Some (if b then "true" else "false")
  | Num x => Some (if Number.isFinite x then Number.toString x else "null")
  | Str s => Some (QuoteJSONString s)
  | DateObject d => Some (QuoteJSONString (toISOString d))
  | Arr elements =>
      Some ("[" ++
            join (map (fun e =>
                         match SerializeJSONProperty e with
                         | Some s => s
                         | None => "null"
                         end) elements) ++ "]")
  | Obj _ properties =>
      Some ("{" ++
            join (flat_map (fun '(k, e) =>
                              match SerializeJSONProperty e with
                              | Some s => [QuoteJSONString k ++ ":" ++ s]
                              | None => []
                              end) properties) ++ "}")
  end.

(** [JSON.stringify(value)]. *)
Definition stringify (value : jsval) : option string :=
  SerializeJSONProperty value.

(** *** Reading JSON text *)

Inductive parsed (A : Type) :=
| Parsed (a : A) (rest : string)
| Malformed
| OutOfFuel.
Arguments Parsed {A} a rest.
Arguments Malformed {A}.
Arguments OutOfFuel {A}.

Definition is_whitespace (c : ascii) : bool :=
  let n := code c in (n =? 32) || (n =? 9) || (n =? 10) || (n =? 13).

Fixpoint skip_whitespace (s : string) : string :=
  match s with
  | EmptyString => EmptyString
  | String c rest => if is_whitespace c then skip_whitespace rest else s
  end.

Definition is_digit (c : ascii) : bool :=
  let n := code c in (48 <=? n) && (n <=? 57).

Definition hex_value (c : ascii) : option Z :=
  let n := code c in
  if (48 <=? n) && (n <=? 57) then Some (n - 48)
  else if (97 <=? n) && (n <=? 102) then Some (n - 87)
  else if (65 <=? n) && (n <=? 70) then Some (n - 55)
  else None.

Definition hex4 (a b c d : ascii) : option Z :=
  match hex_value a, hex_value b, hex_value c, hex_value d with
  | Some x, Some y, Some z, Some w => Some (((x * 16 + y) * 16 + z) * 16 + w)
  | _, _, _, _ => None
  end.

(** Strings are held as UTF-8: the bytes of a code point. *)
Definition utf8 (n : Z) : string :=
  if n <? 128 then String (char n) ""
  else if n <? 2048 then
    String (char (192 + n / 64)) (String (char (128 + n mod 64)) "")
  else if n <? 65536 then
    String (char (224 + n / 4096))
      (String (char (128 + n / 64 mod 64)) (String (char (128 + n mod 64)) ""))
  else
    String (char (240 + n / 262144))
      (String (char (128 + n / 4096 mod 64))
         (String (char (128 + n / 64 mod 64))
            (String (char (128 + n mod 64)) ""))).

(** The character that a one-letter escape stands for. *)
Definition unescape (c : ascii) : option ascii :=
  let n := code c in
  if n =? 34 then Some quotation_mark
  else if n =? 92 then Some backslash
  else if n =? 47 then Some "/"%char
  else if n =? 98 then Some (char 8)
  else if n =? 102 then Some (char 12)
  else if n =? 110 then Some (char 10)
  else if n =? 114 then Some (char 13)
  else if n =? 116 then Some (char 9)
  else None.

(** The low half of a surrogate pair written as a second [\u] escape. *)
Definition low_surrogate (s : string) : option (Z * string) :=
  match s with
  | String b (String u (String h1 (String h2 (String h3 (String h4 rest))))) =>
      if (code b =? 92) && (code u =? 117) then
        match hex4 h1 h2 h3 h4 with
        | Some lo =>
            if (56320 <=? lo) && (lo <? 57344) then Some (lo, rest) else None
        | None => None
        end
      else None
  | _ => None
  end.

Definition prepend (p : string) (r : option (string * string)) :
    option (string * string) :=
  match r with
  | Some (str, rest) => Some (p ++ str, rest)
  | None => None
  end.

(** The characters of a string literal after its opening quotation mark, up
    to and including the closing one. *)
Fixpoint parse_string (s : string) : option (string * string) :=
  match s with
  | EmptyString => None
  | String c rest =>
      if code c =? 34 then Some (EmptyString, rest)
      else if code c =? 92 then
        match rest with
        | EmptyString => None
        | String e rest1 =>
            if code e =? 117 then
              match rest1 with
              | String h1 (String h2 (String h3 (String h4 rest2))) =>
                  match hex4 h1 h2 h3 h4 with
                  | None => None
                  | Some hi =>
                      if (55296 <=? hi) && (hi <? 56320) then
                        match rest2 with
                        | String b (String u (String l1 (String l2
                            (String l3 (String l4 rest3))))) =>
                            match low_surrogate rest2 with
                            | Some (lo, _) =>
                                prepend
                                  (utf8 (65536 + (hi - 55296) * 1024 + (lo - 56320)))
                                  (parse_string rest3)
                            | None => prepend (utf8 hi) (parse_string rest2)
                            end
                        | _ => prepend (utf8 hi) (parse_string rest2)
                        end
                      else prepend (utf8 hi) (parse_string rest2)
                  end
              | _ => None
              end
            else
              match unescape e with
              | Some ch => prepend (String ch "") (parse_string rest1)
              | None => None
              end
        end
      else if code c <? 32 then None
      else prepend (String c "") (parse_string rest)
  end.

(** Number tokens: the longest run of characters a number can contain, then
    the grammar [-? int frac? exp?] on that run. *)
Definition is_number_char (c : ascii) : bool :=
  let n := code c in
  is_digit c || (n =? 43) || (n =? 45) || (n =? 46) || (n =? 101) || (n =? 69).

Fixpoint span (p : ascii -> bool) (s : string) : string * string :=
  match s with
  | EmptyString => (EmptyString, EmptyString)
  | String c rest =>
      if p c then let '(a, b) := span p rest in (String c a, b)
      else (EmptyString, s)
  end.

Fixpoint digits_value (acc : Z) (s : string) : Z :=
  match s with
  | EmptyString => acc
  | String c rest => digits_value (acc * 10 + (code c - 48)) rest
  end.

Definition strlen (s : string) : Z := Z.of_nat (String.length s).

(** The exponent part: absent, or [e], an optional sign and digits. *)
Definition exponent_of (s : string) : option Z :=
  match s with
  | EmptyString => Some 0
  | String c rest =>
      if (code c =? 101) || (code c =? 69) then
        let '(neg, ds) :=
          match rest with
          | String sg r =>
              if code sg =? 45 then (true, r)
              else if code sg =? 43 then (false, r)
              else (false, rest)
          | EmptyString => (false, rest)
          end in
        let '(es, after) := span is_digit ds in
        match es, after with
        | String _ _, EmptyString =>
            Some (if neg then - digits_value 0 es else digits_value 0 es)
        | _, _ => None
        end
      else None
  end.

Definition number_of_token (tok : string) : option float :=
  let '(neg, t) :=
    match tok with
    | String c r => if code c =? 45 then (true, r) else (false, tok)
    | EmptyString => (false, tok)
    end in
  let '(ip, t1) := span is_digit t in
  let int_ok :=
    match ip with
    | EmptyString => false
    | String c EmptyString => true
    | String c _ => negb (code c =? 48)
    end in
  if int_ok then
    let '(fp, t2, frac_ok) :=
      match t1 with
      | String c r =>
          if code c =? 46 then
            let '(fp, r') := span is_digit r in
            (fp, r', negb (String.eqb fp ""))
          else (EmptyString, t1, true)
      | EmptyString => (EmptyString, t1, true)
      end in
    if frac_ok then
      match exponent_of t2 with
      | Some e =>
          Some (Number.of_decimal neg (digits_value 0 (ip ++ fp)) (e - strlen fp))
      | None => None
      end
    else None
  else None.

Fixpoint strip_prefix (p s : string) : option string :=
  match p, s with
  | EmptyString, _ => Some s
  | String a p', String b s' => if Ascii.eqb a b then strip_prefix p' s' else None
  | String _ _, EmptyString => None
  end.

(** Property creation: an integer index (the canonical numeral of a number
    below 2^32 - 1) is kept before the other keys, in ascending order;
    another key goes last; a key that is there keeps its place and takes
    the new value. *)
Definition array_index (k : string) : option Z :=
  if forallb is_digit (list_ascii_of_string k) then
    let n := digits_value 0 k in
    if String.eqb (decimal n) k && (n <? 4294967295) then Some n else None
  else None.

Definition comes_before (k k' : string) : bool :=
  match array_index k, array_index k' with
  | Some i, Some j => i <? j
  | Some _, None => true
  | None, _ => false
  end.

Fixpoint define (k : string) (v : jsval) (properties : list (string * jsval)) :
    list (string * jsval) :=
  match properties with
  | [] => [(k, v)]
  | (k', v') :: rest =>
      if String.eqb k k' then (k, v) :: rest
      else if comes_before k k' then (k, v) :: (k', v') :: rest
      else (k', v') :: define k v rest
  end.

Definition object_of (members : list (string * jsval)) : jsval :=
  Obj Object_prototype
    (fold_left (fun properties '(k, v) => define k v properties) members []).

(** One value, given how to read the elements of an array and the members
    of an object. *)
Definition value_step (elements : string -> parsed (list jsval))
    (members : string -> parsed (list (string * jsval))) (s : string) :
    parsed jsval :=
  match skip_whitespace s with
  | EmptyString => Malformed
  | String c rest =>
      if code c =? 34 then
        match parse_string rest with
        | Some (str, r) => Parsed (Str str) r
        | None => Malformed
        end
      else if code c =? 91 then
        match skip_whitespace rest with
        | EmptyString => Malformed
        | String c' r =>
            if code c' =? 93 then Parsed (Arr []) r
            else match elements rest with
                 | Parsed vs r' => Parsed (Arr vs) r'
                 | Malformed => Malformed
                 | OutOfFuel => OutOfFuel
                 end
        end
      else if code c =? 123 then
        match skip_whitespace rest with
        | EmptyString => Malformed
        | String c' r =>
            if code c' =? 125 then Parsed (object_of []) r
            else match members rest with
                 | Parsed ms r' => Parsed (object_of ms) r'
                 | Malformed => Malformed
                 | OutOfFuel => OutOfFuel
                 end
        end
      else if is_number_char c then
        let '(tok, r) := span is_number_char (String c rest) in
        match number_of_token tok with
        | Some x => Parsed (Num x) r
        | None => Malformed
        end
      else
        match strip_prefix "null" (String c rest) with
        | Some r => Parsed Null r
        | None =>
            match strip_prefix "true" (String c rest) with
            | Some r => Parsed (Boolean true) r
            | None =>
                match strip_prefix "false" (String c rest) with
                | Some r => Parsed (Boolean false) r
                | None => Malformed
                end
            end
        end
  end.

(** The elements of an array after its opening bracket or a comma: a value,
    then a comma and more elements, or the closing bracket. *)
Definition elements_step (value : string -> parsed jsval)
    (elements : string -> parsed (list jsval)) (s : string) :
    parsed (list jsval) :=
  match value s with
  | Parsed v r =>
      match skip_whitespace r with
      | EmptyString => Malformed
      | String c r' =>
          if code c =? 44 then
            match elements r' with
            | Parsed vs r'' => Parsed (v :: vs) r''
            | Malformed => Malformed
            | OutOfFuel => OutOfFuel
            end
          else if code c =? 93 then Parsed [v] r'
          else Malformed
      end
  | Malformed => Malformed
  | OutOfFuel => OutOfFuel
  end.

(** The members of an object after its opening brace or a comma: a string,
    a colon and a value, then a comma and more members, or the closing
    brace. *)
Definition members_step (value : string -> parsed jsval)
    (members : string -> parsed (list (string * jsval))) (s : string) :
    parsed (list (string * jsval)) :=
  match skip_whitespace s with
  | EmptyString => Malformed
  | String q r0 =>
      if code q =? 34 then
        match parse_string r0 with
        | None => Malformed
        | Some (k, r1) =>
            match skip_whitespace r1 with
            | EmptyString => Malformed
            | String colon r2 =>
                if code colon =? 58 then
                  match value r2 with
                  | Parsed v r3 =>
                      match skip_whitespace r3 with
                      | EmptyString => Malformed
                      | String c r4 =>
                          if code c =? 44 then
                            match members r4 with
                            | Parsed ms r5 => Parsed ((k, v) :: ms) r5
                            | Malformed => Malformed
                            | OutOfFuel => OutOfFuel
                            end
                          else if code c =? 125 then Parsed [(k, v)] r4
                          else Malformed
                      end
                  | Malformed => Malformed
                  | OutOfFuel => OutOfFuel
                  end
                else Malformed
            end
        end
      else Malformed
  end.

Fixpoint parse_value (fuel : nat) (s : string) {struct fuel} : parsed jsval :=
  match fuel with
  | O => OutOfFuel
  | S fuel' => value_step (parse_elements fuel') (parse_members fuel') s
  end

with parse_elements (fuel : nat) (s : string) {struct fuel} : parsed (list jsval) :=
  match fuel with
  | O => OutOfFuel
  | S fuel' => elements_step (parse_value fuel') (parse_elements fuel') s
  end

with parse_members (fuel : nat) (s : string) {struct fuel} :
    parsed (list (string * jsval)) :=
  match fuel with
  | O => OutOfFuel
  | S fuel' => members_step (parse_value fuel') (parse_members fuel') s
  end.

(** [JSON.parse(text)]: one value, then nothing but white space; any other
    text is a SyntaxError. The fuel is enough for every text (two nested
    calls at most per character), so the last case never arises. *)
Definition parse (text : string) : Completion jsval :=
  match parse_value (2 * String.length text + 2) text with
  | Parsed v rest =>
      match skip_whitespace rest with
      | EmptyString => Normal v
      | String _ _ => Throw SyntaxError
      end
  | Malformed => Throw SyntaxError
  | OutOfFuel => Throw SyntaxError
  end.

End JSON.

(** A JSON text written with apostrophes in place of its quotation marks. *)
Fixpoint double_quoted (s : string) : string :=
  match s with
  | EmptyString => EmptyString
  | String c rest =>
      String (if code c =? 39 then JSON.quotation_mark else c) (double_quoted rest)
  end.

(** ** The browser and the private fields of [App] *)

(** A marker with its popup, by what the script passes to Leaflet. *)
Record Marker := mkMarker {
  marker_latlng : jsval;
  popup_className : jsval;
  popup_content : jsval
}.

Record LeafletMap := mkMap {
  view_center : jsval;
  view_zoom : Z;
  markers : list Marker
}.

(** The form: whether it carries the class [hidden], the value of the kind
    selector, and each text field by the number that unary [+] reads from it
    (0 from an empty field, NaN from text that is no number). *)
Record Form := mkForm {
  hidden : bool;
  inputType : string;
  inputDistance : float;
  inputDuration : float;
  inputCadence : float;
  inputElevation : float
}.

Record State := mkState {
  App_map : option LeafletMap;
  App_mapEvent : option (float * float);
  App_workouts : jsval;
  localStorage : gmap string string;
  alerts : list string;
  form : Form;
  (** the list items after the form, first to last, each by the workout it
      was rendered from *)
  containerWorkouts : list jsval
}.

Definition mapZoomLevel : Z := 13.

(** A method runs on a state and ends normally or by throwing; what it changed
    before throwing stays changed. *)
Definition M (A : Type) : Type := State -> Completion A * State.

Definition ret {A} (a : A) : M A := fun st => (Normal a, st).

Definition bind {A B} (m : M A) (k : A -> M B) : M B :=
  fun st =>
    match m st with
    | (Normal a, st') => k a st'
    | (Throw e, st') => (Throw e, st')
    end.

Definition lift {A} (c : Completion A) : M A := fun st => (c, st).

Definition gets {A} (f : State -> A) : M A := fun st => (Normal (f st), st).

Definition modify (f : State -> State) : M unit := fun st => (Normal tt, f st).

Declare Scope js_scope.
Delimit Scope js_scope with js.
Notation "x <- m ;; k" := (bind m (fun x => k))
  (at level 100, m at next level, k at level 200, right associativity) : js_scope.
Notation "m ;; k" := (bind m (fun _ => k))
  (at level 100, k at level 200, right associativity) : js_scope.
Local Open Scope js_scope.

Definition set_map (m : LeafletMap) (st : State) : State :=
  mkState (Some m) (App_mapEvent st) (App_workouts st) (localStorage st)
    (alerts st) (form st) (containerWorkouts st).

Definition set_mapEvent (latlng : float * float) (st : State) : State :=
  mkState (App_map st) (Some latlng) (App_workouts st) (localStorage st)
    (alerts st) (form st) (containerWorkouts st).

Definition set_workouts (ws : jsval) (st : State) : State :=
  mkState (App_map st) (App_mapEvent st) ws (localStorage st)
    (alerts st) (form st) (containerWorkouts st).

Definition set_localStorage (ls : gmap string string) (st : State) : State :=
  mkState (App_map st) (App_mapEvent st) (App_workouts st) ls
    (alerts st) (form st) (containerWorkouts st).

Definition set_alerts (a : list string) (st : State) : State :=
  mkState (App_map st) (App_mapEvent st) (App_workouts st) (localStorage st)
    a (form st) (containerWorkouts st).

Definition set_form (f : Form) (st : State) : State :=
  mkState (App_map st) (App_mapEvent st) (App_workouts st) (localStorage st)
    (alerts st) f (containerWorkouts st).

Definition set_containerWorkouts (l : list jsval) (st : State) : State :=
  mkState (App_map st) (App_mapEvent st) (App_workouts st) (localStorage st)
    (alerts st) (form st) l.

(** [alert(message)]. *)
Definition alert (message : string) : M unit :=
  modify (fun st => set_alerts (alerts st ++ [message]) st).

(** [localStorage.getItem], [setItem] and [removeItem]. *)
Definition getItem (key : string) : M (option string) :=
  gets (fun st => localStorage st !! key).

Definition setItem (key value : string) : M unit :=
  modify (fun st => set_localStorage (<[key := value]> (localStorage st)) st).

Definition removeItem (key : string) : M unit :=
  modify (fun st => set_localStorage (delete key (localStorage st)) st).

(** [this.#map] where a method of it is called: a TypeError while the map
    does not exist. *)
Definition the_map : M LeafletMap :=
  fun st =>
    match App_map st with
    | Some m => (Normal m, st)
    | None => (Throw TypeError, st)
    end.

(** [array.forEach(f)]; a value that is no array has no [forEach]. *)
Fixpoint forEach_elements (f : jsval -> M unit) (elements : list jsval) : M unit :=
  match elements with
  | [] => ret tt
  | e :: rest => f e ;; forEach_elements f rest
  end.

Definition forEach (f : jsval -> M unit) (array : jsval) : M unit :=
  match array with
  | Arr elements => forEach_elements f elements
  | _ => lift (Throw TypeError)
  end.

(** [array.find(w => w.id === id)]: the first element whose [id] is the
    string, [undefined] when there is none. *)
Fixpoint find_id (id : string) (elements : list jsval) : Completion jsval :=
  match elements with
  | [] => Normal Undefined
  | w :: rest =>
      match Get w "id" with
      | Normal v => if strict_equals_string v id then Normal w else find_id id rest
      | Throw e => Throw e
      end
  end.

Definition findById (id : string) (array : jsval) : Completion jsval :=
  match array with
  | Arr elements => find_id id elements
  | _ => Throw TypeError
  end.

(** [array.push(workout)]. *)
Definition push (workout : jsval) : M unit :=
  fun st =>
    match App_workouts st with
    | Arr elements => (Normal tt, set_workouts (Arr (elements ++ [workout])) st)
    | _ => (Throw TypeError, st)
    end.

(** ** [class App] *)

Definition _alertMessage : M unit := alert "Could not get your position.".

(** [_getPosition]: the second argument of [getCurrentPosition] is the call
    [this._alertMessage()], made on the spot. The position itself arrives
    later, as a call of [_loadMap]. *)
Definition _getPosition (geolocation : bool) : M unit :=
  if geolocation then _alertMessage else ret tt.

(** [marker.addTo(map)]: the map with one more marker. *)
Definition with_marker (m : LeafletMap) (marker : Marker) : LeafletMap :=
  mkMap (view_center m) (view_zoom m) (markers m ++ [marker]).

(** [`${workout.name}`]: the property is read and converted to a string. *)
Definition substitution (workout : jsval) (name : string) : M jsval :=
  value <- lift (Get workout name) ;;
  lift (ToString value) ;;
  ret value.

(** [_renderWorkoutMarker], call by call: the marker is made of
    [workout.coords] and added to the map; then the popup is made, whose class
    name converts [workout.type] to a string, and bound; then the content is
    set, which converts [workout.description]. What Leaflet itself does with
    the coordinates it is given is not part of this model: it takes them as
    they are. *)
Definition _renderWorkoutMarker (workout : jsval) : M unit :=
  coords <- lift (Get workout "coords") ;;
  m <- the_map ;;
  modify (set_map (with_marker m (mkMarker coords Undefined Undefined))) ;;
  type <- substitution workout "type" ;;
  modify (set_map (with_marker m (mkMarker coords type Undefined))) ;;
  description <- substitution workout "description" ;;
  modify (set_map (with_marker m (mkMarker coords type description))).

(** [_renderWorkout]: the markup is not built here, only what building it
    does that can fail: each substitution reads a property and converts it to
    a string, and [workout.pace.toFixed(1)] needs [pace] to be a number. The
    list item is inserted at the end. *)
Definition _renderWorkout (workout : jsval) : M unit :=
  type <- substitution workout "type" ;;
  substitution workout "id" ;;
  substitution workout "description" ;;
  substitution workout "distance" ;;
  substitution workout "duration" ;;
  (if strict_equals_string type "running" then
     pace <- lift (Get workout "pace") ;;
     match pace with
     | Num _ => ret tt
     | _ => lift (Throw TypeError)
     end ;;
     substitution workout "cadence" ;;
     ret tt
   else ret tt) ;;
  (if strict_equals_string type "cycling" then
     substitution workout "speed" ;;
     substitution workout "elevation" ;;
     ret tt
   else ret tt) ;;
  modify (fun st => set_containerWorkouts (workout :: containerWorkouts st) st).

(** [_loadMap]: [L.map('map')] makes the map of the container, which Leaflet
    refuses with an [Error] when the container has a map already; then the
    view is set and the workouts in memory get their markers. *)
Definition _loadMap (latitude longitude : float) : M unit :=
  let coords := Arr [Num latitude; Num longitude] in
  existing <- gets App_map ;;
  match existing with
  | Some _ => lift (Throw LeafletError)
  | None =>
      modify (set_map (mkMap coords mapZoomLevel [])) ;;
      ws <- gets App_workouts ;;
      forEach (fun work => _renderWorkoutMarker work) ws
  end.

Definition _showForm (latlng : float * float) : M unit :=
  modify (set_mapEvent latlng) ;;
  modify (fun st =>
            set_form (mkForm false (inputType (form st)) (inputDistance (form st))
                        (inputDuration (form st)) (inputCadence (form st))
                        (inputElevation (form st))) st).

Definition _hideForm : M unit :=
  modify (fun st => set_form (mkForm true (inputType (form st)) 0 0 0 0) st).

Definition _setLocalStorage : M unit :=
  ws <- gets App_workouts ;;
  setItem "workouts"
    (match JSON.stringify ws with
     | Some text => text
     | None => "undefined"
     end).

Definition _getLocalStorage : M unit :=
  item <- getItem "workouts" ;;
  data <- lift (JSON.parse (match item with
                            | Some text => text
                            | None => "null"
                            end)) ;;
  if negb (ToBoolean data) then ret tt
  else
    modify (set_workouts data) ;;
    ws <- gets App_workouts ;;
    forEach (fun w => _renderWorkout w) ws.

Definition _newWorkout (clock : Clock) : M unit :=
  type <- gets (fun st => inputType (form st)) ;;
  distance <- gets (fun st => inputDistance (form st)) ;;
  duration <- gets (fun st => inputDuration (form st)) ;;
  latlng <- (fun st => match App_mapEvent st with
                       | Some latlng => (Normal latlng, st)
                       | None => (Throw TypeError, st)
                       end) ;;
  cadence <- gets (fun st => inputCadence (form st)) ;;
  elevation <- gets (fun st => inputElevation (form st)) ;;
  let workout := Undefined in
  if String.eqb type "running" &&
     (negb (validInputs [distance; duration; cadence]) ||
      negb (allPositive [distance; duration; cadence]))
  then alert "Inputs have to be positive numbers!"
  else
    let workout :=
      if String.eqb type "running"
      then Running_object (Running_new clock latlng distance duration cadence)
      else workout in
    if String.eqb type "cycling" &&
       (negb (validInputs [distance; duration; elevation]) ||
        negb (allPositive [distance; duration]))
    then alert "Inputs have to be positive numbers!"
    else
      let workout :=
        if String.eqb type "cycling"
        then Cycling_object (Cycling_new clock latlng distance duration elevation)
        else workout in
      push workout ;;
      _renderWorkoutMarker workout ;;
      _renderWorkout workout ;;
      _hideForm ;;
      _setLocalStorage.

(** [_moveToPopup(e)], by the [data-id] of the list item the click was in,
    [None] for a click outside every item. As for the markers, what Leaflet
    itself does with the coordinates that [setView] is given is not part of
    this model. *)
Definition _moveToPopup (workoutElement : option string) : M unit :=
  match workoutElement with
  | None => ret tt
  | Some dataset_id =>
      ws <- gets App_workouts ;;
      workout <- lift (findById dataset_id ws) ;;
      m <- the_map ;;
      coords <- lift (Get workout "coords") ;;
      modify (set_map (mkMap coords mapZoomLevel (markers m)))
  end.

(** The constructor, on the state of a page that has just been loaded. *)
Definition App_new (geolocation : bool) : M unit :=
  _getPosition geolocation ;;
  _getLocalStorage.

(** A page that has just been loaded: nothing in memory, nothing rendered, the
    form hidden and empty; only [localStorage] is what it was. *)
Definition fresh_page (storage : gmap string string) (kind : string) : State :=
  mkState None None (Arr []) storage [] (mkForm true kind 0 0 0 0) [].

(** [location.reload()]: the page is loaded again and the script started
    again. *)
Definition location_reload (geolocation : bool) : M unit :=
  fun st => App_new geolocation (fresh_page (localStorage st) (inputType (form st))).

Definition reset (geolocation : bool) : M unit :=
  removeItem "workouts" ;;
  location_reload geolocation.

(** ** The specification's vocabulary *)

(** The message of the one validation failure the script knows. *)
Definition validation_message : string := "Inputs have to be positive numbers!".

(** A submission ends in a validation error: the alert is shown, the method
    returns, and nothing else has changed. *)
Definition ValidationError (clock : Clock) (st : State) : Prop :=
  _newWorkout clock st =
  (Normal tt, set_alerts (alerts st ++ [validation_message]) st).

(** The kind-specific metric of the form: the cadence of a running workout,
    the elevation gain of a cycling one. *)
Definition metric (f : Form) : float :=
  if String.eqb (inputType f) "running" then inputCadence f else inputElevation f.

(** The specification's condition for rejecting a form, in its own words: a
    supplied number that is not finite, a distance or a duration that is not
    above zero, or, for running only, a cadence that is not above zero. *)
Definition spec_rejects (f : Form) : bool :=
  negb (Number.isFinite (inputDistance f)) ||
  negb (Number.isFinite (inputDuration f)) ||
  negb (Number.isFinite (metric f)) ||
  Number.le (inputDistance f) 0 ||
  Number.le (inputDuration f) 0 ||
  (String.eqb (inputType f) "running" && Number.le (inputCadence f) 0).

(** The entries the script appends: instances of the two classes. *)
Inductive Entry :=
| RunningEntry (r : Running)
| CyclingEntry (c : Cycling).

Definition Entry_object (e : Entry) : jsval :=
  match e with
  | RunningEntry r => Running_object r
  | CyclingEntry c => Cycling_object c
  end.

Definition Entry_super (e : Entry) : Workout :=
  match e with
  | RunningEntry r => Running_super r
  | CyclingEntry c => Cycling_super c
  end.

Definition Entry_id (e : Entry) : string := id (Entry_super e).

(** The store of the specification: the array of the appended entries. *)
Definition store (entries : list Entry) : jsval := Arr (map Entry_object entries).

(** The [k] lowest decimal digits of [n], highest first. *)
Fixpoint last_digits (k : nat) (n : Z) : string :=
  match k with
  | O => EmptyString
  | S k' => last_digits k' (n / 10) ++ String (digit (n mod 10)) EmptyString
  end.

(** A method leaves a component of the state as it was, however it ends. *)
Definition preserves {A B} (f : State -> A) (m : M B) : Prop :=
  forall st, f (snd (m st)) = f st.

(** What [_newWorkout] does once the form has passed validation. *)
Definition append_and_render (workout : jsval) : M unit :=
  push workout ;;
  _renderWorkoutMarker workout ;;
  _renderWorkout workout ;;
  _hideForm ;;
  _setLocalStorage.

(** A clock and a state to run the methods on: the map is there and has been
    clicked, the form holds the given kind and numbers. *)
Definition demo_date : Date := mkDate 1700000000000 10 14.
Definition demo_clock : Clock := mkClock demo_date 1700000000123.

Definition demo_state (kind : string) (d t c e : float) : State :=
  mkState (Some (mkMap (Arr [Num 45; Num 15]) mapZoomLevel []))
    (Some (45.5, 15.9)%float) (Arr []) ∅ []
    (mkForm false kind d t c e) [].

(** Three entries, the first two made in the same millisecond. *)
Definition entry_a : Entry :=
  RunningEntry (Running_new demo_clock (45.5, 15.9)%float 5.2 24 178).
Definition entry_b : Entry :=
  CyclingEntry (Cycling_new demo_clock (45.6, 15.8)%float 20 60 (-5)).
Definition entry_c : Entry :=
  RunningEntry (Running_new (mkClock demo_date 1700000999999) (45.7, 15.7)%float 10 50 160).

(** An entry as the constructors make it from a reading of the clock. *)
Definition constructed (clock : Clock) (e : Entry) : Prop :=
  exists coords distance duration metric,
    e = RunningEntry (Running_new clock coords distance duration metric) \/
    e = CyclingEntry (Cycling_new clock coords distance duration metric).

(** The user fills the form in. *)
Definition fill (f : Form) : M unit := modify (set_form f).

(** Two submissions answered by the clock with the same millisecond, the map
    clicked elsewhere in between. *)
Definition two_in_one_millisecond : State :=
  snd ((_newWorkout demo_clock ;;
        _showForm (45.6, 15.8)%float ;;
        fill (mkForm false "cycling" 20 60 0 (-5)) ;;
        _newWorkout demo_clock)
         (demo_state "running" 5.2 24 178 0)).

(** ** Vocabulary for the JSON reader *)

(** A result that more fuel can only complete. *)
Definition extends {A} (r r' : JSON.parsed A) : Prop :=
  r = JSON.OutOfFuel \/ r = r'.

(** A reader never leaves more text than it was given. *)
Definition consumes {A} (p : string -> JSON.parsed A) : Prop :=
  forall s a r, p s = JSON.Parsed a r -> (String.length r <= String.length s)%nat.

(** ** What survives serialization *)

(** The text [JSON.stringify] writes for an array element. *)
Definition element_text (v : jsval) : string :=
  match JSON.SerializeJSONProperty v with
  | Some s => s
  | None => "null"
  end.

(** What is read back from the text of a value: a date has become its ISO
    string, a class instance a plain object, a number that is not finite and
    an [undefined] element [null], and a property that was [undefined] is
    gone. *)
Fixpoint plain (v : jsval) : jsval :=
  match v with
  | Undefined => Null
  | Null => Null
  | Boolean b => Boolean b
  | Num x => if Number.isFinite x then Num x else Null
  | Str s => Str s
  | DateObject d => Str (toISOString d)
  | Arr elements => Arr (map plain elements)
  | Obj _ properties =>
      Obj Object_prototype
        (flat_map (fun '(k, e) =>
                     match e with
                     | Undefined => []
                     | _ => [(k, plain e)]
                     end) properties)
  end.

(** The numeral written for a number reads back as the number. *)
Definition survives (x : float) : Prop :=
  forallb JSON.is_number_char (list_ascii_of_string (Number.toString x)) = true /\
  JSON.number_of_token (Number.toString x) = Some x.

(** The properties that are written: those that are not [undefined]. *)
Definition written (properties : list (string * jsval)) : list (string * jsval) :=
  List.filter (fun kv => match snd kv with Undefined => false | _ => true end)
    properties.

(** Keys that are read back in the order they were written: distinct, and
    none an integer index. *)
Definition keys_storable (properties : list (string * jsval)) : Prop :=
  List.NoDup (map fst (written properties)) /\
  Forall (fun k => JSON.array_index k = None) (map fst (written properties)).

(** A value all of whose finite numbers survive and all of whose objects have
    storable keys. *)
Fixpoint storable (v : jsval) : Prop :=
  match v with
  | Num x => Number.isFinite x = true -> survives x
  | Arr elements =>
      (fix all (l : list jsval) : Prop :=
         match l with
         | [] => True
         | e :: l' => storable e /\ all l'
         end) elements
  | Obj _ properties =>
      keys_storable properties /\
      (fix all (l : list (string * jsval)) : Prop :=
         match l with
         | [] => True
         | (_, e) :: l' => storable e /\ all l'
         end) properties
  | _ => True
  end.

(** What may follow a value in a text: nothing, or a character that no number
    contains. *)
Definition delimited (rest : string) : Prop :=
  match rest with
  | EmptyString => True
  | String c _ => JSON.is_number_char c = false
  end.

(** The text written for a property. *)
Definition member_text (kv : string * jsval) : string :=
  JSON.QuoteJSONString (fst kv) ++ ":" ++ element_text (snd kv).

(** The value is read back from its text, whatever delimited text follows. *)
Definition reads_back (v : jsval) : Prop :=
  forall rest, delimited rest ->
  exists fuel,
    JSON.parse_value fuel (element_text v ++ rest) = JSON.Parsed (plain v) rest.

(** The numbers an entry holds. *)
Definition Entry_numbers (e : Entry) : list float :=
  let w := Entry_super e in
  [fst (coords w); snd (coords w); distance w; duration w] ++
  match e with
  | RunningEntry r => [cadence r; pace r]
  | CyclingEntry c => [elevation c; speed c]
  end.

(** An entry that serialization keeps as it is: each of its numbers is finite
    and survives. *)
Definition Entry_survives (e : Entry) : Prop :=
  Forall (fun x => Number.isFinite x = true /\ survives x) (Entry_numbers e).

(** The specification's [save] is [_setLocalStorage]; its [load] is
    [_getLocalStorage] as the constructor calls it when the page is loaded. *)
Definition save (st : State) : State := snd (_setLocalStorage st).

Definition load (storage : gmap string string) (kind : string) :
    Completion unit * State :=
  _getLocalStorage (fresh_page storage kind).

(** A running entry whose pace overflows: 1e300 minutes over 1e-300 km. *)
Definition entry_overflow : Entry :=
  RunningEntry (Running_new demo_clock (45.5, 15.9)%float 1e-300 1e300 170).

(** A workout that [_renderWorkout] renders, on any state. *)
Definition renderable (w : jsval) : Prop :=
  forall st,
    _renderWorkout w st =
    (Normal tt, set_containerWorkouts (w :: containerWorkouts st) st).

(** A restored workout holds the data of the original: every property but
    [date] is the same, and [date] is the ISO string of the original date. *)
Definition same_data (restored : jsval) (e : Entry) : Prop :=
  (forall name, name <> "date" -> Get restored name = Get (Entry_object e) name) /\
  Get restored "date" = Normal (Str (toISOString (date (Entry_super e)))).

(** ** The kind-specific rows and the listeners *)



(** What the user types into the form: every field but the class [hidden],
    which only the script sets. *)
Definition type_in (kind : string) (distance duration cadence elevation : float) :
    M unit :=
  modify (fun st =>
            set_form (mkForm (hidden (form st)) kind distance duration cadence
                        elevation) st).

(** The events of a session and the listener of each: an answer of the
    geolocation ([_loadMap], handed to [getCurrentPosition]), a click on the
    map ([_showForm], registered on the map that [_loadMap] creates, so there
    is none while there is no map), the [submit] of the form ([_newWorkout])
    and a click in the list ([_moveToPopup]), both registered at the end of
    the constructor. Typing has no listener. The [change] of the selector
    only flips the rows ([_toggleElevationField]), which no other method
    reads, and is left out. *)
Inductive Event :=
| position (latitude longitude : float)
| map_click (latlng : float * float)
| typing (kind : string) (distance duration cadence elevation : float)
| submit (clock : Clock)
| list_click (workoutElement : option string).

Definition handle (ev : Event) : M unit :=
  match ev with
  | position latitude longitude => _loadMap latitude longitude
  | map_click latlng =>
      fun st =>
        match App_map st with
        | Some _ => _showForm latlng st
        | None => (Normal tt, st)
        end
  | typing kind distance duration cadence elevation =>
      type_in kind distance duration cadence elevation
  | submit clock => _newWorkout clock
  | list_click workoutElement => _moveToPopup workoutElement
  end.

(** A sequence of events: what a listener throws is reported by the browser
    and the page goes on with the state the listener left. *)
Fixpoint run (events : list Event) (st : State) : State :=
  match events with
  | [] => st
  | ev :: rest => run rest (snd (handle ev st))
  end.

(** ** Vocabulary for the state of the page *)

(** The marker [_renderWorkoutMarker] makes of an object. *)
Definition marker_of (workout : jsval) : Marker :=
  match workout with
  | Obj _ properties =>
      mkMarker (assoc "coords" properties) (assoc "type" properties)
        (assoc "description" properties)
  | _ => mkMarker Undefined Undefined Undefined
  end.

Definition is_object (v : jsval) : Prop :=
  match v with
  | Obj _ _ => True
  | _ => False
  end.

(** The two kinds the script knows. *)
Definition known_kind (kind : string) : Prop :=
  kind = "running" \/ kind = "cycling".

(** The entry a submission constructs from the form. *)
Definition new_entry (clock : Clock) (latlng : float * float) (f : Form) : Entry :=
  if String.eqb (inputType f) "cycling"
  then CyclingEntry (Cycling_new clock latlng (inputDistance f) (inputDuration f)
                       (inputElevation f))
  else RunningEntry (Running_new clock latlng (inputDistance f) (inputDuration f)
                       (inputCadence f)).

(** What is in [localStorage] is what is in memory: the text under the key is
    the text of the array, and without the key the array is empty. *)
Definition in_sync (st : State) : Prop :=
  match localStorage st !! "workouts" with
  | Some text => JSON.stringify (App_workouts st) = Some text
  | None => App_workouts st = Arr []
  end.

(** A workout of the script's own making: an entry that the constructors
    made, as it is in memory, or as it is restored from what the script
    stored of it when its numbers are finite and read back. *)
Definition script_workout (w : jsval) : Prop :=
  exists e,
    (exists clock, constructed clock e) /\
    (w = Entry_object e \/ (Entry_survives e /\ w = plain (Entry_object e))).

(** The page shows what is in memory: the array holds workouts of the
    script's own making, the list shows them last to first, the map (once it
    is there) one marker for each in order, a click position is only there
    with a map, the selector holds one of the two kinds, and the storage is
    in sync. *)
Definition consistent (st : State) : Prop :=
  exists ws,
    App_workouts st = Arr ws /\
    Forall script_workout ws /\
    containerWorkouts st = rev ws /\
    (forall m, App_map st = Some m -> markers m = map marker_of ws) /\
    (App_map st = None -> App_mapEvent st = None) /\
    known_kind (inputType (form st)) /\
    in_sync st.

(** The events in which the user chooses one of the two kinds. *)
Definition chooses_known_kind (ev : Event) : Prop :=
  match ev with
  | typing kind _ _ _ _ => known_kind kind
  | _ => True
  end.

(** What memory holds in a later session: the entries restored when the page
    was loaded, then the entries appended since. *)
Definition session_store (restored added : list Entry) : jsval :=
  Arr (map (fun e => plain (Entry_object e)) restored ++ map Entry_object added).

(** A number of the sign [s] that is no NaN: a zero, an infinity or a finite
    number. *)
Definition signed (s : bool) (x : spec_float) : Prop :=
  x = S754_zero s \/ x = S754_infinity s \/ exists m e, x = S754_finite s m e.

(** * Properties *)

(** ** The built-ins on sample inputs *)

Example Number_toString_samples :
  map Number.toString
    [5.2; 24; 4.615384615384615; 0.005555555555555555; 0.1; 100; -15.966;
     123456789012345680000; 1e21; 1.2e21; 1e23; 0.000001; 1e-7; 1.5e-10;
     5e-324; 1.7976931348623157e308; (-0); infinity; neg_infinity; nan]%float =
    [ "5.2"; "24"; "4.615384615384615"; "0.005555555555555555"; "0.1"; "100";
      "-15.966"; "123456789012345680000"; "1e+21"; "1.2e+21"; "1e+23";
      "0.000001"; "1e-7"; "1.5e-10"; "5e-324"; "1.7976931348623157e+308";
      "0"; "Infinity"; "-Infinity"; "NaN" ].
Proof. vm_compute. reflexivity. Qed.

Example of_decimal_samples :
  Number.of_decimal false 52 (-1) = 5.2%float /\
  Number.of_decimal false 9007199254740993 0 = 9007199254740992%float /\
  Number.of_decimal false 17976931348623157 292 = 1.7976931348623157e308%float /\
  Number.of_decimal false 17976931348623159 292 = infinity /\
  Number.of_decimal false 24703282292062328 (-340) = 5e-324%float /\
  Number.of_decimal false 24703282292062327 (-340) = 0%float /\
  Number.of_decimal true 0 7 = (-0)%float.
Proof. vm_compute. repeat split. Qed.

Example toISOString_samples :
  map (fun t => toISOString (mkDate t 0 1))
    [0; -1; 951782400000; 1700000000000; 8640000000000000; -8640000000000000] =
    [ "1970-01-01T00:00:00.000Z"; "1969-12-31T23:59:59.999Z";
      "2000-02-29T00:00:00.000Z"; "2023-11-14T22:13:20.000Z";
      "+275760-09-13T00:00:00.000Z"; "-271821-04-20T00:00:00.000Z" ].
Proof. vm_compute. reflexivity. Qed.

Example JSON_parse_samples :
  map JSON.parse
    [ "null"; " [ 1 , 2.5e1 ] "; "-0"; "[[[]]]"; "1e400";
      double_quoted "{'a':1,'2':true,'a':'xA\n','1':{}}";
      "{"; ""; "[1,]"; "01"; "1."; ".5"; "nul"; "1 2"; "[1 2]";
      double_quoted "'a" ] =
    [ Normal Null; Normal (Arr [Num 1; Num 25]); Normal (Num (-0));
      Normal (Arr [Arr [Arr []]]); Normal (Num infinity);
      Normal (Obj Object_prototype
                [("1", Obj Object_prototype []); ("2", Boolean true);
                 ("a", Str (String "x" (String "A" (String (char 10) ""))))]);
      Throw SyntaxError; Throw SyntaxError; Throw SyntaxError;
      Throw SyntaxError; Throw SyntaxError; Throw SyntaxError;
      Throw SyntaxError; Throw SyntaxError; Throw SyntaxError;
      Throw SyntaxError ].
Proof. vm_compute. reflexivity. Qed.

Example JSON_stringify_sample :
  JSON.stringify
    (Arr [Obj Object_prototype
            [("a", Num 0.5); ("b", Undefined); ("c", Str (String (char 9) "x"));
             ("d", Num nan)];
          Undefined; Boolean false; DateObject (mkDate 0 0 1)]) =
  Some (double_quoted
          "[{'a':0.5,'c':'\tx','d':null},null,false,'1970-01-01T00:00:00.000Z']").
Proof. vm_compute. reflexivity. Qed.

(** What two submissions leave in storage. *)
Example saved_text :
  localStorage two_in_one_millisecond !! "workouts" =
  Some (double_quoted
    ("[{'date':'2023-11-14T22:13:20.000Z','id':'0000000123'," ++
     "'coords':[45.5,15.9],'distance':5.2,'duration':24,'type':'running'," ++
     "'cadence':178,'pace':4.615384615384615," ++
     "'description':'Running on November 14'}," ++
     "{'date':'2023-11-14T22:13:20.000Z','id':'0000000123'," ++
     "'coords':[45.6,15.8],'distance':20,'duration':60,'type':'cycling'," ++
     "'elevation':-5,'speed':0.005555555555555555," ++
     "'description':'Cycling on November 14'}]")).
Proof. vm_compute. reflexivity. Qed.

(** ** Numbers *)

Lemma finite_not_nan x : Number.isFinite x = true -> Prim2SF x <> S754_nan.
Proof.
  unfold Number.isFinite, is_finite, is_nan. rewrite FloatAxioms.eqb_spec.
  intros H E. rewrite E in H. discriminate.
Qed.

(** On a finite number, "not above zero" and "at most zero" agree; on NaN they
    do not, which is why the finiteness test comes first. *)
Lemma not_gt_zero_iff_le_zero x :
  Number.isFinite x = true ->
  Number.gt x 0 = false <-> Number.le x 0 = true.
Proof.
  intros H. apply finite_not_nan in H. unfold Number.gt, Number.le.
  rewrite FloatAxioms.ltb_spec, FloatAxioms.leb_spec.
  change (Prim2SF 0) with (S754_zero false).
  destruct (Prim2SF x) as [s | s | | s m e]; try congruence;
    destruct s; cbv; split; congruence.
Qed.

Lemma negb_gt_le x :
  Number.isFinite x = true -> negb (Number.gt x 0) = Number.le x 0.
Proof.
  intros H. pose proof (not_gt_zero_iff_le_zero x H) as [H1 H2].
  destruct (Number.gt x 0), (Number.le x 0); simpl; auto.
  - symmetry. apply H2. reflexivity.
  - discriminate H1. reflexivity.
Qed.

(** The two tests of [_newWorkout] together are the specification's
    condition. *)
Lemma running_test_spec d t c :
  negb (validInputs [d; t; c]) || negb (allPositive [d; t; c]) =
  negb (Number.isFinite d) || negb (Number.isFinite t) || negb (Number.isFinite c) ||
  Number.le d 0 || Number.le t 0 || Number.le c 0.
Proof.
  unfold validInputs, allPositive. simpl.
  destruct (Number.isFinite d) eqn:Hd; simpl; [|reflexivity].
  destruct (Number.isFinite t) eqn:Ht; simpl; [|reflexivity].
  destruct (Number.isFinite c) eqn:Hc; simpl; [|reflexivity].
  rewrite <- (negb_gt_le d Hd), <- (negb_gt_le t Ht), <- (negb_gt_le c Hc).
  destruct (Number.gt d 0), (Number.gt t 0), (Number.gt c 0); reflexivity.
Qed.

Lemma cycling_test_spec d t e :
  negb (validInputs [d; t; e]) || negb (allPositive [d; t]) =
  negb (Number.isFinite d) || negb (Number.isFinite t) || negb (Number.isFinite e) ||
  Number.le d 0 || Number.le t 0.
Proof.
  unfold validInputs, allPositive. simpl.
  destruct (Number.isFinite d) eqn:Hd; simpl; [|reflexivity].
  destruct (Number.isFinite t) eqn:Ht; simpl; [|reflexivity].
  destruct (Number.isFinite e) eqn:He; simpl; [|reflexivity].
  rewrite <- (negb_gt_le d Hd), <- (negb_gt_le t Ht).
  destruct (Number.gt d 0), (Number.gt t 0); reflexivity.
Qed.

(** ** What a method leaves unchanged *)


Lemma preserves_ret {A B} (f : State -> A) (b : B) : preserves f (ret b).
Proof. intros st. reflexivity. Qed.

Lemma preserves_lift {A B} (f : State -> A) (c : Completion B) :
  preserves f (lift c).
Proof. intros st. reflexivity. Qed.

Lemma preserves_gets {A B} (f : State -> A) (g : State -> B) :
  preserves f (gets g).
Proof. intros st. reflexivity. Qed.

Lemma preserves_modify {A} (f : State -> A) (g : State -> State) :
  (forall st, f (g st) = f st) -> preserves f (modify g).
Proof. intros H st. apply H. Qed.

Lemma preserves_bind {A B C} (f : State -> A) (m : M B) (k : B -> M C) :
  preserves f m -> (forall b, preserves f (k b)) -> preserves f (bind m k).
Proof.
  intros Hm Hk st. unfold bind. specialize (Hm st).
  destruct (m st) as [[b | e] st']; simpl in *.
  - rewrite Hk. exact Hm.
  - exact Hm.
Qed.

Lemma preserves_the_map {A} (f : State -> A) : preserves f the_map.
Proof. intros st. unfold the_map. destruct (App_map st); reflexivity. Qed.

Lemma preserves_forEach {A} (f : State -> A) (g : jsval -> M unit) array :
  (forall w, preserves f (g w)) -> preserves f (forEach g array).
Proof.
  intros Hg. destruct array; try apply preserves_lift.
  induction elements as [| e rest IH]; simpl.
  - apply preserves_ret.
  - apply preserves_bind; [apply Hg | intros _; exact IH].
Qed.

Create HintDb preserve discriminated.
#[local] Hint Resolve preserves_ret preserves_lift preserves_gets
  preserves_the_map : preserve.

Ltac preserve :=
  repeat first
    [ apply preserves_bind; [| intros ?]
    | apply preserves_modify; intros ?; reflexivity
    | solve [auto with preserve]
    | match goal with |- preserves _ (match ?x with _ => _ end) => destruct x end
    | match goal with |- preserves _ (if ?b then _ else _) => destruct b end ].

Lemma _renderWorkoutMarker_workouts w : preserves App_workouts (_renderWorkoutMarker w).
Proof. unfold _renderWorkoutMarker. preserve. Qed.

Lemma _renderWorkoutMarker_alerts w : preserves alerts (_renderWorkoutMarker w).
Proof. unfold _renderWorkoutMarker. preserve. Qed.

Lemma _renderWorkout_workouts w : preserves App_workouts (_renderWorkout w).
Proof. unfold _renderWorkout. preserve. Qed.

Lemma _renderWorkout_alerts w : preserves alerts (_renderWorkout w).
Proof. unfold _renderWorkout. preserve. Qed.

Lemma _renderWorkout_storage w : preserves localStorage (_renderWorkout w).
Proof. unfold _renderWorkout. preserve. Qed.

Lemma _hideForm_workouts : preserves App_workouts _hideForm.
Proof. unfold _hideForm. preserve. Qed.

Lemma _hideForm_alerts : preserves alerts _hideForm.
Proof. unfold _hideForm. preserve. Qed.

Lemma _setLocalStorage_workouts : preserves App_workouts _setLocalStorage.
Proof. unfold _setLocalStorage, setItem. preserve. Qed.

Lemma _setLocalStorage_alerts : preserves alerts _setLocalStorage.
Proof. unfold _setLocalStorage, setItem. preserve. Qed.

Lemma push_alerts w : preserves alerts (push w).
Proof. intros st. unfold push. destruct (App_workouts st); reflexivity. Qed.


Lemma append_and_render_alerts w : preserves alerts (append_and_render w).
Proof.
  unfold append_and_render.
  apply preserves_bind; [apply push_alerts | intros _].
  apply preserves_bind; [apply _renderWorkoutMarker_alerts | intros _].
  apply preserves_bind; [apply _renderWorkout_alerts | intros _].
  apply preserves_bind; [apply _hideForm_alerts | intros _].
  apply _setLocalStorage_alerts.
Qed.

Lemma append_and_render_workouts w ws st :
  App_workouts st = Arr ws ->
  App_workouts (snd (append_and_render w st)) = Arr (ws ++ [w]).
Proof.
  intros H. unfold append_and_render, bind at 1.
  unfold push at 1. rewrite H.
  match goal with |- App_workouts (snd (?m ?s)) = _ =>
    assert (Hp : preserves App_workouts m) end.
  { apply preserves_bind; [apply _renderWorkoutMarker_workouts | intros _].
    apply preserves_bind; [apply _renderWorkout_workouts | intros _].
    apply preserves_bind; [apply _hideForm_workouts | intros _].
    apply _setLocalStorage_workouts. }
  rewrite Hp. reflexivity.
Qed.

(** [_newWorkout] once the click position is there: the two validations, then
    the appending. *)
Lemma _newWorkout_eq clock st latlng :
  App_mapEvent st = Some latlng ->
  let f := form st in
  let d := inputDistance f in
  let t := inputDuration f in
  _newWorkout clock st =
  if String.eqb (inputType f) "running" &&
     (negb (validInputs [d; t; inputCadence f]) ||
      negb (allPositive [d; t; inputCadence f]))
  then alert validation_message st
  else if String.eqb (inputType f) "cycling" &&
          (negb (validInputs [d; t; inputElevation f]) ||
           negb (allPositive [d; t]))
  then alert validation_message st
  else append_and_render
         (if String.eqb (inputType f) "cycling"
          then Cycling_object (Cycling_new clock latlng d t (inputElevation f))
          else if String.eqb (inputType f) "running"
          then Running_object (Running_new clock latlng d t (inputCadence f))
          else Undefined) st.
Proof.
  intros H. unfold _newWorkout, bind, gets. simpl. rewrite H.
  destruct (String.eqb (inputType (form st)) "running" && _); [reflexivity|].
  destruct (String.eqb (inputType (form st)) "cycling" && _); reflexivity.
Qed.

Lemma _newWorkout_no_click clock st :
  App_mapEvent st = None -> _newWorkout clock st = (Throw TypeError, st).
Proof. intros H. unfold _newWorkout, bind, gets. simpl. rewrite H. reflexivity. Qed.

(** The script's validation is the specification's, for the two kinds. *)
Lemma validation_spec (f : Form) :
  inputType f = "running" \/ inputType f = "cycling" ->
  (String.eqb (inputType f) "running" &&
     (negb (validInputs [inputDistance f; inputDuration f; inputCadence f]) ||
      negb (allPositive [inputDistance f; inputDuration f; inputCadence f]))) ||
  (String.eqb (inputType f) "cycling" &&
     (negb (validInputs [inputDistance f; inputDuration f; inputElevation f]) ||
      negb (allPositive [inputDistance f; inputDuration f]))) =
  spec_rejects f.
Proof.
  unfold spec_rejects, metric. rewrite running_test_spec, cycling_test_spec.
  intros [H | H]; rewrite H;
    change (String.eqb "running" "running") with true;
    change (String.eqb "running" "cycling") with false;
    change (String.eqb "cycling" "running") with false;
    change (String.eqb "cycling" "cycling") with true;
    cbv beta iota; rewrite ?andb_true_l, ?andb_false_l, ?orb_false_r, ?orb_false_l;
    reflexivity.
Qed.

Lemma _newWorkout_rejects clock st latlng :
  App_mapEvent st = Some latlng ->
  inputType (form st) = "running" \/ inputType (form st) = "cycling" ->
  spec_rejects (form st) = true ->
  _newWorkout clock st = alert validation_message st.
Proof.
  intros Hc Hk Hr. rewrite (_newWorkout_eq clock st latlng Hc). cbv zeta.
  rewrite <- (validation_spec _ Hk) in Hr.
  destruct (String.eqb (inputType (form st)) "running" && _); [reflexivity|].
  rewrite orb_false_l in Hr. rewrite Hr. reflexivity.
Qed.

Lemma _newWorkout_accepts clock st latlng :
  App_mapEvent st = Some latlng ->
  inputType (form st) = "running" \/ inputType (form st) = "cycling" ->
  spec_rejects (form st) = false ->
  _newWorkout clock st =
  append_and_render
    (if String.eqb (inputType (form st)) "cycling"
     then Cycling_object (Cycling_new clock latlng (inputDistance (form st))
                            (inputDuration (form st)) (inputElevation (form st)))
     else Running_object (Running_new clock latlng (inputDistance (form st))
                            (inputDuration (form st)) (inputCadence (form st)))) st.
Proof.
  intros Hc Hk Hr. rewrite (_newWorkout_eq clock st latlng Hc). cbv zeta.
  rewrite <- (validation_spec _ Hk) in Hr.
  apply orb_false_iff in Hr as [Hr1 Hr2]. rewrite Hr1, Hr2.
  destruct Hk as [Hk | Hk]; rewrite Hk; reflexivity.
Qed.

(** ** The derived metrics *)

Lemma finite_positive_accepted (f : Form) :
  Number.isFinite (inputDistance f) = true -> Number.gt (inputDistance f) 0 = true ->
  Number.isFinite (inputDuration f) = true -> Number.gt (inputDuration f) 0 = true ->
  Number.isFinite (metric f) = true ->
  (inputType f = "running" -> Number.gt (inputCadence f) 0 = true) ->
  spec_rejects f = false.
Proof.
  intros Hd Hd0 Ht Ht0 Hm Hc. unfold spec_rejects.
  rewrite Hd, Ht, Hm. simpl.
  rewrite <- (negb_gt_le _ Hd), <- (negb_gt_le _ Ht), Hd0, Ht0. simpl.
  destruct (String.eqb_spec (inputType f) "running") as [E | E]; [|reflexivity].
  unfold metric in Hm. rewrite E in Hm. simpl in Hm.
  rewrite <- (negb_gt_le _ Hm), (Hc E). reflexivity.
Qed.

(** C1. A cycling workout submitted with a positive finite distance and
    duration (and a finite elevation gain, without which nothing is
    constructed) is appended as the entry that [new Cycling] makes of the
    form, and its speed is distance / duration / 60, the division by the
    duration and by 60 one after the other, as the source writes it. *)
Theorem C1_cycling_speed (clock : Clock) (st : State) (latlng : float * float)
    (ws : list jsval) :
  inputType (form st) = "cycling" ->
  App_mapEvent st = Some latlng ->
  App_workouts st = Arr ws ->
  Number.isFinite (inputDistance (form st)) = true ->
  Number.gt (inputDistance (form st)) 0 = true ->
  Number.isFinite (inputDuration (form st)) = true ->
  Number.gt (inputDuration (form st)) 0 = true ->
  Number.isFinite (inputElevation (form st)) = true ->
  exists c : Cycling,
    App_workouts (snd (_newWorkout clock st)) = Arr (ws ++ [Cycling_object c]) /\
    distance (Cycling_super c) = inputDistance (form st) /\
    duration (Cycling_super c) = inputDuration (form st) /\
    speed c = (inputDistance (form st) / inputDuration (form st) / 60)%float /\
    Get (Cycling_object c) "speed" =
      Normal (Num (inputDistance (form st) / inputDuration (form st) / 60)%float).
Proof.
  intros Hk Hc Hw Hd Hd0 Ht Ht0 He.
  exists (Cycling_new clock latlng (inputDistance (form st))
            (inputDuration (form st)) (inputElevation (form st))).
  rewrite (_newWorkout_accepts clock st latlng Hc (or_intror Hk)).
  - rewrite Hk. change (String.eqb "cycling" "cycling") with true. cbv iota.
    rewrite (append_and_render_workouts _ ws st Hw).
    repeat split; reflexivity.
  - apply finite_positive_accepted; auto.
    + unfold metric. rewrite Hk. exact He.
    + rewrite Hk. discriminate.
Qed.

Lemma C1_cycling_speed_witness :
  exists c : Cycling,
    App_workouts (snd (_newWorkout demo_clock (demo_state "cycling" 20 60 0 0))) =
      Arr ([] ++ [Cycling_object c]) /\
    distance (Cycling_super c) = 20%float /\
    duration (Cycling_super c) = 60%float /\
    speed c = (20 / 60 / 60)%float /\
    Get (Cycling_object c) "speed" = Normal (Num (20 / 60 / 60)%float).
Proof.
  apply (C1_cycling_speed demo_clock (demo_state "cycling" 20 60 0 0)
           (45.5, 15.9)%float []); reflexivity.
Defined.

(** The specification's scenario: 20 km in 60 min gives about 0.00556. *)
Example cycling_20_60 (clock : Clock) (latlng : float * float) (e : float) :
  speed (Cycling_new clock latlng 20 60 e) = 0.005555555555555555%float /\
  PrimFloat.ltb 0.00555 (speed (Cycling_new clock latlng 20 60 e)) = true /\
  PrimFloat.ltb (speed (Cycling_new clock latlng 20 60 e)) 0.00556 = true.
Proof. repeat split. Qed.

(** C2. A running workout submitted with a positive finite distance and
    duration (and a positive finite cadence, without which nothing is
    constructed) is appended as the entry that [new Running] makes of the
    form, and its pace is duration / distance. *)
Theorem C2_running_pace (clock : Clock) (st : State) (latlng : float * float)
    (ws : list jsval) :
  inputType (form st) = "running" ->
  App_mapEvent st = Some latlng ->
  App_workouts st = Arr ws ->
  Number.isFinite (inputDistance (form st)) = true ->
  Number.gt (inputDistance (form st)) 0 = true ->
  Number.isFinite (inputDuration (form st)) = true ->
  Number.gt (inputDuration (form st)) 0 = true ->
  Number.isFinite (inputCadence (form st)) = true ->
  Number.gt (inputCadence (form st)) 0 = true ->
  exists r : Running,
    App_workouts (snd (_newWorkout clock st)) = Arr (ws ++ [Running_object r]) /\
    distance (Running_super r) = inputDistance (form st) /\
    duration (Running_super r) = inputDuration (form st) /\
    pace r = (inputDuration (form st) / inputDistance (form st))%float /\
    Get (Running_object r) "pace" =
      Normal (Num (inputDuration (form st) / inputDistance (form st))%float).
Proof.
  intros Hk Hc Hw Hd Hd0 Ht Ht0 He He0.
  exists (Running_new clock latlng (inputDistance (form st))
            (inputDuration (form st)) (inputCadence (form st))).
  rewrite (_newWorkout_accepts clock st latlng Hc (or_introl Hk)).
  - rewrite Hk. change (String.eqb "running" "cycling") with false. cbv iota.
    rewrite (append_and_render_workouts _ ws st Hw).
    repeat split; reflexivity.
  - apply finite_positive_accepted; auto.
    unfold metric. rewrite Hk. exact He.
Qed.

Lemma C2_running_pace_witness :
  exists r : Running,
    App_workouts (snd (_newWorkout demo_clock (demo_state "running" 5.2 24 178 0))) =
      Arr ([] ++ [Running_object r]) /\
    distance (Running_super r) = 5.2%float /\
    duration (Running_super r) = 24%float /\
    pace r = (24 / 5.2)%float /\
    Get (Running_object r) "pace" = Normal (Num (24 / 5.2)%float).
Proof.
  apply (C2_running_pace demo_clock (demo_state "running" 5.2 24 178 0)
           (45.5, 15.9)%float []); reflexivity.
Defined.

(** The specification's scenario: 5.2 km in 24 min gives about 4.6154. *)
Example running_5_2_24 (clock : Clock) (latlng : float * float) (c : float) :
  pace (Running_new clock latlng 5.2 24 c) = 4.615384615384615%float /\
  PrimFloat.ltb 4.6153 (pace (Running_new clock latlng 5.2 24 c)) = true /\
  PrimFloat.ltb (pace (Running_new clock latlng 5.2 24 c)) 4.6155 = true.
Proof. repeat split. Qed.

(** ** Validation *)

Lemma alert_not_append_and_render w st :
  append_and_render w st <> alert validation_message st.
Proof.
  intros E. apply (f_equal (fun r => length (alerts (snd r)))) in E.
  rewrite (append_and_render_alerts w st) in E.
  unfold alert, modify in E. simpl in E. rewrite length_app in E. simpl in E.
  lia.
Qed.

(** C3. With the map clicked and one of the two kinds selected, a submission
    ends in the validation error exactly when a supplied number (distance,
    duration, the metric of the kind) is not finite, or the distance or the
    duration is at most zero, or, for running, the cadence is at most zero.
    The elevation gain of a cycling workout is only tested for finiteness: a
    cycling form with a positive finite distance and duration and an
    elevation gain of zero or less is accepted and its entry appended. *)
Theorem C3_validation (clock : Clock) (st : State) (latlng : float * float) :
  App_mapEvent st = Some latlng ->
  inputType (form st) = "running" \/ inputType (form st) = "cycling" ->
  (ValidationError clock st <-> spec_rejects (form st) = true) /\
  (inputType (form st) = "cycling" ->
   Number.isFinite (inputDistance (form st)) = true ->
   Number.gt (inputDistance (form st)) 0 = true ->
   Number.isFinite (inputDuration (form st)) = true ->
   Number.gt (inputDuration (form st)) 0 = true ->
   Number.isFinite (inputElevation (form st)) = true ->
   Number.le (inputElevation (form st)) 0 = true ->
   ~ ValidationError clock st /\
   forall ws, App_workouts st = Arr ws ->
     App_workouts (snd (_newWorkout clock st)) =
     Arr (ws ++ [Cycling_object
                   (Cycling_new clock latlng (inputDistance (form st))
                      (inputDuration (form st)) (inputElevation (form st)))])).
Proof.
  intros Hc Hk.
  assert (Hiff : ValidationError clock st <-> spec_rejects (form st) = true).
  { unfold ValidationError. split.
    - intros E. destruct (spec_rejects (form st)) eqn:Hr; [reflexivity|].
      rewrite (_newWorkout_accepts clock st latlng Hc Hk Hr) in E.
      exfalso. exact (alert_not_append_and_render _ _ E).
    - intros Hr. rewrite (_newWorkout_rejects clock st latlng Hc Hk Hr).
      reflexivity. }
  split; [exact Hiff|].
  intros Hcy Hd Hd0 Ht Ht0 He _.
  assert (Hr : spec_rejects (form st) = false).
  { apply finite_positive_accepted; auto.
    - unfold metric. rewrite Hcy. exact He.
    - rewrite Hcy. discriminate. }
  split.
  - rewrite Hiff, Hr. discriminate.
  - intros ws Hw. rewrite (_newWorkout_accepts clock st latlng Hc Hk Hr).
    rewrite Hcy. change (String.eqb "cycling" "cycling") with true. cbv iota.
    apply append_and_render_workouts. exact Hw.
Qed.

Lemma C3_validation_witness :
  (ValidationError demo_clock (demo_state "cycling" 20 60 0 (-5)) <->
   spec_rejects (form (demo_state "cycling" 20 60 0 (-5))) = true) /\
  ~ ValidationError demo_clock (demo_state "cycling" 20 60 0 (-5)) /\
  App_workouts (snd (_newWorkout demo_clock (demo_state "cycling" 20 60 0 (-5)))) =
  Arr ([] ++ [Cycling_object (Cycling_new demo_clock (45.5, 15.9)%float 20 60 (-5))]).
Proof.
  destruct (C3_validation demo_clock (demo_state "cycling" 20 60 0 (-5))
              (45.5, 15.9)%float eq_refl (or_intror eq_refl)) as [Hiff Hacc].
  destruct (Hacc eq_refl eq_refl eq_refl eq_refl eq_refl eq_refl eq_refl)
    as [Hno Happ].
  split; [exact Hiff|]. split; [exact Hno|]. apply Happ. reflexivity.
Defined.

(** The specification's three rejections: a distance of 0, a duration of -1
    and a cadence that is NaN, the first two for both kinds. *)
Example rejected_inputs :
  spec_rejects (mkForm false "running" 0 24 178 0) = true /\
  spec_rejects (mkForm false "cycling" 0 24 0 100) = true /\
  spec_rejects (mkForm false "running" 5 (-1) 178 0) = true /\
  spec_rejects (mkForm false "cycling" 5 (-1) 0 100) = true /\
  spec_rejects (mkForm false "running" 5 24 nan 0) = true /\
  ValidationError demo_clock (demo_state "running" 0 24 178 0) /\
  ValidationError demo_clock (demo_state "cycling" 5 (-1) 0 100) /\
  ValidationError demo_clock (demo_state "running" 5 24 nan 0).
Proof. repeat split. Qed.

(** C9. A submission that fails validation leaves the array of workouts and
    the persisted storage exactly as they were, and with them the rendered
    list and the map: nothing is appended and nothing is saved. *)
Theorem C9_validation_failure_atomic (clock : Clock) (st : State) :
  inputType (form st) = "running" \/ inputType (form st) = "cycling" ->
  spec_rejects (form st) = true ->
  App_workouts (snd (_newWorkout clock st)) = App_workouts st /\
  localStorage (snd (_newWorkout clock st)) = localStorage st /\
  containerWorkouts (snd (_newWorkout clock st)) = containerWorkouts st /\
  App_map (snd (_newWorkout clock st)) = App_map st /\
  form (snd (_newWorkout clock st)) = form st.
Proof.
  intros Hk Hr. destruct (App_mapEvent st) as [latlng |] eqn:Hc.
  - rewrite (_newWorkout_rejects clock st latlng Hc Hk Hr). repeat split.
  - rewrite (_newWorkout_no_click clock st Hc). repeat split.
Qed.

Lemma C9_validation_failure_atomic_witness :
  App_workouts (snd (_newWorkout demo_clock (demo_state "running" 0 24 178 0))) =
    App_workouts (demo_state "running" 0 24 178 0) /\
  localStorage (snd (_newWorkout demo_clock (demo_state "running" 0 24 178 0))) =
    localStorage (demo_state "running" 0 24 178 0) /\
  containerWorkouts (snd (_newWorkout demo_clock (demo_state "running" 0 24 178 0))) =
    containerWorkouts (demo_state "running" 0 24 178 0) /\
  App_map (snd (_newWorkout demo_clock (demo_state "running" 0 24 178 0))) =
    App_map (demo_state "running" 0 24 178 0) /\
  form (snd (_newWorkout demo_clock (demo_state "running" 0 24 178 0))) =
    form (demo_state "running" 0 24 178 0).
Proof.
  apply (C9_validation_failure_atomic demo_clock (demo_state "running" 0 24 178 0)).
  - left. reflexivity.
  - reflexivity.
Defined.

(** ** Strings *)

Lemma string_app_cons (x : ascii) (a b : string) :
  (String x a ++ b = String x (a ++ b))%string.
Proof. reflexivity. Qed.

Lemma string_app_nil_l (b : string) : ("" ++ b = b)%string.
Proof. reflexivity. Qed.

Lemma string_app_assoc (a b c : string) : ((a ++ b) ++ c = a ++ (b ++ c))%string.
Proof.
  induction a as [| x a IH]; [reflexivity|].
  rewrite !string_app_cons. f_equal. exact IH.
Qed.

Lemma string_app_nil_r (a : string) : (a ++ "" = a)%string.
Proof.
  induction a as [| x a IH]; [reflexivity|].
  rewrite string_app_cons. f_equal. exact IH.
Qed.

Lemma string_length_app (a b : string) :
  String.length (a ++ b) = (String.length a + String.length b)%nat.
Proof.
  induction a as [| x a IH]; [reflexivity|].
  rewrite string_app_cons. simpl. now rewrite IH.
Qed.

Lemma substring_all (b : string) : substring 0 (String.length b) b = b.
Proof. induction b as [| x b IH]; cbn; [reflexivity | f_equal; exact IH]. Qed.

Lemma substring_app_r (a b : string) :
  substring (String.length a) (String.length b) (a ++ b) = b.
Proof.
  induction a as [| x a IH]; [apply substring_all|].
  rewrite string_app_cons. simpl. exact IH.
Qed.

Lemma slice_last_app (a b : string) :
  slice_last (String.length b) (a ++ b) = b.
Proof.
  unfold slice_last. rewrite string_length_app.
  replace (String.length a + String.length b - String.length b)%nat
    with (String.length a) by lia.
  apply substring_app_r.
Qed.

(** ** Decimal numerals *)

Lemma digits_acc_fuel (fuel1 : nat) : forall (fuel2 : nat) (n : Z) (acc : string),
  0 <= n -> n < 2 ^ Z.of_nat fuel1 -> n < 2 ^ Z.of_nat fuel2 ->
  (1 <= fuel1)%nat -> (1 <= fuel2)%nat ->
  digits_acc fuel1 n acc = digits_acc fuel2 n acc.
Proof.
  induction fuel1 as [| f1 IH]; intros fuel2 n acc Hn H1 H2 Hf1 Hf2; [lia|].
  destruct fuel2 as [| f2]; [lia|]. simpl.
  destruct (Z.ltb_spec n 10) as [Hlt | Hge]; [reflexivity|].
  assert (Hdiv : 0 <= n / 10) by (apply Z.div_pos; lia).
  assert (Hhalf : n / 10 <= n / 2) by (apply Z.div_le_compat_l; lia).
  assert (Hp : forall f : nat, n < 2 ^ Z.of_nat (S f) ->
                 n / 10 < 2 ^ Z.of_nat f /\ (1 <= f)%nat).
  { intros f Hf. rewrite Nat2Z.inj_succ, Z.pow_succ_r in Hf by lia. split.
    - apply Z.le_lt_trans with (n / 2); [exact Hhalf|].
      apply Z.div_lt_upper_bound; lia.
    - destruct f; [|lia]. simpl in Hf. lia. }
  destruct (Hp f1 H1), (Hp f2 H2). apply IH; auto.
Qed.

Lemma digits_acc_app (fuel : nat) : forall (n : Z) (acc : string),
  digits_acc fuel n acc = (digits_acc fuel n "" ++ acc)%string.
Proof.
  induction fuel as [| f IH]; intros n acc; simpl; [reflexivity|].
  destruct (n <? 10); [reflexivity|].
  rewrite (IH (n / 10) (String (digit (n mod 10)) acc)).
  rewrite (IH (n / 10) (String (digit (n mod 10)) "")).
  rewrite string_app_assoc. reflexivity.
Qed.

Lemma log2_fuel (n : Z) : 0 <= n -> n < 2 ^ Z.of_nat (S (Z.to_nat (Z.log2 n))).
Proof.
  intros Hn. rewrite Nat2Z.inj_succ, Z2Nat.id by apply Z.log2_nonneg.
  destruct (Z.eq_dec n 0) as [-> | Hz]; [reflexivity|].
  apply Z.log2_spec. lia.
Qed.

Lemma decimal_small (n : Z) :
  0 <= n < 10 -> decimal n = String (digit n) "".
Proof.
  intros Hn. unfold decimal. simpl.
  destruct (Z.ltb_spec n 10); [|lia]. rewrite Z.mod_small by lia. reflexivity.
Qed.

Lemma decimal_step (n : Z) :
  10 <= n -> decimal n = (decimal (n / 10) ++ String (digit (n mod 10)) "")%string.
Proof.
  intros Hn. unfold decimal at 1. simpl.
  destruct (Z.ltb_spec n 10); [lia|].
  rewrite digits_acc_app. f_equal.
  assert (Hdiv : 0 <= n / 10) by (apply Z.div_pos; lia).
  assert (H2 : 1 <= Z.log2 n) by (apply Z.log2_le_pow2; simpl; lia).
  unfold decimal. apply digits_acc_fuel; try lia.
  - rewrite Z2Nat.id by lia.
    apply Z.le_lt_trans with (n / 2); [apply Z.div_le_compat_l; lia|].
    apply Z.div_lt_upper_bound; [lia|].
    rewrite <- Z.pow_succ_r by lia. apply Z.log2_spec. lia.
  - apply log2_fuel. exact Hdiv.
Qed.

Lemma length_last_digits (k : nat) : forall n, String.length (last_digits k n) = k.
Proof.
  induction k as [| k IH]; intros n; simpl; [reflexivity|].
  rewrite string_length_app, IH. simpl. lia.
Qed.

(** A numeral of at least [k] digits ends in the [k] lowest digits. *)
Lemma decimal_last_digits (k : nat) : forall n,
  10 ^ Z.of_nat k <= n * 10 ->
  0 <= n ->
  exists p, decimal n = (p ++ last_digits k n)%string.
Proof.
  induction k as [| k IH]; intros n Hk Hn.
  - exists (decimal n). simpl. symmetry. apply string_app_nil_r.
  - rewrite Nat2Z.inj_succ, Z.pow_succ_r in Hk by lia.
    destruct (Z.ltb_spec n 10) as [Hlt | Hge].
    + destruct k as [| k'].
      * exists ""%string. rewrite decimal_small by lia. simpl.
        rewrite Z.mod_small by lia. reflexivity.
      * exfalso. rewrite Nat2Z.inj_succ, Z.pow_succ_r in Hk by lia.
        assert (0 < 10 ^ Z.of_nat k') by (apply Z.pow_pos_nonneg; lia).
        lia.
    + destruct (IH (n / 10)) as [p Hp].
      * pose proof (Z.mul_div_le n 10). pose proof (Z.mod_pos_bound n 10).
        pose proof (Z.div_mod n 10).
        assert (10 ^ Z.of_nat k <= n) by lia.
        destruct k as [| k'].
        -- simpl. lia.
        -- rewrite Nat2Z.inj_succ, Z.pow_succ_r in * by lia.
           assert (10 ^ Z.of_nat k' <= n / 10); [|lia].
           apply Z.div_le_lower_bound; lia.
      * apply Z.div_pos; lia.
      * exists p. rewrite decimal_step by lia. rewrite Hp. simpl.
        apply string_app_assoc.
Qed.

Lemma slice_last_decimal (k : nat) (n : Z) :
  10 ^ Z.of_nat k <= n * 10 -> 0 <= n ->
  slice_last k (decimal n) = last_digits k n.
Proof.
  intros Hk Hn. destruct (decimal_last_digits k n Hk Hn) as [p ->].
  rewrite <- (length_last_digits k n) at 1. apply slice_last_app.
Qed.

(** The [id] of a workout made at a time of ten digits or more, that is, any
    time from 12 January 1970 on. *)
Lemma id_last_digits clock coords distance duration :
  10 ^ 9 <= Date_now clock ->
  id (Workout_new clock coords distance duration) = last_digits 10 (Date_now clock).
Proof.
  intros H. unfold Workout_new. simpl id. unfold Z_to_string.
  destruct (Z.ltb_spec (Date_now clock) 0); [lia|].
  apply slice_last_decimal; [|lia]. change (10 ^ Z.of_nat 10) with (10 ^ 9 * 10). lia.
Qed.

(** ** Looking an entry up *)

Lemma Get_id (e : Entry) : Get (Entry_object e) "id" = Normal (Str (Entry_id e)).
Proof. destruct e; reflexivity. Qed.

Lemma find_id_none (i : string) (es : list Entry) :
  (forall e, In e es -> Entry_id e <> i) ->
  find_id i (map Entry_object es) = Normal Undefined.
Proof.
  induction es as [| e es IH]; intros H; simpl; [reflexivity|].
  rewrite Get_id. simpl.
  destruct (String.eqb_spec (Entry_id e) i) as [E | _].
  - exfalso. apply (H e); [now left | exact E].
  - apply IH. intros e' He'. apply H. now right.
Qed.

Lemma find_id_first (before after : list Entry) (e : Entry) :
  (forall e', In e' before -> Entry_id e' <> Entry_id e) ->
  find_id (Entry_id e) (map Entry_object (before ++ e :: after)) =
  Normal (Entry_object e).
Proof.
  induction before as [| b before IH]; intros H; simpl.
  - rewrite Get_id. simpl. rewrite String.eqb_refl. reflexivity.
  - rewrite Get_id. simpl.
    destruct (String.eqb_spec (Entry_id b) (Entry_id e)) as [E | _].
    + exfalso. apply (H b); [now left | exact E].
    + apply IH. intros e' He'. apply H. now right.
Qed.

(** C6, as amended. In a store of appended entries, looking up the id of an
    entry returns the earliest-appended entry that holds this id: the entry
    itself whenever no entry appended before it has the same id, so always
    when the ids are pairwise distinct. Looking up an id that no entry holds
    returns [undefined]. *)
Theorem C6_findById (before after : list Entry) (e : Entry) (unknown : string) :
  (forall e', In e' before -> Entry_id e' <> Entry_id e) ->
  (forall e', In e' (before ++ e :: after) -> Entry_id e' <> unknown) ->
  findById (Entry_id e) (store (before ++ e :: after)) = Normal (Entry_object e) /\
  findById unknown (store (before ++ e :: after)) = Normal Undefined.
Proof.
  intros Hfirst Hunknown. unfold findById, store. split.
  - apply find_id_first. exact Hfirst.
  - apply find_id_none. exact Hunknown.
Qed.

Lemma C6_findById_witness :
  findById (Entry_id entry_c) (store ([entry_a; entry_b] ++ entry_c :: [])) =
    Normal (Entry_object entry_c) /\
  findById "0123456789" (store ([entry_a; entry_b] ++ entry_c :: [])) =
    Normal Undefined.
Proof.
  apply (C6_findById [entry_a; entry_b] [] entry_c "0123456789").
  - intros e' [<- | [<- | []]]; vm_compute; discriminate.
  - intros e' [<- | [<- | [<- | []]]]; vm_compute; discriminate.
Defined.

(** The claim as it stands fails on a store in which two entries share an id:
    the second of these three entries was made in the same millisecond as the
    first, and looking its id up returns the first. *)
Lemma C6_counterexample :
  In entry_b [entry_a; entry_b; entry_c] /\
  findById (Entry_id entry_b) (store [entry_a; entry_b; entry_c]) =
    Normal (Entry_object entry_a) /\
  findById (Entry_id entry_b) (store [entry_a; entry_b; entry_c]) <>
    Normal (Entry_object entry_b).
Proof.
  split; [right; left; reflexivity|].
  split; [reflexivity|].
  vm_compute. discriminate.
Qed.

(** Such a store arises from two submissions in one millisecond, and a click
    on the list item of the second entry then moves the map to the first. *)
Example two_in_one_millisecond_store :
  App_workouts two_in_one_millisecond = store [entry_a; entry_b] /\
  (view_center <$> App_map (snd (_moveToPopup (Some (Entry_id entry_b))
                                    two_in_one_millisecond))) =
    Some (Arr [Num 45.5; Num 15.9]).
Proof. split; reflexivity. Qed.

(** C10. The id of an entry is the last ten digits of the millisecond
    timestamp it was made at (a timestamp of ten digits at least, which every
    time since 12 January 1970 has); two entries made in the same millisecond
    have the same id, and looking this id up returns the one appended first. *)
Theorem C10_same_millisecond (clock1 clock2 : Clock) (e1 e2 : Entry)
    (before between after : list Entry) :
  constructed clock1 e1 ->
  constructed clock2 e2 ->
  Date_now clock1 = Date_now clock2 ->
  10 ^ 9 <= Date_now clock1 ->
  (forall e, In e before -> Entry_id e <> Entry_id e1) ->
  Entry_id e1 = last_digits 10 (Date_now clock1) /\
  Entry_id e2 = Entry_id e1 /\
  findById (Entry_id e2) (store (before ++ e1 :: between ++ e2 :: after)) =
    Normal (Entry_object e1).
Proof.
  intros (c1 & d1 & t1 & m1 & H1) (c2 & d2 & t2 & m2 & H2) Hsame Hten Hfirst.
  assert (E1 : Entry_id e1 = last_digits 10 (Date_now clock1)).
  { destruct H1 as [-> | ->]; apply id_last_digits; exact Hten. }
  assert (E2 : Entry_id e2 = Entry_id e1).
  { rewrite E1, Hsame.
    destruct H2 as [-> | ->]; apply id_last_digits; rewrite <- Hsame; exact Hten. }
  split; [exact E1|]. split; [exact E2|].
  rewrite E2. unfold findById, store. apply find_id_first. exact Hfirst.
Qed.

Lemma C10_same_millisecond_witness :
  Entry_id entry_a = last_digits 10 (Date_now demo_clock) /\
  Entry_id entry_b = Entry_id entry_a /\
  findById (Entry_id entry_b) (store ([] ++ entry_a :: [] ++ entry_b :: [entry_c])) =
    Normal (Entry_object entry_a).
Proof.
  apply (C10_same_millisecond demo_clock demo_clock entry_a entry_b [] [] [entry_c]).
  - exists (45.5, 15.9)%float, 5.2%float, 24%float, 178%float. left. reflexivity.
  - exists (45.6, 15.8)%float, 20%float, 60%float, (-5)%float. right. reflexivity.
  - reflexivity.
  - vm_compute. discriminate.
  - intros e [].
Defined.

(** ** The JSON reader: fuel *)

Section StepMonotone.
Import JSON.
Variables (pv pv' : string -> parsed jsval)
          (pe pe' : string -> parsed (list jsval))
          (pm pm' : string -> parsed (list (string * jsval))).
Hypothesis Hv : forall s, extends (pv s) (pv' s).
Hypothesis He : forall s, extends (pe s) (pe' s).
Hypothesis Hm : forall s, extends (pm s) (pm' s).

Lemma value_step_extends s :
  extends (value_step pe pm s) (value_step pe' pm' s).
Proof.
  unfold value_step, extends.
  destruct (skip_whitespace s) as [| c rest]; [now right|].
  destruct (code c =? 34); [now right|].
  destruct (code c =? 91).
  { destruct (skip_whitespace rest) as [| c' r]; [now right|].
    destruct (code c' =? 93); [now right|].
    destruct (He rest) as [E | E]; rewrite E; [now left | now right]. }
  destruct (code c =? 123).
  { destruct (skip_whitespace rest) as [| c' r]; [now right|].
    destruct (code c' =? 125); [now right|].
    destruct (Hm rest) as [E | E]; rewrite E; [now left | now right]. }
  now right.
Qed.

Lemma elements_step_extends s :
  extends (elements_step pv pe s) (elements_step pv' pe' s).
Proof.
  unfold elements_step, extends.
  destruct (Hv s) as [E | E]; rewrite E; [now left|].
  destruct (pv' s) as [v r | |]; [| now right | now right].
  destruct (skip_whitespace r) as [| c r']; [now right|].
  destruct (code c =? 44); [| now right].
  destruct (He r') as [E' | E']; rewrite E'; [now left | now right].
Qed.

Lemma members_step_extends s :
  extends (members_step pv pm s) (members_step pv' pm' s).
Proof.
  unfold members_step, extends.
  destruct (skip_whitespace s) as [| q r0]; [now right|].
  destruct (code q =? 34); [| now right].
  destruct (parse_string r0) as [[k r1] |]; [| now right].
  destruct (skip_whitespace r1) as [| colon r2]; [now right|].
  destruct (code colon =? 58); [| now right].
  destruct (Hv r2) as [E | E]; rewrite E; [now left|].
  destruct (pv' r2) as [v r3 | |]; [| now right | now right].
  destruct (skip_whitespace r3) as [| c r4]; [now right|].
  destruct (code c =? 44); [| now right].
  destruct (Hm r4) as [E' | E']; rewrite E'; [now left | now right].
Qed.
End StepMonotone.

Lemma parse_extends_S (f : nat) :
  (forall s, extends (JSON.parse_value f s) (JSON.parse_value (S f) s)) /\
  (forall s, extends (JSON.parse_elements f s) (JSON.parse_elements (S f) s)) /\
  (forall s, extends (JSON.parse_members f s) (JSON.parse_members (S f) s)).
Proof.
  induction f as [| f (IHv & IHe & IHm)].
  - repeat split; intros s; left; reflexivity.
  - repeat split; intros s.
    + apply value_step_extends; assumption.
    + apply elements_step_extends; assumption.
    + apply members_step_extends; assumption.
Qed.

Lemma extends_trans {A} (a b c : JSON.parsed A) :
  extends a b -> extends b c -> extends a c.
Proof. intros [-> | ->]; [now left | auto]. Qed.

Lemma parse_extends (f f' : nat) :
  (f <= f')%nat ->
  (forall s, extends (JSON.parse_value f s) (JSON.parse_value f' s)) /\
  (forall s, extends (JSON.parse_elements f s) (JSON.parse_elements f' s)) /\
  (forall s, extends (JSON.parse_members f s) (JSON.parse_members f' s)).
Proof.
  induction 1 as [| f' _ (IHv & IHe & IHm)].
  - repeat split; intros s; right; reflexivity.
  - destruct (parse_extends_S f') as (Sv & Se & Sm).
    repeat split; intros s; eapply extends_trans; eauto.
Qed.

(** More fuel does not change what has been read. *)
Lemma parse_value_more_fuel (f f' : nat) s v r :
  (f <= f')%nat ->
  JSON.parse_value f s = JSON.Parsed v r -> JSON.parse_value f' s = JSON.Parsed v r.
Proof.
  intros Hle H. destruct (parse_extends f f' Hle) as (Hv & _).
  destruct (Hv s) as [E | E]; congruence.
Qed.

Lemma parse_elements_more_fuel (f f' : nat) s v r :
  (f <= f')%nat ->
  JSON.parse_elements f s = JSON.Parsed v r ->
  JSON.parse_elements f' s = JSON.Parsed v r.
Proof.
  intros Hle H. destruct (parse_extends f f' Hle) as (_ & He & _).
  destruct (He s) as [E | E]; congruence.
Qed.

Lemma parse_members_more_fuel (f f' : nat) s v r :
  (f <= f')%nat ->
  JSON.parse_members f s = JSON.Parsed v r ->
  JSON.parse_members f' s = JSON.Parsed v r.
Proof.
  intros Hle H. destruct (parse_extends f f' Hle) as (_ & _ & Hm).
  destruct (Hm s) as [E | E]; congruence.
Qed.

(** *** What the readers leave *)

Lemma skip_whitespace_length s :
  (String.length (JSON.skip_whitespace s) <= String.length s)%nat.
Proof.
  induction s as [| c s IH]; simpl; [lia|].
  destruct (JSON.is_whitespace c); simpl; lia.
Qed.

Lemma prepend_length p o str r :
  JSON.prepend p o = Some (str, r) ->
  exists str', o = Some (str', r).
Proof.
  destruct o as [[str' r'] |]; simpl; [|discriminate].
  intros [= _ <-]. eauto.
Qed.

Lemma parse_string_length (n : nat) : forall s str r,
  (String.length s <= n)%nat ->
  JSON.parse_string s = Some (str, r) ->
  (String.length r < String.length s)%nat.
Proof.
  induction n as [| n IH]; intros s str r Hn H.
  - destruct s; [discriminate | simpl in Hn; lia].
  - destruct s as [| c rest]; [discriminate|].
    cbn [JSON.parse_string] in H. simpl in Hn.
    repeat match type of H with
    | Some _ = Some _ => injection H as <- <-; simpl; lia
    | None = Some _ => discriminate H
    | JSON.prepend _ (JSON.parse_string ?X) = Some _ =>
        apply prepend_length in H as [? H]; apply IH in H; simpl in *; lia
    | (if ?b then _ else _) = _ => destruct b
    | match ?x with _ => _ end = _ => destruct x
    end.
Qed.

Lemma span_length p s a b :
  JSON.span p s = (a, b) -> (String.length b <= String.length s)%nat.
Proof.
  revert a b. induction s as [| c s IH]; intros a b H; simpl in H.
  - injection H as <- <-. simpl. lia.
  - destruct (p c).
    + destruct (JSON.span p s) as [a' b'] eqn:E. injection H as <- <-.
      specialize (IH _ _ eq_refl). simpl. lia.
    + injection H as <- <-. simpl. lia.
Qed.

Lemma strip_prefix_length p : forall s r,
  JSON.strip_prefix p s = Some r -> (String.length r <= String.length s)%nat.
Proof.
  induction p as [| a p IH]; intros s r H; simpl in H.
  - injection H as <-. lia.
  - destruct s as [| b s]; [discriminate|].
    destruct (Ascii.eqb a b); [|discriminate].
    apply IH in H. simpl. lia.
Qed.

Section StepConsumes.
Import JSON.
Variables (pv : string -> parsed jsval)
          (pe : string -> parsed (list jsval))
          (pm : string -> parsed (list (string * jsval))).
Hypothesis Hv : consumes pv.
Hypothesis He : consumes pe.
Hypothesis Hm : consumes pm.

Lemma value_step_consumes : consumes (value_step pe pm).
Proof.
  intros s a r. unfold value_step.
  pose proof (skip_whitespace_length s) as Hs.
  destruct (skip_whitespace s) as [| c rest]; [discriminate|]. simpl in Hs.
  destruct (code c =? 34).
  { destruct (parse_string rest) as [[str r'] |] eqn:E; [|discriminate].
    intros [= _ <-]. apply (parse_string_length _ _ _ _ (le_n _)) in E. lia. }
  destruct (code c =? 91).
  { pose proof (skip_whitespace_length rest) as Hr.
    destruct (skip_whitespace rest) as [| c' r']; [discriminate|]. simpl in Hr.
    destruct (code c' =? 93); [intros [= _ <-]; lia|].
    destruct (pe rest) as [vs r'' | |] eqn:E; try discriminate.
    intros [= _ <-]. apply He in E. lia. }
  destruct (code c =? 123).
  { pose proof (skip_whitespace_length rest) as Hr.
    destruct (skip_whitespace rest) as [| c' r']; [discriminate|]. simpl in Hr.
    destruct (code c' =? 125); [intros [= _ <-]; lia|].
    destruct (pm rest) as [vs r'' | |] eqn:E; try discriminate.
    intros [= _ <-]. apply Hm in E. lia. }
  destruct (is_number_char c).
  { destruct (span is_number_char (String c rest)) as [tok r'] eqn:E.
    apply span_length in E. simpl in E.
    destruct (number_of_token tok); [|discriminate]. intros [= _ <-]. lia. }
  destruct (strip_prefix "null" (String c rest)) as [r' |] eqn:E1.
  { intros [= _ <-]. apply strip_prefix_length in E1. simpl in E1. lia. }
  destruct (strip_prefix "true" (String c rest)) as [r' |] eqn:E2.
  { intros [= _ <-]. apply strip_prefix_length in E2. simpl in E2. lia. }
  destruct (strip_prefix "false" (String c rest)) as [r' |] eqn:E3.
  { intros [= _ <-]. apply strip_prefix_length in E3. simpl in E3. lia. }
  discriminate.
Qed.

Lemma elements_step_consumes : consumes (elements_step pv pe).
Proof.
  intros s a r. unfold elements_step.
  destruct (pv s) as [v r1 | |] eqn:E; try discriminate.
  apply Hv in E. pose proof (skip_whitespace_length r1) as Hs.
  destruct (skip_whitespace r1) as [| c r']; [discriminate|]. simpl in Hs.
  destruct (code c =? 44).
  { destruct (pe r') as [vs r'' | |] eqn:E'; try discriminate.
    intros [= _ <-]. apply He in E'. lia. }
  destruct (code c =? 93); [|discriminate]. intros [= _ <-]. lia.
Qed.

Lemma members_step_consumes : consumes (members_step pv pm).
Proof.
  intros s a r. unfold members_step.
  pose proof (skip_whitespace_length s) as Hs.
  destruct (skip_whitespace s) as [| q r0]; [discriminate|]. simpl in Hs.
  destruct (code q =? 34); [|discriminate].
  destruct (parse_string r0) as [[k r1] |] eqn:Ek; [|discriminate].
  apply (parse_string_length _ _ _ _ (le_n _)) in Ek.
  pose proof (skip_whitespace_length r1) as Hs1.
  destruct (skip_whitespace r1) as [| colon r2]; [discriminate|]. simpl in Hs1.
  destruct (code colon =? 58); [|discriminate].
  destruct (pv r2) as [v r3 | |] eqn:E; try discriminate.
  apply Hv in E. pose proof (skip_whitespace_length r3) as Hs3.
  destruct (skip_whitespace r3) as [| c r4]; [discriminate|]. simpl in Hs3.
  destruct (code c =? 44).
  { destruct (pm r4) as [ms r5 | |] eqn:E'; try discriminate.
    intros [= _ <-]. apply Hm in E'. lia. }
  destruct (code c =? 125); [|discriminate]. intros [= _ <-]. lia.
Qed.
End StepConsumes.

Lemma parse_consumes (f : nat) :
  consumes (JSON.parse_value f) /\ consumes (JSON.parse_elements f) /\
  consumes (JSON.parse_members f).
Proof.
  induction f as [| f (IHv & IHe & IHm)].
  - repeat split; intros s a r; discriminate.
  - repeat split.
    + apply value_step_consumes; assumption.
    + apply elements_step_consumes; assumption.
    + apply members_step_consumes; assumption.
Qed.

(** Two units of fuel per character are enough: no text runs the reader out
    of fuel. *)
Lemma parse_enough_fuel (f : nat) :
  (forall s, (2 * String.length s + 1 <= f)%nat ->
     JSON.parse_value f s <> JSON.OutOfFuel) /\
  (forall s, (2 * String.length s + 2 <= f)%nat ->
     JSON.parse_elements f s <> JSON.OutOfFuel) /\
  (forall s, (2 * String.length s + 1 <= f)%nat ->
     JSON.parse_members f s <> JSON.OutOfFuel).
Proof.
  induction f as [| f (IHv & IHe & IHm)].
  - repeat split; intros s H; lia.
  - destruct (parse_consumes f) as (Cv & Ce & Cm).
    repeat split; intros s H; simpl.
    + unfold JSON.value_step.
      pose proof (skip_whitespace_length s) as Hs.
      destruct (JSON.skip_whitespace s) as [| c rest]; [discriminate|]. simpl in Hs.
      destruct (code c =? 34).
      { destruct (JSON.parse_string rest) as [[? ?] |]; discriminate. }
      destruct (code c =? 91).
      { destruct (JSON.skip_whitespace rest) as [| c' r]; [discriminate|].
        destruct (code c' =? 93); [discriminate|].
        specialize (IHe rest).
        destruct (JSON.parse_elements f rest); try discriminate.
        exfalso. apply IHe; [lia | reflexivity]. }
      destruct (code c =? 123).
      { destruct (JSON.skip_whitespace rest) as [| c' r]; [discriminate|].
        destruct (code c' =? 125); [discriminate|].
        specialize (IHm rest).
        destruct (JSON.parse_members f rest); try discriminate.
        exfalso. apply IHm; [lia | reflexivity]. }
      destruct (JSON.is_number_char c).
      { destruct (JSON.span _ _) as [tok r].
        destruct (JSON.number_of_token tok); discriminate. }
      destruct (JSON.strip_prefix "null" _); [discriminate|].
      destruct (JSON.strip_prefix "true" _); [discriminate|].
      destruct (JSON.strip_prefix "false" _); discriminate.
    + unfold JSON.elements_step.
      pose proof (IHv s) as Hv. pose proof (Cv s) as Hc.
      destruct (JSON.parse_value f s) as [v r | |]; [| discriminate | exfalso; apply Hv; [lia | reflexivity]].
      specialize (Hc v r eq_refl).
      pose proof (skip_whitespace_length r) as Hs.
      destruct (JSON.skip_whitespace r) as [| c r']; [discriminate|]. simpl in Hs.
      destruct (code c =? 44).
      { specialize (IHe r').
        destruct (JSON.parse_elements f r'); try discriminate.
        exfalso. apply IHe; [lia | reflexivity]. }
      destruct (code c =? 93); discriminate.
    + unfold JSON.members_step.
      pose proof (skip_whitespace_length s) as Hs.
      destruct (JSON.skip_whitespace s) as [| q r0]; [discriminate|]. simpl in Hs.
      destruct (code q =? 34); [|discriminate].
      destruct (JSON.parse_string r0) as [[k r1] |] eqn:Ek; [|discriminate].
      apply (parse_string_length _ _ _ _ (le_n _)) in Ek.
      pose proof (skip_whitespace_length r1) as Hs1.
      destruct (JSON.skip_whitespace r1) as [| colon r2]; [discriminate|].
      simpl in Hs1.
      destruct (code colon =? 58); [|discriminate].
      pose proof (IHv r2) as Hv. pose proof (Cv r2) as Hc.
      destruct (JSON.parse_value f r2) as [v r3 | |]; [| discriminate | exfalso; apply Hv; [lia | reflexivity]].
      specialize (Hc v r3 eq_refl).
      pose proof (skip_whitespace_length r3) as Hs3.
      destruct (JSON.skip_whitespace r3) as [| c r4]; [discriminate|]. simpl in Hs3.
      destruct (code c =? 44).
      { specialize (IHm r4).
        destruct (JSON.parse_members f r4); try discriminate.
        exfalso. apply IHm; [lia | reflexivity]. }
      destruct (code c =? 125); discriminate.
Qed.

(** ** The JSON reader reads what the writer wrote *)

Lemma skip_whitespace_start c r :
  JSON.is_whitespace c = false -> JSON.skip_whitespace (String c r) = String c r.
Proof. intros H. simpl. rewrite H. reflexivity. Qed.

Lemma parse_string_escape (c : ascii) (tail : string) :
  JSON.parse_string (JSON.escape c ++ tail) =
  JSON.prepend (String c "") (JSON.parse_string tail).
Proof.
  destruct c as [[] [] [] [] [] [] [] []];
    vm_compute JSON.escape; rewrite ?string_app_cons, ?string_app_nil_l;
    reflexivity.
Qed.

Lemma parse_string_escape_all (s rest : string) :
  JSON.parse_string (JSON.escape_all s ++ String JSON.quotation_mark rest) =
  Some (s, rest).
Proof.
  induction s as [| c s IH].
  - reflexivity.
  - cbn [JSON.escape_all]. rewrite string_app_assoc, parse_string_escape, IH.
    reflexivity.
Qed.

Lemma QuoteJSONString_cons (s rest : string) :
  (JSON.QuoteJSONString s ++ rest)%string =
  String JSON.quotation_mark
    (JSON.escape_all s ++ String JSON.quotation_mark rest).
Proof.
  unfold JSON.QuoteJSONString.
  rewrite string_app_cons, string_app_assoc, string_app_cons, string_app_nil_l.
  reflexivity.
Qed.

Lemma number_char_class (c : ascii) :
  JSON.is_number_char c = true ->
  JSON.is_whitespace c = false /\ (code c =? 34) = false /\
  (code c =? 91) = false /\ (code c =? 123) = false /\ (code c =? 93) = false.
Proof.
  destruct c as [[] [] [] [] [] [] [] []]; vm_compute; intuition congruence.
Qed.

Lemma span_token (p : ascii -> bool) (tok rest : string) :
  forallb p (list_ascii_of_string tok) = true ->
  match rest with EmptyString => True | String c _ => p c = false end ->
  JSON.span p (tok ++ rest) = (tok, rest).
Proof.
  intros Htok Hrest. induction tok as [| c tok IH].
  - rewrite string_app_nil_l. destruct rest as [| c r]; [reflexivity|].
    simpl. rewrite Hrest. reflexivity.
  - simpl in Htok. apply andb_true_iff in Htok as [Hc Htok].
    rewrite string_app_cons. simpl. rewrite Hc, (IH Htok). reflexivity.
Qed.

Section ValueStep.
Import JSON.
Variables (pe : string -> parsed (list jsval))
          (pm : string -> parsed (list (string * jsval))).

Lemma value_step_string (s rest : string) :
  value_step pe pm (QuoteJSONString s ++ rest) = Parsed (Str s) rest.
Proof.
  rewrite QuoteJSONString_cons. unfold value_step.
  rewrite skip_whitespace_start by reflexivity.
  change (code quotation_mark =? 34) with true. cbv iota.
  rewrite parse_string_escape_all. reflexivity.
Qed.

Lemma value_step_number (tok rest : string) (x : float) :
  forallb is_number_char (list_ascii_of_string tok) = true ->
  number_of_token tok = Some x ->
  delimited rest ->
  value_step pe pm (tok ++ rest) = Parsed (Num x) rest.
Proof.
  intros Hchars Htok Hrest.
  destruct tok as [| c t]; [discriminate Htok|].
  pose proof Hchars as Hc. simpl in Hc. apply andb_true_iff in Hc as [Hc _].
  destruct (number_char_class c Hc) as (Hws & H34 & H91 & H123 & _).
  unfold value_step. rewrite string_app_cons.
  rewrite skip_whitespace_start by exact Hws.
  rewrite H34, H91, H123, Hc. rewrite <- string_app_cons.
  rewrite (span_token is_number_char (String c t) rest Hchars Hrest).
  rewrite Htok. reflexivity.
Qed.

Lemma value_step_null (rest : string) :
  value_step pe pm (String "n" (String "u" (String "l" (String "l" rest)))) =
  Parsed Null rest.
Proof. reflexivity. Qed.

Lemma value_step_true (rest : string) :
  value_step pe pm (String "t" (String "r" (String "u" (String "e" rest)))) =
  Parsed (Boolean true) rest.
Proof. reflexivity. Qed.

Lemma value_step_false (rest : string) :
  value_step pe pm
    (String "f" (String "a" (String "l" (String "s" (String "e" rest))))) =
  Parsed (Boolean false) rest.
Proof. reflexivity. Qed.

Lemma value_step_empty_array (rest : string) :
  value_step pe pm (String "[" (String "]" rest)) = Parsed (Arr []) rest.
Proof. reflexivity. Qed.

Lemma value_step_empty_object (rest : string) :
  value_step pe pm (String "{" (String "}" rest)) =
  Parsed (Obj Object_prototype []) rest.
Proof. reflexivity. Qed.

Lemma value_step_array (c : ascii) (body : string) :
  is_whitespace c = false -> (code c =? 93) = false ->
  value_step pe pm (String "[" (String c body)) =
  match pe (String c body) with
  | Parsed vs r => Parsed (Arr vs) r
  | Malformed => Malformed
  | OutOfFuel => OutOfFuel
  end.
Proof.
  intros Hws H93. unfold value_step.
  rewrite skip_whitespace_start by reflexivity.
  change (code "[" =? 34) with false. change (code "[" =? 91) with true.
  cbv iota. rewrite skip_whitespace_start by exact Hws. rewrite H93.
  reflexivity.
Qed.

Lemma value_step_object (body : string) :
  value_step pe pm (String "{" (String quotation_mark body)) =
  match pm (String quotation_mark body) with
  | Parsed ms r => Parsed (object_of ms) r
  | Malformed => Malformed
  | OutOfFuel => OutOfFuel
  end.
Proof. reflexivity. Qed.

End ValueStep.

Lemma jsval_nested_ind (P : jsval -> Prop) :
  P Undefined -> P Null -> (forall b, P (Boolean b)) -> (forall x, P (Num x)) ->
  (forall s, P (Str s)) -> (forall d, P (DateObject d)) ->
  (forall l, Forall P l -> P (Arr l)) ->
  (forall p ps, Forall (fun kv => P (snd kv)) ps -> P (Obj p ps)) ->
  forall v, P v.
Proof.
  intros HU HN HB HNum HS HD HA HO.
  fix IH 1. intros v. destruct v as [| | b | x | s | d | l | p ps].
  - exact HU.
  - exact HN.
  - apply HB.
  - apply HNum.
  - apply HS.
  - apply HD.
  - apply HA. induction l as [| e l IHl]; constructor; [apply IH | exact IHl].
  - apply HO. induction ps as [| [k e] ps IHps]; constructor;
      [apply IH | exact IHps].
Qed.

Lemma storable_Arr (l : list jsval) : storable (Arr l) <-> Forall storable l.
Proof.
  induction l as [| e l IH]; simpl.
  - split; [constructor | trivial].
  - split.
    + intros [He Hl]. constructor; [exact He | apply IH; exact Hl].
    + intros H. inversion H; subst. split; [assumption | apply IH; assumption].
Qed.

Lemma storable_Obj p (ps : list (string * jsval)) :
  storable (Obj p ps) <->
  keys_storable ps /\ Forall (fun kv => storable (snd kv)) ps.
Proof.
  simpl. apply and_iff_compat_l.
  induction ps as [| [k e] ps IH]; simpl.
  - split; [constructor | trivial].
  - split.
    + intros [He Hl]. constructor; [exact He | apply IH; exact Hl].
    + intros H. inversion H; subst. split; [assumption | apply IH; assumption].
Qed.

Lemma element_text_Arr (l : list jsval) :
  element_text (Arr l) = String "[" (JSON.join (map element_text l) ++ "]").
Proof. reflexivity. Qed.

Lemma written_texts (ps : list (string * jsval)) :
  flat_map (fun '(k, e) =>
              match JSON.SerializeJSONProperty e with
              | Some s => [JSON.QuoteJSONString k ++ ":" ++ s]
              | None => []
              end) ps =
  map member_text (written ps).
Proof.
  induction ps as [| [k e] ps IH]; [reflexivity|].
  cbn [flat_map written List.filter snd]. fold (written ps). rewrite IH.
  destruct e; reflexivity.
Qed.

Lemma written_plain (ps : list (string * jsval)) :
  flat_map (fun '(k, e) =>
              match e with
              | Undefined => []
              | _ => [(k, plain e)]
              end) ps =
  map (fun kv => (fst kv, plain (snd kv))) (written ps).
Proof.
  induction ps as [| [k e] ps IH]; [reflexivity|].
  cbn [flat_map written List.filter snd]. fold (written ps). rewrite IH.
  destruct e; reflexivity.
Qed.

Lemma element_text_Obj p (ps : list (string * jsval)) :
  element_text (Obj p ps) =
  String "{" (JSON.join (map member_text (written ps)) ++ "}").
Proof.
  unfold element_text. cbn [JSON.SerializeJSONProperty].
  rewrite written_texts. reflexivity.
Qed.

Lemma written_Forall (Q : string * jsval -> Prop) (ps : list (string * jsval)) :
  Forall Q ps -> Forall Q (written ps).
Proof.
  induction 1 as [| kv ps Hkv _ IH]; [constructor|].
  unfold written. cbn [List.filter]. fold (written ps).
  destruct (match snd kv with Undefined => false | _ => true end);
    [constructor|]; assumption.
Qed.

(** The text of a value starts with a character of the value. *)
Lemma element_text_starts (v : jsval) :
  storable v ->
  exists c t, element_text v = String c t /\
    JSON.is_whitespace c = false /\ (code c =? 93) = false.
Proof.
  intros Hs. destruct v as [| | b | x | s | d | l | p ps].
  - exists "n"%char, "ull". repeat split.
  - exists "n"%char, "ull". repeat split.
  - destruct b; [exists "t"%char, "rue" | exists "f"%char, "alse"]; repeat split.
  - unfold element_text. cbn [JSON.SerializeJSONProperty].
    destruct (Number.isFinite x) eqn:Hf.
    + destruct (Hs Hf) as [Hchars Htok].
      destruct (Number.toString x) as [| c t]; [discriminate Htok|].
      simpl in Hchars. apply andb_true_iff in Hchars as [Hc _].
      destruct (number_char_class c Hc) as (Hws & _ & _ & _ & H93).
      exists c, t. repeat split; assumption.
    + exists "n"%char, "ull". repeat split.
  - eexists _, _. split; [reflexivity | split; reflexivity].
  - eexists _, _. split; [reflexivity | split; reflexivity].
  - eexists _, _. split; [apply element_text_Arr | split; reflexivity].
  - eexists _, _. split; [apply element_text_Obj | split; reflexivity].
Qed.

Lemma delimited_comma r : delimited (String "," r).
Proof. reflexivity. Qed.

Lemma delimited_bracket r : delimited (String "]" r).
Proof. reflexivity. Qed.

Lemma delimited_brace r : delimited (String "}" r).
Proof. reflexivity. Qed.

Lemma join_one_text (t close rest : string) :
  ((JSON.join [t] ++ close) ++ rest = t ++ (close ++ rest))%string.
Proof. cbn [JSON.join]. apply string_app_assoc. Qed.

Lemma join_more_text (t t' : string) (ts : list string) (close rest : string) :
  ((JSON.join (t :: t' :: ts) ++ close) ++ rest =
   t ++ String "," ((JSON.join (t' :: ts) ++ close) ++ rest))%string.
Proof.
  change (JSON.join (t :: t' :: ts)) with (t ++ String "," (JSON.join (t' :: ts)))%string.
  rewrite (string_app_assoc t), (string_app_assoc t). f_equal.
Qed.

Lemma member_text_cons (k : string) (e : jsval) (tail : string) :
  (member_text (k, e) ++ tail)%string =
  String JSON.quotation_mark
    (JSON.escape_all k ++
     String JSON.quotation_mark (String ":" (element_text e ++ tail))).
Proof.
  unfold member_text. cbn [fst snd].
  rewrite string_app_assoc, QuoteJSONString_cons. reflexivity.
Qed.

(** The elements of an array are read back one after the other. *)
Lemma parse_elements_join (l : list jsval) : forall (e : jsval) (rest : string),
  Forall reads_back (e :: l) ->
  exists fuel,
    JSON.parse_elements fuel
      ((JSON.join (map element_text (e :: l)) ++ "]") ++ rest) =
    JSON.Parsed (map plain (e :: l)) rest.
Proof.
  induction l as [| e' l IH]; intros e rest H; inversion H as [| ? ? He Hl]; subst.
  - destruct (He (String "]" rest) (delimited_bracket rest)) as [f Hf].
    exists (S f). cbn [map]. rewrite join_one_text.
    cbn [JSON.parse_elements]. unfold JSON.elements_step.
    change ("]" ++ rest)%string with (String "]" rest). rewrite Hf.
    reflexivity.
  - destruct (IH e' rest Hl) as [f2 Hf2].
    destruct (He (String "," ((JSON.join (map element_text (e' :: l)) ++ "]") ++ rest))
                (delimited_comma _)) as [f1 Hf1].
    exists (S (Nat.max f1 f2)).
    change (map element_text (e :: e' :: l))
      with (element_text e :: element_text e' :: map element_text l).
    rewrite join_more_text.
    change (element_text e' :: map element_text l)
      with (map element_text (e' :: l)).
    cbn [JSON.parse_elements]. unfold JSON.elements_step.
    rewrite (parse_value_more_fuel f1 (Nat.max f1 f2) _ _ _ (Nat.le_max_l _ _) Hf1).
    rewrite skip_whitespace_start by reflexivity.
    change (code "," =? 44) with true. cbv iota.
    rewrite (parse_elements_more_fuel f2 (Nat.max f1 f2) _ _ _ (Nat.le_max_r _ _) Hf2).
    reflexivity.
Qed.

(** The members of an object are read back one after the other. *)
Lemma parse_members_join (l : list (string * jsval)) :
  forall (m : string * jsval) (rest : string),
  Forall (fun kv => reads_back (snd kv)) (m :: l) ->
  exists fuel,
    JSON.parse_members fuel
      ((JSON.join (map member_text (m :: l)) ++ "}") ++ rest) =
    JSON.Parsed (map (fun kv => (fst kv, plain (snd kv))) (m :: l)) rest.
Proof.
  induction l as [| m' l IH]; intros [k e] rest H;
    inversion H as [| ? ? He Hl]; subst; simpl in He.
  - destruct (He (String "}" rest) (delimited_brace rest)) as [f Hf].
    exists (S f). cbn [map]. rewrite join_one_text, member_text_cons.
    cbn [JSON.parse_members]. unfold JSON.members_step.
    rewrite skip_whitespace_start by reflexivity.
    change (code JSON.quotation_mark =? 34) with true. cbv iota.
    rewrite parse_string_escape_all.
    rewrite skip_whitespace_start by reflexivity.
    change (code ":" =? 58) with true. cbv iota.
    change ("}" ++ rest)%string with (String "}" rest). rewrite Hf.
    reflexivity.
  - destruct (IH m' rest Hl) as [f2 Hf2].
    destruct (He (String "," ((JSON.join (map member_text (m' :: l)) ++ "}") ++ rest))
                (delimited_comma _)) as [f1 Hf1].
    exists (S (Nat.max f1 f2)).
    change (map member_text ((k, e) :: m' :: l))
      with (member_text (k, e) :: member_text m' :: map member_text l).
    rewrite join_more_text, member_text_cons.
    change (member_text m' :: map member_text l)
      with (map member_text (m' :: l)).
    cbn [JSON.parse_members]. unfold JSON.members_step.
    rewrite skip_whitespace_start by reflexivity.
    change (code JSON.quotation_mark =? 34) with true. cbv iota.
    rewrite parse_string_escape_all.
    rewrite skip_whitespace_start by reflexivity.
    change (code ":" =? 58) with true. cbv iota.
    rewrite (parse_value_more_fuel f1 (Nat.max f1 f2) _ _ _ (Nat.le_max_l _ _) Hf1).
    rewrite skip_whitespace_start by reflexivity.
    change (code "," =? 44) with true. cbv iota.
    rewrite (parse_members_more_fuel f2 (Nat.max f1 f2) _ _ _ (Nat.le_max_r _ _) Hf2).
    reflexivity.
Qed.

(** A new key that is no integer index goes last. *)
Lemma define_fresh (k : string) (v : jsval) (acc : list (string * jsval)) :
  ~ In k (map fst acc) -> JSON.array_index k = None ->
  JSON.define k v acc = (acc ++ [(k, v)])%list.
Proof.
  intros Hfresh Hidx. induction acc as [| [k' v'] acc IH]; [reflexivity|].
  cbn [JSON.define]. simpl in Hfresh.
  destruct (String.eqb_spec k k') as [E | _]; [exfalso; auto|].
  unfold JSON.comes_before. rewrite Hidx.
  rewrite IH by tauto. reflexivity.
Qed.

Lemma fold_define (ms : list (string * jsval)) : forall acc,
  List.NoDup (map fst (acc ++ ms)%list) ->
  Forall (fun k => JSON.array_index k = None) (map fst ms) ->
  fold_left (fun properties '(k, v) => JSON.define k v properties) ms acc =
  (acc ++ ms)%list.
Proof.
  induction ms as [| [k v] ms IH]; intros acc Hnd Hidx.
  - symmetry. apply app_nil_r.
  - inversion Hidx as [| ? ? Hk Hrest]; subst. cbn [fold_left].
    rewrite define_fresh; [| | exact Hk].
    + rewrite IH; [now rewrite <- app_assoc | | exact Hrest].
      rewrite <- app_assoc. exact Hnd.
    + rewrite map_app in Hnd. simpl in Hnd.
      apply NoDup_remove_2 in Hnd. intros Hin. apply Hnd.
      apply in_or_app. left. exact Hin.
Qed.

Lemma object_of_storable (ms : list (string * jsval)) :
  List.NoDup (map fst ms) ->
  Forall (fun k => JSON.array_index k = None) (map fst ms) ->
  JSON.object_of ms = Obj Object_prototype ms.
Proof.
  intros Hnd Hidx. unfold JSON.object_of. f_equal.
  apply (fold_define ms []); assumption.
Qed.

Lemma map_fst_plain (ms : list (string * jsval)) :
  map fst (map (fun kv => (fst kv, plain (snd kv))) ms) = map fst ms.
Proof. rewrite map_map. reflexivity. Qed.

(** Every storable value is read back from its text as its plain image. *)
Lemma storable_reads_back : forall v, storable v -> reads_back v.
Proof.
  induction v as [| | b | x | s | d | l IH | p ps IH] using jsval_nested_ind;
    intros Hs rest Hrest.
  - exists 1%nat. reflexivity.
  - exists 1%nat. reflexivity.
  - exists 1%nat. destruct b; reflexivity.
  - exists 1%nat. unfold element_text. cbn [JSON.SerializeJSONProperty plain].
    destruct (Number.isFinite x) eqn:Hf; [|reflexivity].
    destruct (Hs Hf) as [Hchars Htok].
    cbn [JSON.parse_value]. apply value_step_number; assumption.
  - exists 1%nat. cbn [JSON.parse_value]. apply value_step_string.
  - exists 1%nat. cbn [JSON.parse_value]. apply value_step_string.
  - rewrite element_text_Arr. cbn [plain].
    destruct l as [| e l].
    + exists 1%nat. reflexivity.
    + apply storable_Arr in Hs.
      assert (Hrb : Forall reads_back (e :: l)).
      { clear -IH Hs. induction Hs as [| a l' Ha _ IHl]; [constructor|].
        inversion IH; subst. constructor; auto. }
      destruct (parse_elements_join l e rest Hrb) as [f Hf].
      inversion Hs as [| ? ? He _]; subst.
      destruct (element_text_starts e He) as (c & t & Et & Hws & H93).
      exists (S f). rewrite string_app_cons. cbn [JSON.parse_value].
      assert (Hbody : exists body,
                 ((JSON.join (map element_text (e :: l)) ++ "]") ++ rest)%string =
                 String c body).
      { cbn [map]. rewrite Et. destruct (map element_text l); eexists; reflexivity. }
      destruct Hbody as [body Hbody]. rewrite Hbody in *.
      rewrite value_step_array by assumption. rewrite Hf. reflexivity.
  - rewrite element_text_Obj. cbn [plain]. rewrite written_plain.
    apply storable_Obj in Hs as [[Hnd Hidx] Hvals].
    assert (Hrb : Forall (fun kv => reads_back (snd kv)) (written ps)).
    { apply written_Forall. clear -IH Hvals.
      induction Hvals as [| a l' Ha _ IHl]; [constructor|].
      inversion IH; subst. constructor; auto. }
    destruct (written ps) as [| [k e] ms] eqn:Ew.
    + exists 1%nat. reflexivity.
    + destruct (parse_members_join ms (k, e) rest Hrb) as [f Hf].
      exists (S f). rewrite string_app_cons. cbn [JSON.parse_value].
      assert (Hbody : exists body,
                 ((JSON.join (map member_text ((k, e) :: ms)) ++ "}") ++ rest)%string =
                 String JSON.quotation_mark body).
      { cbn [map]. destruct (map member_text ms); eexists; reflexivity. }
      destruct Hbody as [body Hbody]. rewrite Hbody in *.
      rewrite value_step_object. rewrite Hf.
      rewrite object_of_storable; [reflexivity | |];
        rewrite map_fst_plain; assumption.
Qed.

(** [JSON.parse] undoes [JSON.stringify] on a storable value, up to the plain
    image. *)
Lemma parse_stringify (v : jsval) (text : string) :
  storable v ->
  JSON.stringify v = Some text ->
  JSON.parse text = Normal (plain v).
Proof.
  intros Hs Ht.
  destruct (storable_reads_back v Hs "" I) as [f Hf].
  unfold element_text in Hf. unfold JSON.stringify in Ht. rewrite Ht in Hf.
  rewrite string_app_nil_r in Hf.
  unfold JSON.parse.
  set (F := (2 * String.length text + 2)%nat).
  assert (Hfuel : JSON.parse_value F text = JSON.Parsed (plain v) "").
  { destruct (Nat.le_gt_cases f F) as [Hle | Hgt].
    - apply (parse_value_more_fuel f F); assumption.
    - destruct (parse_extends F f) as (Hv & _); [lia|].
      destruct (Hv text) as [E | E]; [|congruence].
      exfalso. destruct (parse_enough_fuel F) as (Hen & _).
      apply (Hen text); [unfold F; lia | exact E]. }
  rewrite Hfuel. reflexivity.
Qed.

(** No text makes [JSON.parse] run out of fuel: a text is rejected only for
    being malformed. *)
Lemma parse_never_out_of_fuel (text : string) :
  JSON.parse_value (2 * String.length text + 2) text <> JSON.OutOfFuel.
Proof.
  destruct (parse_enough_fuel (2 * String.length text + 2)) as (H & _).
  apply H. lia.
Qed.

(** *** Entries *)

Lemma storable_Num (x : float) :
  Number.isFinite x = true /\ survives x -> storable (Num x).
Proof. intros [_ H] _. exact H. Qed.

Lemma Entry_object_storable (e : Entry) :
  Entry_survives e -> storable (Entry_object e).
Proof.
  unfold Entry_survives, Entry_numbers. intros H.
  destruct e as [r | c]; cbn [Entry_super app] in H;
    repeat match goal with
    | H : Forall _ (_ :: _) |- _ => inversion_clear H
    end;
    apply storable_Obj; (split; [split|]).
  all: try (cbn; repeat constructor; cbn; intuition discriminate).
  all: repeat constructor; cbn [snd];
    try apply storable_Num; try assumption;
    try (apply storable_Arr; repeat constructor; apply storable_Num; assumption).
Qed.

(** ** Persistence *)

Lemma _setLocalStorage_eq (st : State) :
  _setLocalStorage st =
  (Normal tt,
   set_localStorage
     (<["workouts" := match JSON.stringify (App_workouts st) with
                      | Some text => text
                      | None => "undefined"
                      end]> (localStorage st)) st).
Proof. reflexivity. Qed.

Lemma _getLocalStorage_eq (st : State) :
  _getLocalStorage st =
  match JSON.parse (match localStorage st !! "workouts" with
                    | Some text => text
                    | None => "null"
                    end) with
  | Throw e => (Throw e, st)
  | Normal data =>
      if ToBoolean data
      then forEach (fun w => _renderWorkout w) data (set_workouts data st)
      else (Normal tt, st)
  end.
Proof.
  unfold _getLocalStorage, bind, getItem, gets, lift. cbn [fst snd].
  destruct (JSON.parse _) as [data | e]; [|reflexivity].
  destruct (ToBoolean data); reflexivity.
Qed.

Lemma forEach_renderable (ws : list jsval) :
  Forall renderable ws ->
  forall st,
    forEach_elements (fun w => _renderWorkout w) ws st =
    (Normal tt, set_containerWorkouts (rev ws ++ containerWorkouts st)%list st).
Proof.
  induction 1 as [| w ws Hw _ IH]; intros st.
  - destruct st; reflexivity.
  - cbn [forEach_elements]. unfold bind. rewrite Hw, IH.
    cbn [rev]. rewrite <- app_assoc. reflexivity.
Qed.

Lemma plain_Entry_renderable (e : Entry) (clock : Clock) :
  constructed clock e -> Entry_survives e -> renderable (plain (Entry_object e)).
Proof.
  intros (c & d & t & m & [-> | ->]) Hs st;
    unfold Entry_survives in Hs; cbn in Hs;
    repeat match goal with
    | H : Forall _ (_ :: _) |- _ => inversion_clear H
    end;
    repeat match goal with H : _ /\ _ |- _ => destruct H as [H _] end;
    unfold _renderWorkout, substitution, bind, lift, ret; cbn [plain Entry_object];
    cbn -[toISOString Number.isFinite _setDescription slice_last];
    repeat match goal with
    | H : Number.isFinite _ = true |- _ => rewrite H; clear H
    end;
    reflexivity.
Qed.

Lemma plain_Entry_same_data (e : Entry) :
  Entry_survives e -> same_data (plain (Entry_object e)) e.
Proof.
  unfold Entry_survives, Entry_numbers. intros Hs.
  destruct e as [r | c]; cbn [Entry_super app] in Hs;
    repeat match goal with
    | H : Forall _ (_ :: _) |- _ => inversion_clear H
    end;
    repeat match goal with H : _ /\ _ |- _ => destruct H as [H _] end;
    (split; [intros name Hname | reflexivity]);
    unfold Entry_object, Running_object, Cycling_object, Workout_properties;
    cbn [app plain flat_map map];
    repeat match goal with
    | H : Number.isFinite _ = true |- _ => rewrite H; clear H
    end;
    cbn [Get assoc];
    (destruct (String.eqb_spec "date" name) as [E | _];
       [exfalso; apply Hname; symmetry; exact E | reflexivity]).
Qed.





Lemma Entry_survives_a : Entry_survives entry_a.
Proof. repeat constructor; vm_compute; reflexivity. Qed.

Lemma Entry_survives_b : Entry_survives entry_b.
Proof. repeat constructor; vm_compute; reflexivity. Qed.




Lemma parse_throws_SyntaxError (text : string) (e : Error) :
  JSON.parse text = Throw e -> e = SyntaxError.
Proof.
  unfold JSON.parse.
  destruct (JSON.parse_value _ text) as [v rest | |].
  - destruct (JSON.skip_whitespace rest); [discriminate|]. now intros [= <-].
  - now intros [= <-].
  - now intros [= <-].
Qed.

Lemma load_absent (storage : gmap string string) (kind : string) :
  storage !! "workouts" = None ->
  load storage kind = (Normal tt, fresh_page storage kind).
Proof.
  intros H. unfold load. rewrite _getLocalStorage_eq.
  cbn [fresh_page localStorage]. rewrite H. reflexivity.
Qed.

Lemma load_malformed (storage : gmap string string) (kind text : string) (e : Error) :
  storage !! "workouts" = Some text -> JSON.parse text = Throw e ->
  load storage kind = (Throw SyntaxError, fresh_page storage kind).
Proof.
  intros H He. unfold load. rewrite _getLocalStorage_eq.
  cbn [fresh_page localStorage]. rewrite H, He.
  rewrite (parse_throws_SyntaxError _ _ He). reflexivity.
Qed.

Lemma load_falsy (storage : gmap string string) (kind text : string) (data : jsval) :
  storage !! "workouts" = Some text -> JSON.parse text = Normal data ->
  ToBoolean data = false ->
  load storage kind = (Normal tt, fresh_page storage kind).
Proof.
  intros H Hd Hf. unfold load. rewrite _getLocalStorage_eq.
  cbn [fresh_page localStorage]. rewrite H, Hd, Hf. reflexivity.
Qed.

Lemma load_truthy (storage : gmap string string) (kind text : string) (data : jsval) :
  storage !! "workouts" = Some text -> JSON.parse text = Normal data ->
  ToBoolean data = true ->
  load storage kind =
  forEach (fun w => _renderWorkout w) data (set_workouts data (fresh_page storage kind)).
Proof.
  intros H Hd Ht. unfold load. rewrite _getLocalStorage_eq.
  cbn [fresh_page localStorage]. rewrite H, Hd, Ht. reflexivity.
Qed.

(** C4, as amended. On a page that has just been loaded, load leaves the
    store empty and ends normally when the key is absent or holds the JSON
    text of a falsy value such as [null]; it throws a SyntaxError, which
    nothing catches, and leaves the store empty when the stored text is
    malformed; and when the text is JSON for a truthy value the store becomes
    that value, the deserialized sequence, and load ends normally if the
    value is an array of workouts that render. *)
Theorem C4_load (storage : gmap string string) (kind : string) :
  (storage !! "workouts" = None ->
   fst (load storage kind) = Normal tt /\
   App_workouts (snd (load storage kind)) = Arr []) /\
  (forall text e,
     storage !! "workouts" = Some text -> JSON.parse text = Throw e ->
     e = SyntaxError /\
     fst (load storage kind) = Throw SyntaxError /\
     App_workouts (snd (load storage kind)) = Arr []) /\
  (forall text data,
     storage !! "workouts" = Some text -> JSON.parse text = Normal data ->
     ToBoolean data = false ->
     fst (load storage kind) = Normal tt /\
     App_workouts (snd (load storage kind)) = Arr []) /\
  (forall text data,
     storage !! "workouts" = Some text -> JSON.parse text = Normal data ->
     ToBoolean data = true ->
     App_workouts (snd (load storage kind)) = data /\
     (forall ws, data = Arr ws -> Forall renderable ws ->
        fst (load storage kind) = Normal tt /\
        containerWorkouts (snd (load storage kind)) = rev ws)).
Proof.
  split; [| split; [| split]].
  - intros H. rewrite (load_absent storage kind H). split; reflexivity.
  - intros text e H He. rewrite (load_malformed storage kind text e H He).
    split; [exact (parse_throws_SyntaxError text e He) | split; reflexivity].
  - intros text data H Hd Hf. rewrite (load_falsy storage kind text data H Hd Hf).
    split; reflexivity.
  - intros text data H Hd Ht. rewrite (load_truthy storage kind text data H Hd Ht).
    split.
    + rewrite (preserves_forEach App_workouts _ data
                 (fun w => _renderWorkout_workouts w)).
      reflexivity.
    + intros ws -> Hws. cbn [forEach]. rewrite forEach_renderable by exact Hws.
      split; [reflexivity|].
      cbn [snd containerWorkouts set_containerWorkouts set_workouts fresh_page].
      apply app_nil_r.
Qed.

Lemma C4_load_witness :
  (fst (load ∅ "running") = Normal tt /\
   App_workouts (snd (load ∅ "running")) = Arr []) /\
  (fst (load {["workouts" := "null"]} "running") = Normal tt /\
   App_workouts (snd (load {["workouts" := "null"]} "running")) = Arr []) /\
  (SyntaxError = SyntaxError /\
   fst (load {["workouts" := "[1,"]} "running") = Throw SyntaxError /\
   App_workouts (snd (load {["workouts" := "[1,"]} "running")) = Arr []).
Proof.
  split; [| split].
  - destruct (C4_load ∅ "running") as (H & _). apply H. reflexivity.
  - destruct (C4_load {["workouts" := "null"]} "running") as (_ & _ & H & _).
    apply (H "null" Null); reflexivity.
  - destruct (C4_load {["workouts" := "[1,"]} "running") as (_ & H & _).
    apply (H "[1," SyntaxError); reflexivity.
Defined.

(** The claim as it stands fails on malformed stored text: load throws. It
    also throws on well-formed text that is no array of workouts. *)
Lemma C4_counterexample :
  load {["workouts" := "{"]} "running" =
    (Throw SyntaxError, fresh_page {["workouts" := "{"]} "running") /\
  fst (load {["workouts" := "[null]"]} "running") = Throw TypeError /\
  fst (load {["workouts" := "true"]} "running") = Throw TypeError.
Proof. repeat split. Qed.

(** C8. After [reset] the key is gone, nothing is in memory or rendered, and
    any later load finds nothing, whatever was stored before. *)
Theorem C8_reset (st : State) (geolocation : bool) (kind : string) :
  fst (reset geolocation st) = Normal tt /\
  localStorage (snd (reset geolocation st)) !! "workouts" = None /\
  App_workouts (snd (reset geolocation st)) = Arr [] /\
  containerWorkouts (snd (reset geolocation st)) = [] /\
  fst (load (localStorage (snd (reset geolocation st))) kind) = Normal tt /\
  App_workouts (snd (load (localStorage (snd (reset geolocation st))) kind)) = Arr [] /\
  containerWorkouts (snd (load (localStorage (snd (reset geolocation st))) kind)) = [].
Proof.
  assert (Hload : forall s : State,
             localStorage s !! "workouts" = None ->
             _getLocalStorage s = (Normal tt, s)).
  { intros s Hs. rewrite _getLocalStorage_eq, Hs. reflexivity. }
  assert (Hreset : reset geolocation st =
                   (Normal tt,
                    snd (_getPosition geolocation
                           (fresh_page (delete "workouts" (localStorage st))
                              (inputType (form st)))))).
  { unfold reset, bind, removeItem, modify, location_reload, App_new, bind.
    cbn [fst snd set_localStorage localStorage form].
    destruct geolocation; cbn [_getPosition].
    - unfold _alertMessage, alert, modify. rewrite Hload; [reflexivity|].
      apply lookup_delete_eq.
    - unfold ret. rewrite Hload; [reflexivity|]. apply lookup_delete_eq. }
  rewrite Hreset. cbn [fst snd].
  assert (Hls : localStorage
                  (snd (_getPosition geolocation
                          (fresh_page (delete "workouts" (localStorage st))
                             (inputType (form st))))) =
                delete "workouts" (localStorage st)).
  { destruct geolocation; reflexivity. }
  rewrite Hls. unfold load. rewrite Hload by apply lookup_delete_eq.
  repeat split; try (destruct geolocation; reflexivity).
  apply lookup_delete_eq.
Qed.

(** The specification's scenario: a store that was saved, then reset. *)
Example reset_after_save :
  localStorage (save two_in_one_millisecond) !! "workouts" <> None /\
  load (localStorage (snd (reset true (save two_in_one_millisecond)))) "running" =
  (Normal tt,
   fresh_page (delete "workouts" (localStorage (save two_in_one_millisecond)))
     "running").
Proof. split; [vm_compute; discriminate | vm_compute; reflexivity]. Qed.

(** ** Errors *)

Lemma find_id_some (es : list Entry) (e : Entry) :
  In e es ->
  exists e', find_id (Entry_id e) (map Entry_object es) = Normal (Entry_object e').
Proof.
  induction es as [| e0 es IH]; intros Hin; [destruct Hin|].
  cbn [map find_id]. rewrite Get_id. cbn [strict_equals_string].
  destruct (String.eqb_spec (Entry_id e0) (Entry_id e)) as [_ | Hne].
  - exists e0. reflexivity.
  - destruct Hin as [-> | Hin]; [exfalso; apply Hne; reflexivity|].
    apply IH. exact Hin.
Qed.

Lemma Get_coords (e : Entry) :
  Get (Entry_object e) "coords" =
  Normal (Arr [Num (fst (coords (Entry_super e))); Num (snd (coords (Entry_super e)))]).
Proof. destruct e; reflexivity. Qed.

Lemma _moveToPopup_found (st : State) (es : list Entry) (m : LeafletMap) (e : Entry) :
  App_workouts st = store es -> App_map st = Some m -> In e es ->
  fst (_moveToPopup (Some (Entry_id e)) st) = Normal tt.
Proof.
  intros Hw Hm Hin. destruct (find_id_some es e Hin) as [e' He'].
  unfold _moveToPopup, bind, gets, lift, the_map. cbn [fst snd].
  rewrite Hw. unfold store, findById. rewrite He', Hm, Get_coords. reflexivity.
Qed.

Lemma _moveToPopup_not_found (st : State) (es : list Entry) (i : string) :
  App_workouts st = store es -> (forall e, In e es -> Entry_id e <> i) ->
  fst (_moveToPopup (Some i) st) = Throw TypeError.
Proof.
  intros Hw Hi.
  unfold _moveToPopup, bind, gets, lift, the_map. cbn [fst snd].
  rewrite Hw. unfold store, findById. rewrite (find_id_none i es Hi).
  destruct (App_map st); reflexivity.
Qed.

Lemma _moveToPopup_no_map (st : State) (es : list Entry) (e : Entry) :
  App_workouts st = store es -> App_map st = None -> In e es ->
  fst (_moveToPopup (Some (Entry_id e)) st) = Throw TypeError.
Proof.
  intros Hw Hm Hin. destruct (find_id_some es e Hin) as [e' He'].
  unfold _moveToPopup, bind, gets, lift, the_map. cbn [fst snd].
  rewrite Hw. unfold store, findById. rewrite He', Hm. reflexivity.
Qed.

(** C7, as amended. Three kinds of error are recovered where they arise and
    throw nothing: a form that fails validation (the message is shown and the
    method returns), a geolocation that is not there or fails (nothing
    happens, the map stays absent), and an absent persisted key (load leaves
    the store empty); a click outside the list and a click on the item of a
    stored entry with the map loaded throw nothing either. The script catches
    no error, though: a lookup that finds no entry throws a TypeError in the
    click handler, so does a click on a list item while the map is absent,
    and malformed persisted text throws a SyntaxError in the constructor. *)
Theorem C7_errors :
  (forall clock st latlng,
     App_mapEvent st = Some latlng ->
     inputType (form st) = "running" \/ inputType (form st) = "cycling" ->
     spec_rejects (form st) = true ->
     fst (_newWorkout clock st) = Normal tt) /\
  (forall geolocation st, fst (_getPosition geolocation st) = Normal tt) /\
  (forall storage kind,
     storage !! "workouts" = None -> fst (load storage kind) = Normal tt) /\
  (forall st, fst (_moveToPopup None st) = Normal tt) /\
  (forall st es m e,
     App_workouts st = store es -> App_map st = Some m -> In e es ->
     fst (_moveToPopup (Some (Entry_id e)) st) = Normal tt) /\
  (forall st es i,
     App_workouts st = store es -> (forall e, In e es -> Entry_id e <> i) ->
     fst (_moveToPopup (Some i) st) = Throw TypeError) /\
  (forall st es e,
     App_workouts st = store es -> App_map st = None -> In e es ->
     fst (_moveToPopup (Some (Entry_id e)) st) = Throw TypeError) /\
  (forall storage kind text e,
     storage !! "workouts" = Some text -> JSON.parse text = Throw e ->
     fst (load storage kind) = Throw SyntaxError).
Proof.
  repeat split.
  - intros clock st latlng Hc Hk Hr.
    rewrite (_newWorkout_rejects clock st latlng Hc Hk Hr). reflexivity.
  - intros [] st; reflexivity.
  - intros storage kind H. rewrite (load_absent storage kind H). reflexivity.
  - intros st es m e. apply _moveToPopup_found.
  - intros st es i. apply _moveToPopup_not_found.
  - intros st es e. apply _moveToPopup_no_map.
  - intros storage kind text e H He.
    rewrite (load_malformed storage kind text e H He). reflexivity.
Qed.

Lemma C7_errors_witness :
  fst (_newWorkout demo_clock (demo_state "running" 0 24 178 0)) = Normal tt /\
  fst (load ∅ "running") = Normal tt /\
  fst (_moveToPopup (Some (Entry_id entry_b)) two_in_one_millisecond) = Normal tt /\
  fst (_moveToPopup (Some "0123456789") two_in_one_millisecond) = Throw TypeError /\
  fst (load {["workouts" := "[1,"]} "running") = Throw SyntaxError.
Proof.
  destruct C7_errors as (Hval & _ & Habsent & _ & Hfound & Hmissing & _ & Hbad).
  split; [| split; [| split; [| split]]].
  - apply (Hval demo_clock (demo_state "running" 0 24 178 0) (45.5, 15.9)%float);
      [reflexivity | left; reflexivity | reflexivity].
  - apply (Habsent ∅ "running"). reflexivity.
  - apply (Hfound two_in_one_millisecond [entry_a; entry_b]
             (mkMap (Arr [Num 45; Num 15]) mapZoomLevel
                [mkMarker (Arr [Num 45.5; Num 15.9]) (Str "running")
                   (Str "Running on November 14");
                 mkMarker (Arr [Num 45.6; Num 15.8]) (Str "cycling")
                   (Str "Cycling on November 14")])
             entry_b);
      [reflexivity | reflexivity | right; left; reflexivity].
  - apply (Hmissing two_in_one_millisecond [entry_a; entry_b] "0123456789");
      [reflexivity|].
    intros e [<- | [<- | []]]; vm_compute; discriminate.
  - apply (Hbad {["workouts" := "[1,"]} "running" "[1," SyntaxError); reflexivity.
Defined.

(** The claim as it stands fails: a click on a list item whose id no entry
    holds throws in the handler, and malformed persisted text makes the
    constructor throw, so the listeners are never registered. *)
Lemma C7_counterexample :
  fst (_moveToPopup (Some "0123456789") two_in_one_millisecond) = Throw TypeError /\
  fst (App_new true (fresh_page {["workouts" := "{"]} "running")) =
    Throw SyntaxError.
Proof. split; vm_compute; reflexivity. Qed.


(** * Further properties of the script *)

(** ** Template literals *)

(** A stored workout whose [type] is an object with a property [toString] of
    its own cannot be written into a template literal: loading it throws
    where the list item is built, and on a page with a map its marker is
    added and then the class name of the popup throws. *)
Example unprintable_type :
  fst (load {["workouts" := double_quoted "[{'coords':[1,2],'type':{'toString':1}}]"]}
         "running") = Throw TypeError /\
  _renderWorkoutMarker
    (Obj Object_prototype
       [("coords", Arr [Num 1; Num 2]);
        ("type", Obj Object_prototype [("toString", Num 1)])])
    (demo_state "running" 0 0 0 0) =
  (Throw TypeError,
   set_map (mkMap (Arr [Num 45; Num 15]) mapZoomLevel
              [mkMarker (Arr [Num 1; Num 2]) Undefined Undefined])
     (demo_state "running" 0 0 0 0)).
Proof. split; vm_compute; reflexivity. Qed.

(** ** A submission, step by step *)

Lemma marker_of_Entry (e : Entry) :
  marker_of (Entry_object e) =
  mkMarker
    (Arr [Num (fst (coords (Entry_super e))); Num (snd (coords (Entry_super e)))])
    (Str (match e with RunningEntry r => Running_type r | CyclingEntry c => Cycling_type c end))
    (Str (match e with
          | RunningEntry r => Running_description r
          | CyclingEntry c => Cycling_description c
          end)).
Proof. destruct e; reflexivity. Qed.

Lemma Entry_is_object (e : Entry) : is_object (Entry_object e).
Proof. destruct e; exact I. Qed.

Lemma marker_of_Get (w w' : jsval) :
  is_object w -> is_object w' ->
  Get w "coords" = Get w' "coords" ->
  Get w "type" = Get w' "type" ->
  Get w "description" = Get w' "description" ->
  marker_of w = marker_of w'.
Proof.
  intros Hw Hw'.
  destruct w as [| | | | | | | p ps]; try destruct Hw.
  destruct w' as [| | | | | | | p' ps']; try destruct Hw'.
  cbn [Get marker_of]. intros Hc Ht Hd. congruence.
Qed.

Lemma marker_of_restored (e : Entry) :
  Entry_survives e -> marker_of (plain (Entry_object e)) = marker_of (Entry_object e).
Proof.
  intros Hs. destruct (plain_Entry_same_data e Hs) as [Hsame _].
  apply marker_of_Get.
  - destruct e; exact I.
  - apply Entry_is_object.
  - apply Hsame. discriminate.
  - apply Hsame. discriminate.
  - apply Hsame. discriminate.
Qed.

(** [_renderWorkoutMarker] on a workout whose kind and description are
    strings, with the map there. *)
Lemma _renderWorkoutMarker_eq (w : jsval) (st : State) (m : LeafletMap)
    (c : jsval) (t d : string) :
  App_map st = Some m ->
  Get w "coords" = Normal c ->
  Get w "type" = Normal (Str t) ->
  Get w "description" = Normal (Str d) ->
  _renderWorkoutMarker w st =
  (Normal tt, set_map (with_marker m (mkMarker c (Str t) (Str d))) st).
Proof.
  intros Hm Hc Ht Hd.
  unfold _renderWorkoutMarker, substitution, bind, lift, the_map, modify, ret.
  rewrite Hc, Hm, Ht, Hd. reflexivity.
Qed.

Lemma _renderWorkoutMarker_Entry (e : Entry) (st : State) (m : LeafletMap) :
  App_map st = Some m ->
  _renderWorkoutMarker (Entry_object e) st =
  (Normal tt, set_map (with_marker m (marker_of (Entry_object e))) st).
Proof.
  intros Hm. rewrite marker_of_Entry.
  apply _renderWorkoutMarker_eq; [exact Hm | | |]; destruct e; reflexivity.
Qed.

Lemma _renderWorkoutMarker_script (w : jsval) (st : State) (m : LeafletMap) :
  script_workout w ->
  App_map st = Some m ->
  _renderWorkoutMarker w st = (Normal tt, set_map (with_marker m (marker_of w)) st).
Proof.
  intros (e & _ & [-> | [Hs ->]]) Hm; [apply _renderWorkoutMarker_Entry; exact Hm|].
  rewrite (marker_of_restored e Hs), marker_of_Entry.
  destruct (plain_Entry_same_data e Hs) as [Hsame _].
  apply _renderWorkoutMarker_eq; [exact Hm | | |];
    (rewrite Hsame by discriminate); destruct e; reflexivity.
Qed.

Lemma script_workout_is_object (w : jsval) : script_workout w -> is_object w.
Proof. intros (e & _ & [-> | [_ ->]]); destruct e; exact I. Qed.

Lemma Entry_object_renderable (clock : Clock) (e : Entry) :
  constructed clock e -> renderable (Entry_object e).
Proof. intros (c & d & t & x & [-> | ->]) st; reflexivity. Qed.

Lemma constructed_new_entry (clock : Clock) (latlng : float * float) (f : Form) :
  constructed clock (new_entry clock latlng f).
Proof.
  unfold new_entry.
  destruct (String.eqb (inputType f) "cycling"); eexists _, _, _, _; [right | left];
    reflexivity.
Qed.

Lemma new_entry_object (clock : Clock) (latlng : float * float) (f : Form) :
  (if String.eqb (inputType f) "cycling"
   then Cycling_object (Cycling_new clock latlng (inputDistance f) (inputDuration f)
                          (inputElevation f))
   else Running_object (Running_new clock latlng (inputDistance f) (inputDuration f)
                          (inputCadence f))) =
  Entry_object (new_entry clock latlng f).
Proof. unfold new_entry. destruct (String.eqb (inputType f) "cycling"); reflexivity. Qed.

(** Appending and rendering an object of one of the classes, on a state with
    an array and a map. *)
Lemma append_and_render_eq (clock : Clock) (e : Entry) (st : State)
    (ws : list jsval) (m : LeafletMap) :
  constructed clock e ->
  App_workouts st = Arr ws ->
  App_map st = Some m ->
  append_and_render (Entry_object e) st =
  (Normal tt,
   mkState
     (Some (mkMap (view_center m) (view_zoom m)
              (markers m ++ [marker_of (Entry_object e)])))
     (App_mapEvent st)
     (Arr (ws ++ [Entry_object e]))
     (<["workouts" := element_text (Arr (ws ++ [Entry_object e]))]> (localStorage st))
     (alerts st)
     (mkForm true (inputType (form st)) 0 0 0 0)
     (Entry_object e :: containerWorkouts st)).
Proof.
  intros Hcon Hws Hm. unfold append_and_render.
  unfold bind at 1. unfold push. rewrite Hws.
  unfold bind at 1.
  rewrite (_renderWorkoutMarker_Entry e _ m) by exact Hm.
  unfold bind at 1. rewrite (Entry_object_renderable clock e Hcon).
  unfold bind, _hideForm, modify. rewrite _setLocalStorage_eq.
  unfold element_text, JSON.stringify. reflexivity.
Qed.

(** X1. A submission that passes validation, with the map there and clicked:
    the entry made of the form is appended to the array, gets a marker at the
    click position after the markers already there, is put first in the
    list, the form is hidden and its four number fields cleared while the
    selected kind stays, and the text of the whole array is stored under the
    one key; no message is shown and nothing is thrown. *)
Theorem newWorkout_accepted (clock : Clock) (st : State) (latlng : float * float)
    (m : LeafletMap) (ws : list jsval) :
  App_mapEvent st = Some latlng ->
  App_map st = Some m ->
  App_workouts st = Arr ws ->
  known_kind (inputType (form st)) ->
  spec_rejects (form st) = false ->
  let w := Entry_object (new_entry clock latlng (form st)) in
  _newWorkout clock st =
  (Normal tt,
   mkState
     (Some (mkMap (view_center m) (view_zoom m)
              (markers m ++
               [mkMarker (Arr [Num (fst latlng); Num (snd latlng)])
                  (Str (inputType (form st)))
                  (Str (_setDescription (inputType (form st))
                          (Workout_new clock latlng (inputDistance (form st))
                             (inputDuration (form st)))))])))
     (Some latlng)
     (Arr (ws ++ [w]))
     (<["workouts" := element_text (Arr (ws ++ [w]))]> (localStorage st))
     (alerts st)
     (mkForm true (inputType (form st)) 0 0 0 0)
     (w :: containerWorkouts st)).
Proof.
  intros Hc Hm Hws Hk Hr w.
  rewrite (_newWorkout_accepts clock st latlng Hc Hk Hr), new_entry_object.
  rewrite (append_and_render_eq clock _ st ws m (constructed_new_entry _ _ _) Hws Hm), Hc.
  fold w. unfold w. rewrite marker_of_Entry. unfold new_entry.
  destruct Hk as [Hk | Hk]; rewrite Hk; reflexivity.
Qed.

Lemma newWorkout_accepted_witness :
  _newWorkout demo_clock (demo_state "running" 5.2 24 178 0) =
  (Normal tt,
   mkState
     (Some (mkMap (Arr [Num 45; Num 15]) mapZoomLevel
              [mkMarker (Arr [Num 45.5; Num 15.9]) (Str "running")
                 (Str "Running on November 14")]))
     (Some (45.5, 15.9)%float)
     (store [entry_a])
     {["workouts" := element_text (store [entry_a])]}
     []
     (mkForm true "running" 0 0 0 0)
     [Entry_object entry_a]).
Proof.
  apply (newWorkout_accepted demo_clock (demo_state "running" 5.2 24 178 0)
           (45.5, 15.9)%float (mkMap (Arr [Num 45; Num 15]) mapZoomLevel []) []);
    try reflexivity.
  left; reflexivity.
Defined.

(** What the rest of a submission does with a value that is no object of the
    two classes: [undefined], which is what [workout] holds when neither kind
    matched. *)
Lemma append_and_render_undefined (st : State) (ws : list jsval) :
  App_workouts st = Arr ws ->
  append_and_render Undefined st =
  (Throw TypeError, set_workouts (Arr (ws ++ [Undefined])) st).
Proof.
  intros Hws. unfold append_and_render, bind, push. rewrite Hws. reflexivity.
Qed.

Lemma append_and_render_no_array (w : jsval) (st : State) :
  (forall ws, App_workouts st <> Arr ws) ->
  append_and_render w st = (Throw TypeError, st).
Proof.
  intros H. unfold append_and_render, bind, push.
  destruct (App_workouts st) eqn:E; try reflexivity.
  exfalso. exact (H _ eq_refl).
Qed.

Lemma append_and_render_no_map (e : Entry) (st : State) (ws : list jsval) :
  App_workouts st = Arr ws ->
  App_map st = None ->
  append_and_render (Entry_object e) st =
  (Throw TypeError, set_workouts (Arr (ws ++ [Entry_object e])) st).
Proof.
  intros Hws Hm. unfold append_and_render, bind, push. rewrite Hws.
  unfold _renderWorkoutMarker, bind, lift, the_map. simpl.
  destruct e; simpl; rewrite Hm; reflexivity.
Qed.

(** The results of [_newWorkout]: the message, a TypeError with nothing
    changed, a TypeError after the push, or everything done. *)
Lemma _newWorkout_result (clock : Clock) (st : State) :
  _newWorkout clock st = alert validation_message st \/
  _newWorkout clock st = (Throw TypeError, st) \/
  exists ws w,
    App_workouts st = Arr ws /\
    (_newWorkout clock st = (Throw TypeError, set_workouts (Arr (ws ++ [w])) st) \/
     exists m,
       App_map st = Some m /\
       _newWorkout clock st =
       (Normal tt,
        mkState
          (Some (mkMap (view_center m) (view_zoom m) (markers m ++ [marker_of w])))
          (App_mapEvent st)
          (Arr (ws ++ [w]))
          (<["workouts" := element_text (Arr (ws ++ [w]))]> (localStorage st))
          (alerts st)
          (mkForm true (inputType (form st)) 0 0 0 0)
          (w :: containerWorkouts st))).
Proof.
  destruct (App_mapEvent st) as [latlng |] eqn:Hc.
  2:{ right; left. exact (_newWorkout_no_click clock st Hc). }
  rewrite (_newWorkout_eq clock st latlng Hc). cbv zeta.
  destruct (String.eqb (inputType (form st)) "running" && _); [left; reflexivity|].
  destruct (String.eqb (inputType (form st)) "cycling" && _); [left; reflexivity|].
  right.
  assert (Hcases :
    (exists e : Entry,
       constructed clock e /\
       (if String.eqb (inputType (form st)) "cycling"
        then Cycling_object (Cycling_new clock latlng (inputDistance (form st))
                               (inputDuration (form st)) (inputElevation (form st)))
        else if String.eqb (inputType (form st)) "running"
        then Running_object (Running_new clock latlng (inputDistance (form st))
                               (inputDuration (form st)) (inputCadence (form st)))
        else Undefined) = Entry_object e) \/
    (if String.eqb (inputType (form st)) "cycling"
     then Cycling_object (Cycling_new clock latlng (inputDistance (form st))
                            (inputDuration (form st)) (inputElevation (form st)))
     else if String.eqb (inputType (form st)) "running"
     then Running_object (Running_new clock latlng (inputDistance (form st))
                            (inputDuration (form st)) (inputCadence (form st)))
     else Undefined) = Undefined).
  { destruct (String.eqb (inputType (form st)) "cycling").
    - left. eexists (CyclingEntry _). split; [| reflexivity].
      eexists _, _, _, _. right. reflexivity.
    - destruct (String.eqb (inputType (form st)) "running").
      + left. eexists (RunningEntry _). split; [| reflexivity].
        eexists _, _, _, _. left. reflexivity.
      + right. reflexivity. }
  destruct (App_workouts st) as [| | | | | | ws |] eqn:Hws;
    try (left; apply append_and_render_no_array;
         intros ws' E; rewrite Hws in E; discriminate E).
  right. destruct Hcases as [(e & Hcon & He) | He]; rewrite He.
  - exists ws, (Entry_object e). split; [reflexivity|].
    destruct (App_map st) as [m |] eqn:Hm.
    + right. exists m. split; [reflexivity|].
      rewrite (append_and_render_eq clock e st ws m Hcon Hws Hm), Hc. reflexivity.
    + left. apply (append_and_render_no_map e st ws Hws Hm).
  - exists ws, Undefined. split; [reflexivity|]. left.
    apply (append_and_render_undefined st ws Hws).
Qed.

(** X2. Every way a submission can end. Either the validation message is
    shown and nothing else changes; or it ends normally, one value has been
    appended to the array and put first in the list, the form is hidden and
    the text stored under the key is the text of the array as it now is; or
    it throws a TypeError (never anything else), and then the list, the map,
    the form, the messages and the storage are as before: at most the array
    has grown by one value, which is then in memory but not in the storage. *)
Theorem newWorkout_outcomes (clock : Clock) (st : State) :
  let r := _newWorkout clock st in
  r = (Normal tt, set_alerts (alerts st ++ [validation_message]) st) \/
  (fst r = Normal tt /\
   (exists ws w,
      App_workouts st = Arr ws /\
      App_workouts (snd r) = Arr (ws ++ [w]) /\
      containerWorkouts (snd r) = w :: containerWorkouts st) /\
   localStorage (snd r) =
     <["workouts" := element_text (App_workouts (snd r))]> (localStorage st) /\
   alerts (snd r) = alerts st /\
   hidden (form (snd r)) = true) \/
  (fst r = Throw TypeError /\
   (snd r = st \/
    exists ws w, App_workouts st = Arr ws /\ snd r = set_workouts (Arr (ws ++ [w])) st)).
Proof.
  cbv zeta.
  destruct (_newWorkout_result clock st)
    as [E | [E | (ws & w & Hws & [E | (m & Hm & E)])]]; rewrite E.
  - left. reflexivity.
  - right; right. split; [reflexivity | left; reflexivity].
  - right; right. split; [reflexivity|]. right. exists ws, w. split; [exact Hws | reflexivity].
  - right; left. cbn [fst snd App_workouts containerWorkouts localStorage alerts form hidden].
    split; [reflexivity|]. split; [| repeat split].
    exists ws, w. repeat split. exact Hws.
Qed.

(** X3. With a kind selected that is neither of the two, a submission checks
    no number at all: whatever the fields hold, [undefined] is appended to
    the array and rendering it throws a TypeError, with no message shown,
    nothing rendered and nothing stored. *)
Theorem newWorkout_unknown_kind (clock : Clock) (st : State) (latlng : float * float)
    (ws : list jsval) :
  App_mapEvent st = Some latlng ->
  App_workouts st = Arr ws ->
  inputType (form st) <> "running" ->
  inputType (form st) <> "cycling" ->
  _newWorkout clock st = (Throw TypeError, set_workouts (Arr (ws ++ [Undefined])) st).
Proof.
  intros Hc Hws Hr Hcy. rewrite (_newWorkout_eq clock st latlng Hc). cbv zeta.
  apply String.eqb_neq in Hr, Hcy. rewrite Hr, Hcy. simpl.
  apply append_and_render_undefined. exact Hws.
Qed.

Lemma newWorkout_unknown_kind_witness :
  _newWorkout demo_clock (demo_state "swimming" nan (-1) 0 infinity) =
  (Throw TypeError,
   set_workouts (Arr [Undefined]) (demo_state "swimming" nan (-1) 0 infinity)).
Proof.
  apply (newWorkout_unknown_kind demo_clock
           (demo_state "swimming" nan (-1) 0 infinity) (45.5, 15.9)%float []);
    [reflexivity | reflexivity | discriminate | discriminate].
Defined.

(** X4. The click position is read before anything is validated: while the
    map has not been clicked, a submission throws a TypeError whatever the
    form holds, valid or not, shows no message and changes nothing. *)
Theorem newWorkout_before_click (clock : Clock) (st : State) :
  App_mapEvent st = None ->
  _newWorkout clock st = (Throw TypeError, st) /\
  fst (_newWorkout clock st) <> fst (alert validation_message st).
Proof.
  intros Hc. rewrite (_newWorkout_no_click clock st Hc). split; [reflexivity|].
  simpl. discriminate.
Qed.

Lemma newWorkout_before_click_witness :
  _newWorkout demo_clock (fresh_page ∅ "running") =
    (Throw TypeError, fresh_page ∅ "running") /\
  fst (_newWorkout demo_clock (fresh_page ∅ "running")) <>
    fst (alert validation_message (fresh_page ∅ "running")).
Proof. apply (newWorkout_before_click demo_clock (fresh_page ∅ "running")). reflexivity. Defined.

(** ** The map *)

Lemma forEach_markers (ws : list jsval) :
  Forall script_workout ws ->
  forall (st : State) (m : LeafletMap),
    App_map st = Some m ->
    forEach_elements (fun work => _renderWorkoutMarker work) ws st =
    (Normal tt,
     set_map (mkMap (view_center m) (view_zoom m) (markers m ++ map marker_of ws)) st).
Proof.
  induction 1 as [| w ws Hw _ IH]; intros st m Hm.
  - cbn [forEach_elements map]. rewrite app_nil_r. unfold ret.
    destruct st as [mp ev wk ls al fm cw]. cbn in Hm. subst mp. destruct m. reflexivity.
  - cbn [forEach_elements]. unfold bind at 1.
    rewrite (_renderWorkoutMarker_script w st m Hw Hm).
    rewrite (IH _ (with_marker m (marker_of w))) by reflexivity.
    unfold with_marker. cbn [map view_center view_zoom markers].
    rewrite <- app_assoc. reflexivity.
Qed.

(** [_loadMap] the first time: the new map, then the markers. *)
Lemma _loadMap_eq (latitude longitude : float) (st : State) :
  App_map st = None ->
  _loadMap latitude longitude st =
  forEach (fun work => _renderWorkoutMarker work) (App_workouts st)
    (set_map (mkMap (Arr [Num latitude; Num longitude]) mapZoomLevel []) st).
Proof. intros Hm. unfold _loadMap, bind, gets. rewrite Hm. reflexivity. Qed.

Lemma _loadMap_again (latitude longitude : float) (st : State) (m : LeafletMap) :
  App_map st = Some m ->
  _loadMap latitude longitude st = (Throw LeafletError, st).
Proof. intros Hm. unfold _loadMap, bind, gets. rewrite Hm. reflexivity. Qed.

(** X5. [_loadMap] when the position arrives, on a page that has no map yet
    and whose array holds workouts of the script's own making (entries the
    constructors made, or what is restored of such entries when their numbers
    are finite and read back): the map is made, the view set to the position
    at zoom level 13, and one marker placed for each workout of the array,
    in the order of the array, from its [coords], [type] and [description].
    Nothing else changes and nothing is thrown. *)
Theorem loadMap_markers (latitude longitude : float) (st : State) (ws : list jsval) :
  App_map st = None ->
  App_workouts st = Arr ws ->
  Forall script_workout ws ->
  _loadMap latitude longitude st =
  (Normal tt,
   set_map (mkMap (Arr [Num latitude; Num longitude]) 13 (map marker_of ws)) st).
Proof.
  intros Hm Hws Hobj. rewrite (_loadMap_eq _ _ _ Hm), Hws. cbn [forEach].
  rewrite (forEach_markers ws Hobj _
             (mkMap (Arr [Num latitude; Num longitude]) mapZoomLevel []))
    by reflexivity.
  reflexivity.
Qed.

Lemma loadMap_markers_witness :
  _loadMap 45 15
    (set_workouts (Arr [plain (Entry_object entry_a); Entry_object entry_b])
       (fresh_page ∅ "running")) =
  (Normal tt,
   set_map (mkMap (Arr [Num 45; Num 15]) 13
              (map marker_of [plain (Entry_object entry_a); Entry_object entry_b]))
     (set_workouts (Arr [plain (Entry_object entry_a); Entry_object entry_b])
        (fresh_page ∅ "running"))).
Proof.
  apply (loadMap_markers 45 15
           (set_workouts (Arr [plain (Entry_object entry_a); Entry_object entry_b])
              (fresh_page ∅ "running"))
           [plain (Entry_object entry_a); Entry_object entry_b]).
  - reflexivity.
  - reflexivity.
  - constructor; [| constructor; [| constructor]].
    + exists entry_a. split; [| right; split; [exact Entry_survives_a | reflexivity]].
      exists demo_clock, (45.5, 15.9)%float, 5.2%float, 24%float, 178%float.
      left. reflexivity.
    + exists entry_b. split; [| left; reflexivity].
      exists demo_clock, (45.6, 15.8)%float, 20%float, 60%float, (-5)%float.
      right. reflexivity.
Defined.

(** X6. When [_loadMap] throws. On a page that has a map already Leaflet
    refuses the second one and nothing changes. On a page without a map the
    map is made before the workouts are looked at: when memory holds a value
    that is no array (as after a load of stored text that is no array) a
    TypeError is thrown with no marker placed, and when the array has a
    [null] after workouts of the script's own making these get their markers
    and the TypeError ends the loop, so the workouts after the [null] get
    none. *)
Theorem loadMap_throws (latitude longitude : float) (st : State) :
  (forall m, App_map st = Some m ->
     _loadMap latitude longitude st = (Throw LeafletError, st)) /\
  (App_map st = None ->
   (forall ws, App_workouts st <> Arr ws) ->
   _loadMap latitude longitude st =
   (Throw TypeError,
    set_map (mkMap (Arr [Num latitude; Num longitude]) 13 []) st)) /\
  (forall before after,
     App_map st = None ->
     App_workouts st = Arr (before ++ Null :: after) ->
     Forall script_workout before ->
     _loadMap latitude longitude st =
     (Throw TypeError,
      set_map (mkMap (Arr [Num latitude; Num longitude]) 13 (map marker_of before)) st)).
Proof.
  split; [| split].
  - intros m Hm. exact (_loadMap_again _ _ st m Hm).
  - intros Hm Hno. rewrite (_loadMap_eq _ _ _ Hm).
    destruct (App_workouts st) as [| | | | | | ws |] eqn:Hws; try reflexivity.
    exfalso. exact (Hno ws eq_refl).
  - intros before after Hm Hws Hobj. rewrite (_loadMap_eq _ _ _ Hm), Hws.
    cbn [forEach]. clear Hws Hm.
    assert (G : forall (s : State) (m : LeafletMap),
               App_map s = Some m ->
               forEach_elements (fun work => _renderWorkoutMarker work)
                 (before ++ Null :: after) s =
               (Throw TypeError,
                set_map (mkMap (view_center m) (view_zoom m)
                           (markers m ++ map marker_of before)) s)).
    { induction Hobj as [| w l Hw _ IH]; intros s m Hm.
      - cbn [app forEach_elements map]. rewrite app_nil_r.
        unfold bind, _renderWorkoutMarker, lift. cbn.
        destruct s as [mp ev wk ls al fm cw]. cbn in Hm. subst mp. destruct m.
        reflexivity.
      - cbn [app forEach_elements]. unfold bind at 1.
        rewrite (_renderWorkoutMarker_script w s m Hw Hm).
        rewrite (IH _ (with_marker m (marker_of w))) by reflexivity.
        unfold with_marker. cbn [map view_center view_zoom markers].
        rewrite <- app_assoc. reflexivity. }
    rewrite (G _ (mkMap (Arr [Num latitude; Num longitude]) mapZoomLevel []))
      by reflexivity.
    reflexivity.
Qed.

Lemma loadMap_throws_witness :
  _loadMap 45 15 (demo_state "running" 5.2 24 178 0) =
    (Throw LeafletError, demo_state "running" 5.2 24 178 0) /\
  _loadMap 45 15 (snd (load {["workouts" := "true"]} "running")) =
    (Throw TypeError,
     set_map (mkMap (Arr [Num 45; Num 15]) 13 [])
       (snd (load {["workouts" := "true"]} "running"))) /\
  _loadMap 45 15
    (set_workouts (Arr ([Entry_object entry_a] ++ Null :: [Entry_object entry_b]))
       (fresh_page ∅ "running")) =
    (Throw TypeError,
     set_map (mkMap (Arr [Num 45; Num 15]) 13 (map marker_of [Entry_object entry_a]))
       (set_workouts (Arr ([Entry_object entry_a] ++ Null :: [Entry_object entry_b]))
          (fresh_page ∅ "running"))).
Proof.
  split; [| split].
  - apply (proj1 (loadMap_throws 45 15 (demo_state "running" 5.2 24 178 0))
             (mkMap (Arr [Num 45; Num 15]) mapZoomLevel [])).
    reflexivity.
  - apply (proj1 (proj2 (loadMap_throws 45 15
                           (snd (load {["workouts" := "true"]} "running"))))).
    + vm_compute. reflexivity.
    + intros ws. vm_compute. discriminate.
  - apply (proj2 (proj2 (loadMap_throws 45 15
                           (set_workouts
                              (Arr ([Entry_object entry_a] ++ Null ::
                                    [Entry_object entry_b]))
                              (fresh_page ∅ "running"))))
             [Entry_object entry_a] [Entry_object entry_b]).
    + reflexivity.
    + reflexivity.
    + constructor; [| constructor].
      exists entry_a. split; [| left; reflexivity].
      exists demo_clock, (45.5, 15.9)%float, 5.2%float, 24%float, 178%float.
      left. reflexivity.
Defined.

(** X7. A click on the list item of an entry, with the map there: the view
    moves to the coordinates of the earliest entry of the array that has this
    id, at zoom level 13, and nothing else changes; the markers stay. *)
Theorem moveToPopup_view (st : State) (m : LeafletMap) (before after : list Entry)
    (e : Entry) :
  App_workouts st = store (before ++ e :: after) ->
  (forall e', In e' before -> Entry_id e' <> Entry_id e) ->
  App_map st = Some m ->
  _moveToPopup (Some (Entry_id e)) st =
  (Normal tt,
   set_map (mkMap (Arr [Num (fst (coords (Entry_super e)));
                        Num (snd (coords (Entry_super e)))])
              13 (markers m)) st).
Proof.
  intros Hws Hfirst Hm.
  unfold _moveToPopup, bind, gets, lift, the_map, modify. cbn [fst snd].
  rewrite Hws. unfold store, findById. rewrite (find_id_first before after e Hfirst).
  rewrite Hm, Get_coords. reflexivity.
Qed.

Lemma moveToPopup_view_witness :
  _moveToPopup (Some (Entry_id entry_a)) two_in_one_millisecond =
  (Normal tt,
   set_map (mkMap (Arr [Num 45.5; Num 15.9]) 13
              [mkMarker (Arr [Num 45.5; Num 15.9]) (Str "running")
                 (Str "Running on November 14");
               mkMarker (Arr [Num 45.6; Num 15.8]) (Str "cycling")
                 (Str "Cycling on November 14")])
     two_in_one_millisecond).
Proof.
  apply (moveToPopup_view two_in_one_millisecond
           (mkMap (Arr [Num 45; Num 15]) mapZoomLevel
              [mkMarker (Arr [Num 45.5; Num 15.9]) (Str "running")
                 (Str "Running on November 14");
               mkMarker (Arr [Num 45.6; Num 15.8]) (Str "cycling")
                 (Str "Cycling on November 14")])
           [] [entry_b] entry_a).
  - vm_compute. reflexivity.
  - intros e' [].
  - vm_compute. reflexivity.
Defined.

(** What [_moveToPopup] leaves as it was. *)
Lemma _moveToPopup_workouts el : preserves App_workouts (_moveToPopup el).
Proof. unfold _moveToPopup. preserve. Qed.

Lemma _moveToPopup_form el : preserves form (_moveToPopup el).
Proof. unfold _moveToPopup. preserve. Qed.

Lemma _moveToPopup_list el : preserves containerWorkouts (_moveToPopup el).
Proof. unfold _moveToPopup. preserve. Qed.

Lemma _moveToPopup_mapEvent el : preserves App_mapEvent (_moveToPopup el).
Proof. unfold _moveToPopup. preserve. Qed.

Lemma _moveToPopup_map el (st : State) :
  (markers <$> App_map (snd (_moveToPopup el st))) = (markers <$> App_map st).
Proof.
  destruct el as [i |]; [| reflexivity].
  unfold _moveToPopup, bind, gets, lift, the_map, modify. cbn [fst snd].
  destruct (findById i (App_workouts st)) as [v | e]; [| reflexivity].
  destruct (App_map st) as [m |] eqn:Hm; [| cbn [snd]; rewrite Hm; reflexivity].
  destruct (Get v "coords"); cbn [snd]; [reflexivity | rewrite Hm; reflexivity].
Qed.

(** X8. Whatever is clicked in the list, whatever the state and however
    the click handler ends, it changes nothing but the view of the map: the
    array, the storage, the messages, the form, the list, the click position
    and the markers are as before. A click outside every list item changes
    nothing at all. *)
Theorem moveToPopup_frame (workoutElement : option string) (st : State) :
  let r := _moveToPopup workoutElement st in
  App_workouts (snd r) = App_workouts st /\
  localStorage (snd r) = localStorage st /\
  alerts (snd r) = alerts st /\
  form (snd r) = form st /\
  containerWorkouts (snd r) = containerWorkouts st /\
  App_mapEvent (snd r) = App_mapEvent st /\
  (markers <$> App_map (snd r)) = (markers <$> App_map st) /\
  _moveToPopup None st = (Normal tt, st).
Proof.
  cbv zeta.
  assert (Hs : preserves localStorage (_moveToPopup workoutElement))
    by (unfold _moveToPopup; preserve).
  assert (Ha : preserves alerts (_moveToPopup workoutElement))
    by (unfold _moveToPopup; preserve).
  rewrite _moveToPopup_workouts, Hs, Ha, _moveToPopup_form, _moveToPopup_list,
    _moveToPopup_mapEvent, _moveToPopup_map.
  repeat split; reflexivity.
Qed.

(** ** The constructor and the storage *)

Lemma _getLocalStorage_alerts : preserves alerts _getLocalStorage.
Proof.
  unfold _getLocalStorage, getItem. preserve.
  apply preserves_forEach. intros w. apply _renderWorkout_alerts.
Qed.

Lemma _loadMap_alerts latitude longitude :
  preserves alerts (_loadMap latitude longitude).
Proof.
  unfold _loadMap. preserve.
  apply preserves_forEach. intros w. apply _renderWorkoutMarker_alerts.
Qed.

(** X9. Where the browser has geolocation, the constructor shows the message
    that the position could not be got, once and at once, before any position
    has been asked for: [_alertMessage] is called where its result is handed
    over as the error callback. The message is there whatever the storage
    holds, also when the constructor then throws, and it stays when the
    position arrives and the map is loaded. Without geolocation no message
    is shown. *)
Theorem constructor_alert (geolocation : bool) (storage : gmap string string)
    (kind : string) (latitude longitude : float) :
  let st := snd (App_new geolocation (fresh_page storage kind)) in
  alerts st = (if geolocation then ["Could not get your position."] else []) /\
  alerts (snd (_loadMap latitude longitude st)) = alerts st.
Proof.
  cbn zeta. split; [| apply _loadMap_alerts].
  unfold App_new, bind, _getPosition.
  destruct geolocation; cbn [_alertMessage alert modify ret fst snd].
  - rewrite _getLocalStorage_alerts. reflexivity.
  - rewrite _getLocalStorage_alerts. reflexivity.
Qed.

(** ** The one key of the storage *)

Lemma _loadMap_storage latitude longitude :
  preserves localStorage (_loadMap latitude longitude).
Proof.
  unfold _loadMap. preserve.
  apply preserves_forEach. intros w. unfold _renderWorkoutMarker. preserve.
Qed.

Lemma _showForm_storage latlng : preserves localStorage (_showForm latlng).
Proof. unfold _showForm. preserve. Qed.

Lemma _moveToPopup_storage workoutElement :
  preserves localStorage (_moveToPopup workoutElement).
Proof. unfold _moveToPopup. preserve. Qed.

Lemma _newWorkout_other_keys (clock : Clock) (st : State) (k : string) :
  k <> "workouts" ->
  localStorage (snd (_newWorkout clock st)) !! k = localStorage st !! k.
Proof.
  intros Hk.
  destruct (_newWorkout_result clock st)
    as [E | [E | (ws & w & _ & [E | (m & _ & E)])]]; rewrite E; try reflexivity.
  apply lookup_insert_ne. congruence.
Qed.

Lemma _getLocalStorage_storage : preserves localStorage _getLocalStorage.
Proof.
  unfold _getLocalStorage, getItem. preserve.
  apply preserves_forEach. intros w. apply _renderWorkout_storage.
Qed.

Lemma handle_other_keys (ev : Event) (st : State) (k : string) :
  k <> "workouts" ->
  localStorage (snd (handle ev st)) !! k = localStorage st !! k.
Proof.
  intros Hk. destruct ev; cbn [handle].
  - rewrite _loadMap_storage. reflexivity.
  - destruct (App_map st); [rewrite _showForm_storage|]; reflexivity.
  - reflexivity.
  - apply _newWorkout_other_keys. exact Hk.
  - rewrite _moveToPopup_storage. reflexivity.
Qed.

(** X10. The script touches one key of the storage only. Whatever the
    events and whatever is stored, every other key holds after any sequence
    of events, after the constructor and after [reset] what it held
    before. *)
Theorem other_keys_untouched (k : string) (events : list Event) (st : State)
    (geolocation : bool) :
  k <> "workouts" ->
  localStorage (run events st) !! k = localStorage st !! k /\
  localStorage (snd (App_new geolocation st)) !! k = localStorage st !! k /\
  localStorage (snd (reset geolocation st)) !! k = localStorage st !! k.
Proof.
  intros Hk. split; [| split].
  - revert st. induction events as [| ev events IH]; intros st; [reflexivity|].
    cbn [run]. rewrite IH. apply handle_other_keys. exact Hk.
  - unfold App_new, bind, _getPosition.
    destruct geolocation; cbn [_alertMessage alert modify ret fst snd];
      rewrite _getLocalStorage_storage; reflexivity.
  - unfold reset, bind, removeItem, modify, location_reload, App_new, _getPosition.
    cbn [fst snd].
    destruct geolocation; cbn [_alertMessage alert modify ret bind fst snd];
      rewrite _getLocalStorage_storage; cbn [localStorage fresh_page set_alerts set_localStorage];
      apply lookup_delete_ne; congruence.
Qed.

Lemma other_keys_untouched_witness :
  localStorage
    (run [position 45 15; map_click (45.5, 15.9)%float;
          typing "running" 5.2 24 178 0; submit demo_clock]
       (fresh_page {["theme" := "dark"]} "running")) !! "theme" =
    localStorage (fresh_page {["theme" := "dark"]} "running") !! "theme" /\
  localStorage (snd (App_new true (fresh_page {["theme" := "dark"]} "running"))) !! "theme" =
    localStorage (fresh_page {["theme" := "dark"]} "running") !! "theme" /\
  localStorage (snd (reset true (fresh_page {["theme" := "dark"]} "running"))) !! "theme" =
    localStorage (fresh_page {["theme" := "dark"]} "running") !! "theme".
Proof.
  apply (other_keys_untouched "theme"
           [position 45 15; map_click (45.5, 15.9)%float;
            typing "running" 5.2 24 178 0; submit demo_clock]
           (fresh_page {["theme" := "dark"]} "running") true).
  discriminate.
Defined.

(** ** The rows of the form *)



(** ** The description *)

(** X12. The description of an entry is the capitalised kind, the English
    name of the month the local clock shows and the day of the month:
    [Running on <month> <day>] or [Cycling on <month> <day>]. It depends on
    nothing else: not on the numbers of the form, the click position or the
    millisecond. *)
Theorem description_format (clock : Clock) (coords : float * float)
    (distance duration metric : float) :
  (getMonth (new_Date clock) < 12)%nat ->
  exists month,
    In month months /\
    nth_error months (getMonth (new_Date clock)) = Some month /\
    Running_description (Running_new clock coords distance duration metric) =
      "Running on " ++ month ++ " " ++ Z_to_string (getDate (new_Date clock)) /\
    Cycling_description (Cycling_new clock coords distance duration metric) =
      "Cycling on " ++ month ++ " " ++ Z_to_string (getDate (new_Date clock)).
Proof.
  intros Hm.
  unfold Running_new, Cycling_new, _setDescription, Workout_new.
  cbn [Running_description Cycling_description date].
  destruct (getMonth (new_Date clock))
    as [|[|[|[|[|[|[|[|[|[|[|[| n]]]]]]]]]]]];
    try (eexists; (split; [| split; [reflexivity | split; reflexivity]]);
         cbn; tauto).
  exfalso. lia.
Qed.

Lemma description_format_witness :
  exists month,
    In month months /\
    nth_error months (getMonth (new_Date demo_clock)) = Some month /\
    Running_description (Running_new demo_clock (45.5, 15.9)%float 5.2 24 178) =
      "Running on " ++ month ++ " " ++ Z_to_string (getDate (new_Date demo_clock)) /\
    Cycling_description (Cycling_new demo_clock (45.5, 15.9)%float 5.2 24 178) =
      "Cycling on " ++ month ++ " " ++ Z_to_string (getDate (new_Date demo_clock)).
Proof.
  apply (description_format demo_clock (45.5, 15.9)%float 5.2 24 178).
  cbn. lia.
Defined.

(** ** Ids *)

Lemma digit_inj (a b : Z) :
  0 <= a < 10 -> 0 <= b < 10 -> digit a = digit b -> a = b.
Proof.
  intros Ha Hb.
  assert (Ea : a = 0 \/ a = 1 \/ a = 2 \/ a = 3 \/ a = 4 \/ a = 5 \/ a = 6 \/ a = 7 \/
               a = 8 \/ a = 9) by lia.
  assert (Eb : b = 0 \/ b = 1 \/ b = 2 \/ b = 3 \/ b = 4 \/ b = 5 \/ b = 6 \/ b = 7 \/
               b = 8 \/ b = 9) by lia.
  repeat (destruct Ea as [-> | Ea]); try subst a;
    repeat (destruct Eb as [-> | Eb]); try subst b;
    intros E; try reflexivity; vm_compute in E; discriminate E.
Qed.

Lemma app_last_inj (a b : string) (x y : ascii) :
  (a ++ String x "")%string = (b ++ String y "")%string -> a = b /\ x = y.
Proof.
  revert b. induction a as [| c a IH]; intros [| d b] E.
  - rewrite !string_app_nil_l in E. inversion E. split; reflexivity.
  - rewrite string_app_nil_l, string_app_cons in E. inversion E as [[Hc Hrest]].
    destruct b; rewrite ?string_app_nil_l, ?string_app_cons in Hrest; discriminate Hrest.
  - rewrite string_app_nil_l, string_app_cons in E. inversion E as [[Hc Hrest]].
    destruct a; rewrite ?string_app_nil_l, ?string_app_cons in Hrest; discriminate Hrest.
  - rewrite !string_app_cons in E. inversion E as [[Hc Hrest]].
    destruct (IH b Hrest) as [-> ->]. split; reflexivity.
Qed.

Lemma mod_pow10_succ (k : nat) (a : Z) :
  a mod 10 ^ Z.of_nat (S k) = a mod 10 + 10 * ((a / 10) mod 10 ^ Z.of_nat k).
Proof.
  rewrite Nat2Z.inj_succ, Z.pow_succ_r by lia.
  apply Z.rem_mul_r; [lia|]. apply Z.pow_pos_nonneg; lia.
Qed.

(** The last [k] digits are equal exactly when the numbers are congruent
    modulo [10^k]. *)
Lemma last_digits_eq_iff (k : nat) : forall a b,
  last_digits k a = last_digits k b <-> a mod 10 ^ Z.of_nat k = b mod 10 ^ Z.of_nat k.
Proof.
  induction k as [| k IH]; intros a b.
  - cbn [last_digits]. change (10 ^ Z.of_nat 0) with 1. rewrite !Z.mod_1_r. tauto.
  - cbn [last_digits]. rewrite !mod_pow10_succ.
    pose proof (Z.mod_pos_bound a 10 ltac:(lia)) as Ha.
    pose proof (Z.mod_pos_bound b 10 ltac:(lia)) as Hb.
    split.
    + intros E. apply app_last_inj in E as [E1 E2].
      apply IH in E1. apply digit_inj in E2; [| exact Ha | exact Hb]. lia.
    + intros E.
      assert (E2 : a mod 10 = b mod 10) by lia.
      assert (E1 : (a / 10) mod 10 ^ Z.of_nat k = (b / 10) mod 10 ^ Z.of_nat k) by lia.
      apply IH in E1. rewrite E1, E2. reflexivity.
Qed.

(** X13. The id of a workout made at a timestamp of ten digits or more has
    exactly ten characters, and two workouts have the same id exactly when
    their timestamps agree modulo 10^10 milliseconds: within any span shorter
    than that (about 115 days) different milliseconds give different ids, and
    a timestamp 10^10 ms later gives the same id again. *)
Theorem id_collisions (clock1 clock2 : Clock) (coords1 coords2 : float * float)
    (distance1 duration1 distance2 duration2 : float) :
  10 ^ 9 <= Date_now clock1 ->
  10 ^ 9 <= Date_now clock2 ->
  let w1 := Workout_new clock1 coords1 distance1 duration1 in
  let w2 := Workout_new clock2 coords2 distance2 duration2 in
  String.length (id w1) = 10%nat /\
  (id w1 = id w2 <-> Date_now clock1 mod 10 ^ 10 = Date_now clock2 mod 10 ^ 10).
Proof.
  intros H1 H2 w1 w2. subst w1 w2.
  rewrite !id_last_digits by assumption.
  split; [apply length_last_digits|].
  apply (last_digits_eq_iff 10).
Qed.

Lemma id_collisions_witness :
  String.length (id (Workout_new demo_clock (45.5, 15.9)%float 5.2 24)) = 10%nat /\
  (id (Workout_new demo_clock (45.5, 15.9)%float 5.2 24) =
   id (Workout_new (mkClock demo_date (1700000000123 + 10 ^ 10)) (45.6, 15.8)%float 20 60) <->
   Date_now demo_clock mod 10 ^ 10 =
   Date_now (mkClock demo_date (1700000000123 + 10 ^ 10)) mod 10 ^ 10).
Proof.
  apply (id_collisions demo_clock (mkClock demo_date (1700000000123 + 10 ^ 10))
           (45.5, 15.9)%float (45.6, 15.8)%float 5.2 24 20 60);
    vm_compute; discriminate.
Defined.

(** ** Saving what was restored *)

Lemma plain_defined (v : jsval) : plain v <> Undefined.
Proof.
  destruct v; cbn [plain]; try discriminate.
  destruct (Number.isFinite x); discriminate.
Qed.

Lemma serialize_defined (v : jsval) :
  v <> Undefined -> JSON.SerializeJSONProperty v = Some (element_text v).
Proof.
  intros H. destruct v; try reflexivity. exfalso. apply H. reflexivity.
Qed.

Lemma written_all (ps : list (string * jsval)) :
  Forall (fun kv => snd kv <> Undefined) ps -> written ps = ps.
Proof.
  induction 1 as [| [k e] ps He _ IH]; [reflexivity|].
  unfold written in *. cbn [List.filter snd] in *.
  destruct e; try (rewrite IH; reflexivity). exfalso. apply He. reflexivity.
Qed.

Lemma written_of_plain (ps : list (string * jsval)) :
  written (map (fun kv => (fst kv, plain (snd kv))) ps) =
  map (fun kv => (fst kv, plain (snd kv))) ps.
Proof.
  apply written_all. induction ps as [| kv ps IH]; constructor;
    [apply plain_defined | exact IH].
Qed.

(** The text of what is read back is the text that was written. *)
Lemma element_text_plain : forall v, element_text (plain v) = element_text v.
Proof.
  induction v as [| | b | x | s | d | l IH | p ps IH] using jsval_nested_ind;
    try reflexivity.
  - cbn [plain]. unfold element_text. cbn [JSON.SerializeJSONProperty].
    destruct (Number.isFinite x) eqn:E; cbn [JSON.SerializeJSONProperty];
      rewrite ?E; reflexivity.
  - cbn [plain]. rewrite !element_text_Arr. f_equal. f_equal. f_equal.
    rewrite map_map. induction IH as [| e l He _ IHl]; [reflexivity|].
    cbn [map]. rewrite He, IHl. reflexivity.
  - cbn [plain]. rewrite written_plain, !element_text_Obj, written_of_plain.
    f_equal. f_equal. f_equal. rewrite map_map.
    apply written_Forall in IH.
    induction IH as [| kv l He _ IHl]; [reflexivity|].
    cbn [map]. rewrite IHl. f_equal.
    unfold member_text. cbn [fst snd]. rewrite He. reflexivity.
Qed.

Lemma plain_idempotent : forall v, plain (plain v) = plain v.
Proof.
  induction v as [| | b | x | s | d | l IH | p ps IH] using jsval_nested_ind;
    try reflexivity.
  - cbn [plain]. destruct (Number.isFinite x) eqn:E; cbn [plain]; rewrite ?E; reflexivity.
  - cbn [plain]. f_equal. rewrite map_map.
    induction IH as [| e l He _ IHl]; [reflexivity|].
    cbn [map]. rewrite He, IHl. reflexivity.
  - cbn [plain]. f_equal. rewrite !written_plain, written_of_plain, map_map.
    apply written_Forall in IH.
    induction IH as [| kv l He _ IHl]; [reflexivity|].
    cbn [map fst snd] in *. rewrite He. f_equal. exact IHl.
Qed.

Lemma storable_plain : forall v, storable v -> storable (plain v).
Proof.
  induction v as [| | b | x | s | d | l IH | p ps IH] using jsval_nested_ind;
    try (intros _; exact I).
  - intros H. cbn [plain]. destruct (Number.isFinite x); [exact H | exact I].
  - intros H. cbn [plain]. apply storable_Arr. apply storable_Arr in H.
    induction IH as [| e l He _ IHl]; [constructor|].
    inversion_clear H. cbn [map]. constructor; [apply He; assumption | apply IHl; assumption].
  - intros H. cbn [plain]. rewrite written_plain.
    apply storable_Obj in H as [[Hnodup Hidx] Hall].
    apply storable_Obj. split.
    + unfold keys_storable. rewrite written_of_plain, map_fst_plain. split; assumption.
    + apply written_Forall in IH. apply written_Forall in Hall.
      clear Hnodup Hidx.
      induction IH as [| kv l He _ IHl]; [constructor|].
      inversion_clear Hall. cbn [map]. constructor; [apply He; assumption | apply IHl; assumption].
Qed.

Lemma session_store_storable (restored added : list Entry) :
  Forall Entry_survives restored -> Forall Entry_survives added ->
  storable (session_store restored added).
Proof.
  intros Hr Ha. unfold session_store. apply storable_Arr. apply Forall_app. split.
  - induction Hr as [| e l He _ IH]; [constructor|]. cbn [map].
    constructor; [apply storable_plain, Entry_object_storable; exact He | exact IH].
  - induction Ha as [| e l He _ IH]; [constructor|]. cbn [map].
    constructor; [apply Entry_object_storable; exact He | exact IH].
Qed.

Lemma plain_session_store (restored added : list Entry) :
  plain (session_store restored added) = session_store (restored ++ added) [].
Proof.
  unfold session_store. cbn [plain map]. rewrite app_nil_r. f_equal.
  rewrite !map_app, !map_map. f_equal.
  apply map_ext. intros e. apply plain_idempotent.
Qed.

(** What [load] finds after [save] in a later session. *)
Lemma load_save_session (restored added : list Entry) (st : State) (kind : string) :
  App_workouts st = session_store restored added ->
  Forall (fun e => (exists clock, constructed clock e) /\ Entry_survives e)
    (restored ++ added) ->
  load (localStorage (save st)) kind =
  (Normal tt,
   mkState None None (session_store (restored ++ added) [])
     (localStorage (save st)) [] (mkForm true kind 0 0 0 0)
     (rev (map (fun e => plain (Entry_object e)) (restored ++ added)))).
Proof.
  intros Hw Hes.
  assert (Hsurv : Forall Entry_survives (restored ++ added)).
  { clear -Hes. induction Hes as [| e l [_ He] _ IH]; [constructor|].
    constructor; assumption. }
  apply Forall_app in Hsurv as [Hr Ha].
  assert (Htext : JSON.stringify (session_store restored added) =
                  Some (element_text (session_store restored added))) by reflexivity.
  pose proof (parse_stringify _ _ (session_store_storable restored added Hr Ha) Htext)
    as Hparse.
  unfold load. rewrite _getLocalStorage_eq.
  unfold save. rewrite _setLocalStorage_eq. cbn [snd fresh_page localStorage].
  cbn [set_localStorage localStorage]. rewrite lookup_insert_eq.
  rewrite Hw, Htext, Hparse, plain_session_store.
  unfold session_store at 1 2. cbn [map]. rewrite app_nil_r.
  cbn [ToBoolean forEach].
  rewrite forEach_renderable.
  - cbn [containerWorkouts set_workouts]. rewrite app_nil_r.
    unfold session_store. cbn [map]. rewrite app_nil_r. reflexivity.
  - clear -Hes. induction Hes as [| e l [[clock Hc] He] _ IH]; cbn [map];
      [constructor|].
    constructor; [eapply plain_Entry_renderable; eassumption | exact IH].
Qed.

Lemma session_store_storable_objects (restored added : list Entry) :
  Forall (fun e => storable (Entry_object e)) (restored ++ added) ->
  storable (session_store restored added).
Proof.
  intros H. apply Forall_app in H as [Hr Ha].
  unfold session_store. apply storable_Arr. apply Forall_app. split.
  - induction Hr as [| e l He _ IH]; [constructor|]. cbn [map].
    constructor; [apply storable_plain; exact He | exact IH].
  - induction Ha as [| e l He _ IH]; [constructor|]. cbn [map].
    constructor; [exact He | exact IH].
Qed.

Lemma entry_overflow_storable : storable (Entry_object entry_overflow).
Proof.
  apply storable_Obj. split; [split|].
  - cbn. repeat constructor; cbn; intuition discriminate.
  - cbn. repeat constructor.
  - repeat constructor; cbn [snd]; try exact I;
      try (apply storable_Arr; repeat constructor);
      try (vm_compute; reflexivity);
      match goal with
      | H : Number.isFinite _ = true |- _ => vm_compute in H; discriminate H
      end.
Qed.

(** X14. Saving is stable under a reload. When memory holds entries made by
    the constructors (as they are, or restored), each of whose finite numbers
    is read back from its numeral, then after save and load memory holds
    what [JSON.parse] gave of the stored text, whether or not rendering it
    then threw, and saving that writes the very same text. A number that is
    not finite, such as a pace or speed that overflowed, is allowed: it is
    stored as [null] and stays [null]. *)
Theorem save_restored_same_text (restored added : list Entry) (st : State)
    (kind : string) :
  App_workouts st = session_store restored added ->
  Forall (fun e => (exists clock, constructed clock e) /\ storable (Entry_object e))
    (restored ++ added) ->
  let page := snd (load (localStorage (save st)) kind) in
  (exists text,
     localStorage (save st) !! "workouts" = Some text /\
     JSON.parse text = Normal (App_workouts page)) /\
  localStorage (save page) = localStorage (save st).
Proof.
  intros Hw Hes page.
  assert (Hst : storable (session_store restored added)).
  { apply session_store_storable_objects. clear -Hes.
    induction Hes as [| e l [_ He] _ IH]; constructor; assumption. }
  assert (Htext : JSON.stringify (session_store restored added) =
                  Some (element_text (session_store restored added))) by reflexivity.
  pose proof (parse_stringify _ _ Hst Htext) as Hparse.
  assert (Hsaved : localStorage (save st) =
                   <["workouts" := element_text (session_store restored added)]>
                     (localStorage st)).
  { unfold save. rewrite _setLocalStorage_eq, Hw, Htext. reflexivity. }
  assert (Hpage : App_workouts page = plain (session_store restored added) /\
                  localStorage page = localStorage (save st)).
  { subst page. unfold load. split; [| rewrite _getLocalStorage_storage; reflexivity].
    rewrite _getLocalStorage_eq. cbn [fresh_page localStorage].
    rewrite Hsaved, lookup_insert_eq, Hparse.
    assert (Htrue : ToBoolean (plain (session_store restored added)) = true)
      by reflexivity.
    rewrite Htrue.
    rewrite (preserves_forEach App_workouts (fun w => _renderWorkout w)
               (plain (session_store restored added)) _renderWorkout_workouts).
    reflexivity. }
  destruct Hpage as [Hmem Hls]. split.
  - exists (element_text (session_store restored added)). split.
    + rewrite Hsaved. apply lookup_insert_eq.
    + rewrite Hmem. exact Hparse.
  - unfold save at 1. rewrite _setLocalStorage_eq. cbn [snd set_localStorage localStorage].
    rewrite Hls, Hmem, Hsaved, insert_insert_eq.
    change (match JSON.stringify (plain (session_store restored added)) with
            | Some text => text
            | None => "undefined"
            end) with (element_text (plain (session_store restored added))).
    rewrite element_text_plain. reflexivity.
Qed.

Lemma save_restored_same_text_witness :
  (exists text,
     localStorage (save (set_workouts (session_store [entry_a] [entry_overflow])
                           (fresh_page ∅ "running"))) !! "workouts" = Some text /\
     JSON.parse text =
     Normal (App_workouts
               (snd (load (localStorage
                             (save (set_workouts (session_store [entry_a] [entry_overflow])
                                      (fresh_page ∅ "running")))) "running")))) /\
  localStorage
    (save (snd (load (localStorage
                        (save (set_workouts (session_store [entry_a] [entry_overflow])
                                 (fresh_page ∅ "running")))) "running"))) =
  localStorage (save (set_workouts (session_store [entry_a] [entry_overflow])
                        (fresh_page ∅ "running"))).
Proof.
  apply (save_restored_same_text [entry_a] [entry_overflow]
           (set_workouts (session_store [entry_a] [entry_overflow])
              (fresh_page ∅ "running")) "running").
  - reflexivity.
  - constructor; [split | constructor; [split | constructor]].
    + exists demo_clock, (45.5, 15.9)%float, 5.2%float, 24%float, 178%float.
      left. reflexivity.
    + apply Entry_object_storable. exact Entry_survives_a.
    + exists demo_clock, (45.5, 15.9)%float, 1e-300%float, 1e300%float, 170%float.
      left. reflexivity.
    + exact entry_overflow_storable.
Defined.

(** X15. Entries accumulate over the sessions. When memory holds entries
    restored at page load followed by entries appended since (all made by the
    constructors, with numbers that are finite and read back), save followed
    by load ends normally and restores all of them in the same order, the
    restored ones unchanged by the further round trip and the new ones as
    plain objects, and lists them last to first. *)
Theorem reload_accumulates (restored added : list Entry) (st : State) (kind : string) :
  App_workouts st = session_store restored added ->
  Forall (fun e => (exists clock, constructed clock e) /\ Entry_survives e)
    (restored ++ added) ->
  let r := load (localStorage (save st)) kind in
  fst r = Normal tt /\
  App_workouts (snd r) =
    Arr (map (fun e => plain (Entry_object e)) restored ++
         map (fun e => plain (Entry_object e)) added) /\
  containerWorkouts (snd r) =
    rev (map (fun e => plain (Entry_object e)) (restored ++ added)) /\
  Forall2 same_data
    (map (fun e => plain (Entry_object e)) (restored ++ added)) (restored ++ added).
Proof.
  intros Hw Hes r. subst r. rewrite (load_save_session restored added st kind Hw Hes).
  cbn [fst snd App_workouts containerWorkouts].
  split; [reflexivity|]. split; [| split; [reflexivity|]].
  - unfold session_store. cbn [map]. rewrite app_nil_r, map_app. reflexivity.
  - clear -Hes. induction Hes as [| e l [_ He] _ IH]; cbn [map]; constructor;
      [apply plain_Entry_same_data; exact He | exact IH].
Qed.

Lemma reload_accumulates_witness :
  fst (load (localStorage (save (set_workouts (session_store [entry_a] [entry_b])
                                   (fresh_page ∅ "running")))) "cycling") = Normal tt /\
  App_workouts
    (snd (load (localStorage (save (set_workouts (session_store [entry_a] [entry_b])
                                      (fresh_page ∅ "running")))) "cycling")) =
    Arr (map (fun e => plain (Entry_object e)) [entry_a] ++
         map (fun e => plain (Entry_object e)) [entry_b]) /\
  containerWorkouts
    (snd (load (localStorage (save (set_workouts (session_store [entry_a] [entry_b])
                                      (fresh_page ∅ "running")))) "cycling")) =
    rev (map (fun e => plain (Entry_object e)) ([entry_a] ++ [entry_b])) /\
  Forall2 same_data
    (map (fun e => plain (Entry_object e)) ([entry_a] ++ [entry_b]))
    ([entry_a] ++ [entry_b]).
Proof.
  apply (reload_accumulates [entry_a] [entry_b]
           (set_workouts (session_store [entry_a] [entry_b]) (fresh_page ∅ "running"))
           "cycling").
  - reflexivity.
  - constructor; [split; [| exact Entry_survives_a] |].
    { exists demo_clock, (45.5, 15.9)%float, 5.2%float, 24%float, 178%float.
      left. reflexivity. }
    constructor; [split; [| exact Entry_survives_b] | constructor].
    exists demo_clock, (45.6, 15.8)%float, 20%float, 60%float, (-5)%float.
    right. reflexivity.
Defined.

(** ** The page over a session *)

Lemma in_sync_saved (st : State) (ws : list jsval) (ls : gmap string string) :
  App_workouts st = Arr ws ->
  localStorage st = <["workouts" := element_text (Arr ws)]> ls ->
  in_sync st.
Proof.
  intros Hws Hls. unfold in_sync. rewrite Hls, lookup_insert_eq, Hws. reflexivity.
Qed.

(** A listener keeps the page consistent, however it ends. *)
Lemma handle_consistent (ev : Event) (st : State) :
  chooses_known_kind ev -> consistent st -> consistent (snd (handle ev st)).
Proof.
  intros Hev (ws & Hws & Hobj & Hlist & Hmarkers & Hclick & Hkind & Hsync).
  destruct ev as [lat lng | latlng | kind d t c e | clock | el]; cbn [handle].
  - destruct (App_map st) as [m0 |] eqn:Hm0.
    + rewrite (_loadMap_again lat lng st m0 Hm0). cbn [snd].
      exists ws. rewrite Hm0. repeat split; assumption.
    + rewrite (_loadMap_eq lat lng st Hm0), Hws. cbn [forEach].
      rewrite (forEach_markers ws Hobj _ (mkMap (Arr [Num lat; Num lng]) mapZoomLevel []))
        by reflexivity.
      cbn [snd].
      exists ws. repeat split; try assumption.
      * intros m Hm. cbn in Hm. inversion Hm. reflexivity.
      * intros Hm. cbn in Hm. discriminate Hm.
  - destruct (App_map st) as [m |] eqn:Hm.
    + unfold _showForm, bind, modify. cbn [fst snd].
      exists ws. repeat split; try assumption.
      * intros m' Hm'. cbn in Hm'. apply Hmarkers. congruence.
      * intros Hm'. cbn in Hm'. congruence.
    + exists ws. cbn [snd]. rewrite Hm. repeat split; assumption.
  - unfold type_in, modify. cbn [snd].
    exists ws. repeat split; assumption.
  - destruct (App_mapEvent st) as [latlng |] eqn:Hc.
    2:{ rewrite (_newWorkout_no_click clock st Hc). cbn [snd].
        exists ws. rewrite Hc. repeat split; assumption. }
    destruct (App_map st) as [m |] eqn:Hm.
    2:{ specialize (Hclick eq_refl). discriminate Hclick. }
    destruct (spec_rejects (form st)) eqn:Hr.
    + rewrite (_newWorkout_rejects clock st latlng Hc Hkind Hr).
      unfold alert, modify. cbn [snd].
      exists ws. repeat split; try assumption.
      * intros m' Hm'. cbn in Hm'. apply Hmarkers. congruence.
      * intros Hm'. cbn in Hm'. congruence.
    + rewrite (_newWorkout_accepts clock st latlng Hc Hkind Hr), new_entry_object.
      rewrite (append_and_render_eq clock _ st ws m (constructed_new_entry _ _ _) Hws Hm).
      cbn [snd].
      exists (ws ++ [Entry_object (new_entry clock latlng (form st))])%list.
      split; [reflexivity|]. split; [| split; [| split; [| split; [| split]]]].
      * apply Forall_app. split; [exact Hobj|]. constructor; [| constructor].
        exists (new_entry clock latlng (form st)).
        split; [exists clock; apply constructed_new_entry | left; reflexivity].
      * cbn [containerWorkouts]. rewrite Hlist, rev_app_distr. reflexivity.
      * intros m' Hm'. cbn in Hm'. inversion Hm'. cbn [markers].
        rewrite (Hmarkers m eq_refl), map_app. reflexivity.
      * intros Hm'. cbn in Hm'. discriminate Hm'.
      * exact Hkind.
      * eapply in_sync_saved; reflexivity.
  - pose proof (_moveToPopup_map el st) as Fm.
    exists ws. split; [rewrite _moveToPopup_workouts; exact Hws|].
    split; [exact Hobj|]. split; [rewrite _moveToPopup_list; exact Hlist|].
    split; [| split; [| split]].
    + intros m' Hm'. rewrite Hm' in Fm.
      destruct (App_map st) as [m |]; [| discriminate Fm].
      cbn in Fm. inversion Fm as [E]. rewrite E. apply Hmarkers. reflexivity.
    + intros Hm'. rewrite _moveToPopup_mapEvent. apply Hclick. rewrite Hm' in Fm.
      destruct (App_map st); [discriminate Fm | reflexivity].
    + rewrite _moveToPopup_form. exact Hkind.
    + unfold in_sync. rewrite _moveToPopup_storage, _moveToPopup_workouts. exact Hsync.
Qed.

(** X16. What the page shows stays what memory holds, through any sequence
    of events in which the selector holds one of the two kinds: the position
    arriving (a second answer is refused by Leaflet and changes nothing),
    clicks on the map and in the list, typing, and submissions that are
    accepted, rejected or thrown out. The array holds workouts of the
    script's own making, the list shows them last to first, the map, once
    there, carries exactly one marker for each in the order of the array, a
    click position is only there when the map is, and the text under the
    storage key is the text of the array (no key while nothing was ever
    saved and the array is empty). *)
Theorem session_consistent (events : list Event) (st : State) :
  consistent st ->
  Forall chooses_known_kind events ->
  consistent (run events st).
Proof.
  intros Hst Hev. revert st Hst.
  induction Hev as [| ev events Hev _ IH]; intros st Hst; [exact Hst|].
  cbn [run]. apply IH. apply handle_consistent; assumption.
Qed.

Lemma fresh_page_consistent (storage : gmap string string) (kind : string) :
  storage !! "workouts" = None -> known_kind kind ->
  consistent (fresh_page storage kind).
Proof.
  intros Hs Hk. exists []. unfold in_sync. cbn. rewrite Hs.
  repeat split; try reflexivity; try assumption; try constructor; discriminate.
Qed.

Lemma session_consistent_witness :
  consistent
    (run [submit demo_clock; position 45 15; list_click (Some "0000000123");
          map_click (45.5, 15.9)%float; typing "running" 5.2 24 178 0;
          submit demo_clock; typing "cycling" 0 60 0 (-5); submit demo_clock;
          list_click (Some "0000000123"); position 45.1 15.1]
       (fresh_page ∅ "running")).
Proof.
  apply (session_consistent
           [submit demo_clock; position 45 15; list_click (Some "0000000123");
            map_click (45.5, 15.9)%float; typing "running" 5.2 24 178 0;
            submit demo_clock; typing "cycling" 0 60 0 (-5); submit demo_clock;
            list_click (Some "0000000123"); position 45.1 15.1]
           (fresh_page ∅ "running")).
  - apply fresh_page_consistent; [reflexivity | left; reflexivity].
  - repeat constructor; unfold known_kind; tauto.
Defined.

(** The constructor is [load] with the message of [_getPosition] on top. *)
Lemma substitution_eq (w : jsval) (name : string) (st : State) :
  substitution w name st =
  (match Get w name with
   | Normal v => match ToString v with Normal _ => Normal v | Throw e => Throw e end
   | Throw e => Throw e
   end, st).
Proof.
  unfold substitution, bind, lift, ret.
  destruct (Get w name) as [v | e]; [destruct (ToString v) |]; reflexivity.
Qed.

Lemma _renderWorkout_set_alerts (w : jsval) (a : list string) (st : State) :
  _renderWorkout w (set_alerts a st) =
  (fst (_renderWorkout w st), set_alerts a (snd (_renderWorkout w st))).
Proof.
  unfold _renderWorkout, bind, lift, modify, ret.
  repeat first
    [ rewrite substitution_eq
    | match goal with
      | |- context [match Get ?v ?n with _ => _ end] => destruct (Get v n)
      | |- context [match ToString ?v with _ => _ end] => destruct (ToString v)
      | |- context [if strict_equals_string ?x ?y then _ else _] =>
          destruct (strict_equals_string x y)
      | |- context [match ?p with Num _ => _ | _ => _ end] => destruct p
      end ];
    reflexivity.
Qed.

Lemma forEach_render_set_alerts (ws : list jsval) (a : list string) : forall st,
  forEach_elements (fun w => _renderWorkout w) ws (set_alerts a st) =
  (fst (forEach_elements (fun w => _renderWorkout w) ws st),
   set_alerts a (snd (forEach_elements (fun w => _renderWorkout w) ws st))).
Proof.
  induction ws as [| w ws IH]; intros st; [reflexivity|].
  cbn [forEach_elements]. unfold bind. rewrite _renderWorkout_set_alerts.
  destruct (_renderWorkout w st) as [[[] | e] st']; cbn [fst snd]; [apply IH | reflexivity].
Qed.

Lemma _getLocalStorage_set_alerts (a : list string) (st : State) :
  _getLocalStorage (set_alerts a st) =
  (fst (_getLocalStorage st), set_alerts a (snd (_getLocalStorage st))).
Proof.
  rewrite !_getLocalStorage_eq. cbn [set_alerts localStorage].
  destruct (JSON.parse _) as [data | e]; [| reflexivity].
  destruct (ToBoolean data); [| reflexivity].
  destruct data; try reflexivity.
  cbn [forEach]. apply (forEach_render_set_alerts elements a (set_workouts (Arr elements) st)).
Qed.

Lemma App_new_load (geolocation : bool) (storage : gmap string string) (kind : string) :
  App_new geolocation (fresh_page storage kind) =
  (fst (load storage kind),
   set_alerts (if geolocation then ["Could not get your position."] else [])
     (snd (load storage kind))).
Proof.
  unfold App_new, bind, _getPosition, load.
  destruct geolocation; cbn [_alertMessage alert modify ret fst snd].
  - apply (_getLocalStorage_set_alerts _ (fresh_page storage kind)).
  - destruct (_getLocalStorage (fresh_page storage kind)) as [c st'] eqn:E.
    cbn [fst snd]. f_equal.
    pose proof (_getLocalStorage_alerts (fresh_page storage kind)) as Ha.
    rewrite E in Ha. cbn in Ha. destruct st'. cbn in *. subst. reflexivity.
Qed.

Lemma consistent_set_alerts (a : list string) (st : State) :
  consistent st -> consistent (set_alerts a st).
Proof. intros (ws & H). exists ws. exact H. Qed.

(** X17. The constructor leaves a consistent page behind and throws
    nothing, both when nothing is stored under the key and when the key
    holds what the script saved in an earlier session from entries made by
    the constructors whose numbers are finite and read back: then memory
    holds all of them, restored, and the list shows them. *)
Theorem page_load_consistent (geolocation : bool) (kind : string) :
  known_kind kind ->
  (forall storage,
     storage !! "workouts" = None ->
     fst (App_new geolocation (fresh_page storage kind)) = Normal tt /\
     consistent (snd (App_new geolocation (fresh_page storage kind)))) /\
  (forall restored added st,
     App_workouts st = session_store restored added ->
     Forall (fun e => (exists clock, constructed clock e) /\ Entry_survives e)
       (restored ++ added) ->
     fst (App_new geolocation (fresh_page (localStorage (save st)) kind)) = Normal tt /\
     App_workouts (snd (App_new geolocation (fresh_page (localStorage (save st)) kind))) =
       session_store (restored ++ added) [] /\
     consistent (snd (App_new geolocation (fresh_page (localStorage (save st)) kind)))).
Proof.
  intros Hk. split.
  - intros storage Hs. rewrite App_new_load, (load_absent storage kind Hs). cbn [fst snd].
    split; [reflexivity|]. apply consistent_set_alerts, fresh_page_consistent; assumption.
  - intros restored added st Hw Hes.
    rewrite App_new_load, (load_save_session restored added st kind Hw Hes).
    cbn [fst snd]. split; [reflexivity|]. split; [reflexivity|].
    apply consistent_set_alerts.
    exists (map (fun e => plain (Entry_object e)) (restored ++ added)).
    split; [unfold session_store; cbn [map]; rewrite app_nil_r; reflexivity|].
    split; [| split; [reflexivity | split; [| split; [| split]]]].
    + clear -Hes. induction Hes as [| e l [Hc He] _ IH]; cbn [map]; constructor;
        [| exact IH].
      exists e. split; [exact Hc | right; split; [exact He | reflexivity]].
    + intros m Hm. discriminate Hm.
    + reflexivity.
    + exact Hk.
    + unfold in_sync. cbn [localStorage App_workouts].
      unfold save. rewrite _setLocalStorage_eq. cbn [snd set_localStorage localStorage].
      rewrite lookup_insert_eq, Hw, <- plain_session_store.
      change (match JSON.stringify (session_store restored added) with
              | Some text => text
              | None => "undefined"
              end) with (element_text (session_store restored added)).
      rewrite <- element_text_plain. reflexivity.
Qed.

Lemma page_load_consistent_witness :
  (forall storage,
     storage !! "workouts" = None ->
     fst (App_new true (fresh_page storage "cycling")) = Normal tt /\
     consistent (snd (App_new true (fresh_page storage "cycling")))) /\
  (forall restored added st,
     App_workouts st = session_store restored added ->
     Forall (fun e => (exists clock, constructed clock e) /\ Entry_survives e)
       (restored ++ added) ->
     fst (App_new true (fresh_page (localStorage (save st)) "cycling")) = Normal tt /\
     App_workouts (snd (App_new true (fresh_page (localStorage (save st)) "cycling"))) =
       session_store (restored ++ added) [] /\
     consistent (snd (App_new true (fresh_page (localStorage (save st)) "cycling")))).
Proof. apply (page_load_consistent true "cycling"). right. reflexivity. Defined.

(** ** What does not throw in a consistent page *)

Lemma find_id_objects (i : string) (ws : list jsval) (w : jsval) :
  Forall is_object ws -> In w ws -> Get w "id" = Normal (Str i) ->
  exists w', find_id i ws = Normal w' /\ is_object w'.
Proof.
  induction 1 as [| x ws Hx _ IH]; intros Hin Hid; [destruct Hin|].
  destruct x as [| | | | | | | p ps]; try destruct Hx.
  cbn [find_id Get].
  destruct (strict_equals_string (assoc "id" ps) i) eqn:E.
  - exists (Obj p ps). split; [reflexivity | exact I].
  - destruct Hin as [<- | Hin].
    + cbn [Get] in Hid. inversion Hid as [Hps]. rewrite Hps in E. cbn in E.
      rewrite String.eqb_refl in E. discriminate E.
    + apply IH; assumption.
Qed.

(** X18. On a consistent page the listeners throw nothing once the map is
    there and has been clicked. A submission after a click on the map ends
    with the validation message or with the entry appended. A click on a list
    item with the map there ends normally, whichever workout of the array the
    item carries the id of. The position, arriving on a page that has no map
    yet, and a click on the map throw nothing. *)
Theorem consistent_no_throw (st : State) (clock : Clock) :
  consistent st ->
  (App_mapEvent st <> None -> fst (_newWorkout clock st) = Normal tt) /\
  (forall ws w i m,
     App_workouts st = Arr ws -> In w ws -> Get w "id" = Normal (Str i) ->
     App_map st = Some m ->
     fst (_moveToPopup (Some i) st) = Normal tt) /\
  (forall latitude longitude,
     App_map st = None -> fst (_loadMap latitude longitude st) = Normal tt) /\
  (forall latlng, fst (handle (map_click latlng) st) = Normal tt).
Proof.
  intros (ws & Hws & Hobj & Hlist & Hmarkers & Hclick & Hkind & Hsync).
  split; [| split; [| split]].
  - intros Hc. destruct (App_mapEvent st) as [latlng |] eqn:Hev; [| congruence].
    destruct (App_map st) as [m |] eqn:Hm.
    2:{ specialize (Hclick eq_refl). discriminate Hclick. }
    destruct (spec_rejects (form st)) eqn:Hr.
    + rewrite (_newWorkout_rejects clock st latlng Hev Hkind Hr). reflexivity.
    + rewrite (_newWorkout_accepts clock st latlng Hev Hkind Hr), new_entry_object.
      rewrite (append_and_render_eq clock _ st ws m (constructed_new_entry _ _ _) Hws Hm).
      reflexivity.
  - intros ws' w i m Hws' Hin Hid Hm.
    rewrite Hws in Hws'. inversion Hws'. subst ws'.
    assert (Hobj' : Forall is_object ws).
    { clear -Hobj. induction Hobj as [| x l Hx _ IH]; constructor;
        [apply script_workout_is_object; exact Hx | exact IH]. }
    destruct (find_id_objects i ws w Hobj' Hin Hid) as (w' & Hfind & Hw').
    unfold _moveToPopup, bind, gets, lift, the_map, modify. cbn [fst snd].
    rewrite Hws. cbn [findById]. rewrite Hfind, Hm.
    destruct w'; try destruct Hw'. reflexivity.
  - intros latitude longitude Hm. rewrite (_loadMap_eq latitude longitude st Hm), Hws.
    cbn [forEach].
    rewrite (forEach_markers ws Hobj _
               (mkMap (Arr [Num latitude; Num longitude]) mapZoomLevel []))
      by reflexivity.
    reflexivity.
  - intros latlng. cbn [handle]. destruct (App_map st); reflexivity.
Qed.

Lemma consistent_no_throw_witness :
  (App_mapEvent (run [position 45 15; map_click (45.5, 15.9)%float;
                      typing "running" 5.2 24 178 0; submit demo_clock]
                   (fresh_page ∅ "running")) <> None ->
   fst (_newWorkout demo_clock
          (run [position 45 15; map_click (45.5, 15.9)%float;
                typing "running" 5.2 24 178 0; submit demo_clock]
             (fresh_page ∅ "running"))) = Normal tt) /\
  (forall ws w i m,
     App_workouts (run [position 45 15; map_click (45.5, 15.9)%float;
                        typing "running" 5.2 24 178 0; submit demo_clock]
                     (fresh_page ∅ "running")) = Arr ws ->
     In w ws -> Get w "id" = Normal (Str i) ->
     App_map (run [position 45 15; map_click (45.5, 15.9)%float;
                   typing "running" 5.2 24 178 0; submit demo_clock]
                (fresh_page ∅ "running")) = Some m ->
     fst (_moveToPopup (Some i)
            (run [position 45 15; map_click (45.5, 15.9)%float;
                  typing "running" 5.2 24 178 0; submit demo_clock]
               (fresh_page ∅ "running"))) = Normal tt) /\
  (forall latitude longitude,
     App_map (run [position 45 15; map_click (45.5, 15.9)%float;
                   typing "running" 5.2 24 178 0; submit demo_clock]
                (fresh_page ∅ "running")) = None ->
     fst (_loadMap latitude longitude
            (run [position 45 15; map_click (45.5, 15.9)%float;
                  typing "running" 5.2 24 178 0; submit demo_clock]
               (fresh_page ∅ "running"))) = Normal tt) /\
  (forall latlng,
     fst (handle (map_click latlng)
            (run [position 45 15; map_click (45.5, 15.9)%float;
                  typing "running" 5.2 24 178 0; submit demo_clock]
               (fresh_page ∅ "running"))) = Normal tt).
Proof.
  apply (consistent_no_throw
           (run [position 45 15; map_click (45.5, 15.9)%float;
                 typing "running" 5.2 24 178 0; submit demo_clock]
              (fresh_page ∅ "running")) demo_clock).
  cbn [run].
  repeat (apply handle_consistent; [exact I || (left; reflexivity) |]).
  apply fresh_page_consistent; [reflexivity | left; reflexivity].
Defined.

(** ** The derived metrics as numbers *)

Lemma iter_pos_invariant {A} (P : A -> Prop) (f : A -> A) :
  (forall x, P x -> P (f x)) -> forall p x, P x -> P (SpecFloat.iter_pos f p x).
Proof. intros Hf. induction p as [p IH | p IH |]; intros x Hx; cbn; auto. Qed.

Lemma shr_1_nonneg (mrs : shr_record) : 0 <= shr_m mrs -> 0 <= shr_m (shr_1 mrs).
Proof.
  destruct mrs as [m r s]. cbn [shr_m]. intros H.
  destruct m as [| [p | p |] | p]; cbn; lia.
Qed.

Lemma shr_nonneg (mrs : shr_record) (e n : Z) :
  0 <= shr_m mrs -> 0 <= shr_m (fst (shr mrs e n)).
Proof.
  intros H. unfold shr. destruct n; cbn [fst]; try exact H.
  apply (iter_pos_invariant (fun r => 0 <= shr_m r)); [apply shr_1_nonneg | exact H].
Qed.

Lemma shr_fexp_nonneg (m e : Z) (l : location) :
  0 <= m -> 0 <= shr_m (fst (shr_fexp prec emax m e l)).
Proof.
  intros H. unfold shr_fexp. apply shr_nonneg. destruct l as [| []]; exact H.
Qed.

Lemma round_nearest_even_nonneg (m : Z) (l : location) :
  0 <= m -> 0 <= round_nearest_even m l.
Proof.
  intros H. unfold round_nearest_even. destruct l as [| []]; try lia.
  destruct (IntDef.Z.even m); lia.
Qed.

Lemma binary_round_aux_signed (sx : bool) (m e : Z) (l : location) :
  0 <= m -> signed sx (binary_round_aux prec emax sx m e l).
Proof.
  intros H. unfold binary_round_aux.
  pose proof (shr_fexp_nonneg m e l H) as H1.
  destruct (shr_fexp prec emax m e l) as [mrs' e']. cbn [fst] in H1.
  pose proof (shr_fexp_nonneg _ e' loc_Exact
                (round_nearest_even_nonneg _ (loc_of_shr_record mrs') H1)) as H2.
  destruct (shr_fexp prec emax _ e' loc_Exact) as [mrs'' e'']. cbn [fst] in H2.
  destruct (shr_m mrs'') as [| p | p]; [left; reflexivity | | lia].
  destruct (e'' <=? emax - prec); right; [right; eauto | left; reflexivity].
Qed.

Lemma SFdiv_core_binary_nonneg (mx my : positive) (ex ey : Z) :
  0 <= fst (fst (SFdiv_core_binary prec emax (Z.pos mx) ex (Z.pos my) ey)).
Proof.
  unfold SFdiv_core_binary. cbv zeta.
  match goal with
  | |- context [IntDef.Z.div_eucl ?a ?b] =>
      assert (Ha : 0 <= a);
      [| change (IntDef.Z.div_eucl a b) with (Z.div_eucl a b);
         pose proof (Z.div_pos a b Ha ltac:(lia)) as Hq;
         unfold Z.div in Hq; destruct (Z.div_eucl a b) as [q r]; exact Hq ]
  end.
  match goal with |- 0 <= match ?s with _ => _ end => destruct s end;
    [lia | apply Z.shiftl_nonneg; lia | lia].
Qed.

Lemma positive_finite (x : float) :
  Number.isFinite x = true -> Number.gt x 0 = true ->
  exists m e, Prim2SF x = S754_finite false m e.
Proof.
  unfold Number.isFinite, Number.gt, PrimFloat.is_finite, PrimFloat.is_infinity.
  rewrite ltb_spec, FloatAxioms.eqb_spec, abs_spec.
  change (Prim2SF 0) with (S754_zero false).
  change (Prim2SF infinity) with (S754_infinity false).
  intros Hfin Hpos.
  destruct (Prim2SF x) as [s | s | | s m e]; cbn in Hpos; try discriminate Hpos.
  - rewrite orb_true_r in Hfin. discriminate Hfin.
  - destruct s; [discriminate Hpos|]. eauto.
Qed.

Lemma SFdiv_signed (x y : spec_float) :
  signed false x -> (exists m e, y = S754_finite false m e) ->
  signed false (SFdiv prec emax x y).
Proof.
  intros [-> | [-> | (mx & ex & ->)]] (my & ey & ->); unfold SFdiv.
  - left. reflexivity.
  - right; left. reflexivity.
  - pose proof (SFdiv_core_binary_nonneg mx my ex ey) as H.
    destruct (SFdiv_core_binary prec emax (Z.pos mx) ex (Z.pos my) ey) as [[q e'] l].
    cbn [fst] in H. apply binary_round_aux_signed. exact H.
Qed.

Lemma signed_number (x : float) :
  signed false (Prim2SF x) -> PrimFloat.is_nan x = false /\ Number.le 0 x = true.
Proof.
  unfold PrimFloat.is_nan, Number.le. rewrite FloatAxioms.eqb_spec, leb_spec.
  change (Prim2SF 0) with (S754_zero false).
  intros [-> | [-> | (m & e & ->)]]; cbn; try (split; reflexivity).
  unfold SFeqb, SFcompare. rewrite Z.compare_refl, Pos.compare_cont_refl.
  split; reflexivity.
Qed.

(** X19. With a distance and a duration that are finite and above zero,
    as the validation of either kind demands, the pace of a running workout
    and the speed of a cycling one are never NaN, never negative and never
    the negative zero: each is +0 (when the quotient underflows), a positive
    finite number or +Infinity (when it overflows). *)
Theorem metric_is_a_number (clock : Clock) (latlng : float * float) (d t x : float) :
  Number.isFinite d = true -> Number.gt d 0 = true ->
  Number.isFinite t = true -> Number.gt t 0 = true ->
  let r := Running_new clock latlng d t x in
  let c := Cycling_new clock latlng d t x in
  (Prim2SF (pace r) = S754_zero false \/
   Prim2SF (pace r) = S754_infinity false \/
   exists m e, Prim2SF (pace r) = S754_finite false m e) /\
  (Prim2SF (speed c) = S754_zero false \/
   Prim2SF (speed c) = S754_infinity false \/
   exists m e, Prim2SF (speed c) = S754_finite false m e) /\
  PrimFloat.is_nan (pace r) = false /\ Number.le 0 (pace r) = true /\
  PrimFloat.is_nan (speed c) = false /\ Number.le 0 (speed c) = true.
Proof.
  intros Hd Hd0 Ht Ht0 r c. subst r c.
  pose proof (positive_finite _ Hd Hd0) as Sd.
  pose proof (positive_finite _ Ht Ht0) as St.
  cbn [Cycling_new Running_new speed pace].
  unfold calculateSpeed, calculatePace, Workout_new. cbn [distance duration].
  assert (Hp : signed false (Prim2SF (t / d))).
  { rewrite div_spec. unfold SF64div.
    apply SFdiv_signed; [right; right; exact St | exact Sd]. }
  assert (Hs : signed false (Prim2SF (d / t / 60))).
  { rewrite !div_spec. unfold SF64div.
    apply SFdiv_signed.
    - apply SFdiv_signed; [right; right; exact Sd | exact St].
    - eexists _, _. vm_compute. reflexivity. }
  split; [exact Hp|]. split; [exact Hs|].
  destruct (signed_number _ Hp) as [Hp1 Hp2].
  destruct (signed_number _ Hs) as [Hs1 Hs2].
  repeat split; assumption.
Qed.

Lemma metric_is_a_number_witness :
  (Prim2SF (pace (Running_new demo_clock (45.5, 15.9)%float 1e-300 1e300 170)) =
     S754_zero false \/
   Prim2SF (pace (Running_new demo_clock (45.5, 15.9)%float 1e-300 1e300 170)) =
     S754_infinity false \/
   exists m e,
     Prim2SF (pace (Running_new demo_clock (45.5, 15.9)%float 1e-300 1e300 170)) =
     S754_finite false m e) /\
  (Prim2SF (speed (Cycling_new demo_clock (45.5, 15.9)%float 1e-300 1e300 170)) =
     S754_zero false \/
   Prim2SF (speed (Cycling_new demo_clock (45.5, 15.9)%float 1e-300 1e300 170)) =
     S754_infinity false \/
   exists m e,
     Prim2SF (speed (Cycling_new demo_clock (45.5, 15.9)%float 1e-300 1e300 170)) =
     S754_finite false m e) /\
  PrimFloat.is_nan (pace (Running_new demo_clock (45.5, 15.9)%float 1e-300 1e300 170)) =
    false /\
  Number.le 0 (pace (Running_new demo_clock (45.5, 15.9)%float 1e-300 1e300 170)) =
    true /\
  PrimFloat.is_nan (speed (Cycling_new demo_clock (45.5, 15.9)%float 1e-300 1e300 170)) =
    false /\
  Number.le 0 (speed (Cycling_new demo_clock (45.5, 15.9)%float 1e-300 1e300 170)) =
    true.
Proof.
  apply (metric_is_a_number demo_clock (45.5, 15.9)%float 1e-300 1e300 170);
    reflexivity.
Defined.

(** The two ends: a pace that underflows to zero and one that overflows. *)
Example metric_extremes :
  pace (Running_new demo_clock (45.5, 15.9)%float 1e300 1e-300 170) = 0%float /\
  pace (Running_new demo_clock (45.5, 15.9)%float 1e-300 1e300 170) = infinity.
Proof. split; reflexivity. Qed.

(** ** What a session never does *)

Lemma handle_appends (ev : Event) (st : State) (ws : list jsval) :
  App_workouts st = Arr ws ->
  exists more,
    App_workouts (snd (handle ev st)) = Arr (ws ++ more) /\
    (length more <= match ev with submit _ => 1 | _ => 0 end)%nat.
Proof.
  intros Hws. destruct ev as [lat lng | latlng | kind d t c e | clock | el]; cbn [handle].
  - exists []. rewrite app_nil_r. split; [| reflexivity].
    assert (H : preserves App_workouts (_loadMap lat lng)).
    { unfold _loadMap. preserve. apply preserves_forEach. intros w.
      apply _renderWorkoutMarker_workouts. }
    rewrite H. exact Hws.
  - exists []. rewrite app_nil_r. split; [| reflexivity].
    destruct (App_map st); exact Hws.
  - exists []. rewrite app_nil_r. split; [| reflexivity]. exact Hws.
  - destruct (_newWorkout_result clock st)
      as [E | [E | (ws' & w & Hws' & [E | (m & _ & E)])]]; rewrite E.
    + exists []. rewrite app_nil_r. split; [exact Hws | cbn; lia].
    + exists []. rewrite app_nil_r. split; [exact Hws | cbn; lia].
    + exists [w]. rewrite Hws in Hws'. inversion Hws'. split; [reflexivity | cbn; lia].
    + exists [w]. rewrite Hws in Hws'. inversion Hws'. split; [reflexivity | cbn; lia].
  - exists []. rewrite app_nil_r. split; [| reflexivity].
    rewrite _moveToPopup_workouts. exact Hws.
Qed.

(** X20. In memory the array only ever grows at its end. Through any
    sequence of events, whatever the state it starts in, the workouts that
    were in the array stay in it, unchanged and in their order; what is added
    comes after them, at most one value for each submission. The script has
    no way to edit or delete a workout short of [reset]. *)
Theorem workouts_append_only (events : list Event) (st : State) (ws : list jsval) :
  App_workouts st = Arr ws ->
  exists more,
    App_workouts (run events st) = Arr (ws ++ more) /\
    (length more <=
     length (List.filter (fun ev => match ev with submit _ => true | _ => false end)
               events))%nat.
Proof.
  revert st ws. induction events as [| ev events IH]; intros st ws Hws.
  - exists []. rewrite app_nil_r. split; [exact Hws | cbn; lia].
  - cbn [run]. destruct (handle_appends ev st ws Hws) as (more1 & H1 & L1).
    destruct (IH _ _ H1) as (more2 & H2 & L2).
    exists (more1 ++ more2)%list. rewrite H2, <- app_assoc. split; [reflexivity|].
    rewrite length_app. cbn [List.filter]. destruct ev; cbn [length] in *; lia.
Qed.

Lemma workouts_append_only_witness :
  exists more,
    App_workouts
      (run [submit demo_clock; typing "swimming" 1 1 1 1; submit demo_clock;
            list_click (Some "x")]
         (demo_state "running" 5.2 24 178 0)) = Arr ([] ++ more) /\
    (length more <=
     length (List.filter (fun ev => match ev with submit _ => true | _ => false end)
               [submit demo_clock; typing "swimming" 1 1 1 1; submit demo_clock;
                list_click (Some "x")]))%nat.
Proof.
  apply (workouts_append_only
           [submit demo_clock; typing "swimming" 1 1 1 1; submit demo_clock;
            list_click (Some "x")]
           (demo_state "running" 5.2 24 178 0) []).
  reflexivity.
Defined.

Lemma map_click_state (st : State) (m : LeafletMap) (latlng : float * float) :
  App_map st = Some m ->
  snd (handle (map_click latlng) st) =
  set_form (mkForm false (inputType (form st)) (inputDistance (form st))
              (inputDuration (form st)) (inputCadence (form st))
              (inputElevation (form st)))
    (set_mapEvent latlng st).
Proof. intros Hm. cbn [handle]. rewrite Hm. reflexivity. Qed.

(** X21. Only the last click on the map counts. With the map there, two
    clicks and then a submission that passes validation append one entry, at
    the position of the second click; what was typed before the clicks is
    what is submitted, since showing the form clears nothing. *)
Theorem latest_click_wins (clock : Clock) (st : State) (m : LeafletMap)
    (ws : list jsval) (first second : float * float) :
  App_map st = Some m ->
  App_workouts st = Arr ws ->
  known_kind (inputType (form st)) ->
  spec_rejects (form st) = false ->
  App_workouts (run [map_click first; map_click second; submit clock] st) =
    Arr (ws ++ [Entry_object (new_entry clock second (form st))]) /\
  Get (Entry_object (new_entry clock second (form st))) "coords" =
    Normal (Arr [Num (fst second); Num (snd second)]).
Proof.
  intros Hm Hws Hk Hr. split.
  2:{ unfold new_entry. destruct (String.eqb (inputType (form st)) "cycling"); reflexivity. }
  cbn [run].
  rewrite (map_click_state st m first Hm).
  match goal with |- context [handle (map_click second) ?s] => set (st1 := s) end.
  assert (Hm1 : App_map st1 = Some m) by exact Hm.
  rewrite (map_click_state st1 m second Hm1).
  match goal with |- App_workouts (snd (handle (submit clock) ?s)) = _ => set (st2 := s) end.
  assert (Hc2 : App_mapEvent st2 = Some second) by reflexivity.
  assert (Hk2 : known_kind (inputType (form st2))) by exact Hk.
  assert (Hr2 : spec_rejects (form st2) = false) by exact Hr.
  assert (Hws2 : App_workouts st2 = Arr ws) by exact Hws.
  cbn [handle].
  rewrite (_newWorkout_accepts clock st2 second Hc2 Hk2 Hr2), new_entry_object.
  rewrite (append_and_render_workouts _ ws st2 Hws2). reflexivity.
Qed.

Lemma latest_click_wins_witness :
  App_workouts
    (run [map_click (1, 2)%float; map_click (3, 4)%float; submit demo_clock]
       (demo_state "cycling" 20 60 0 (-5))) =
    Arr ([] ++ [Entry_object (new_entry demo_clock (3, 4)%float
                                (form (demo_state "cycling" 20 60 0 (-5))))]) /\
  Get (Entry_object (new_entry demo_clock (3, 4)%float
                       (form (demo_state "cycling" 20 60 0 (-5))))) "coords" =
    Normal (Arr [Num (fst (3, 4)%float); Num (snd (3, 4)%float)]).
Proof.
  apply (latest_click_wins demo_clock (demo_state "cycling" 20 60 0 (-5))
           (mkMap (Arr [Num 45; Num 15]) mapZoomLevel []) []
           (1, 2)%float (3, 4)%float).
  - reflexivity.
  - reflexivity.
  - right. reflexivity.
  - reflexivity.
Defined.

(** ** The map after a reload *)

Lemma Get_id_restored (e : Entry) :
  Get (plain (Entry_object e)) "id" = Normal (Str (Entry_id e)).
Proof. destruct e; reflexivity. Qed.

Lemma find_id_first_restored (before after : list Entry) (e : Entry) :
  (forall e', In e' before -> Entry_id e' <> Entry_id e) ->
  find_id (Entry_id e)
    (map (fun e => plain (Entry_object e)) (before ++ e :: after)) =
  Normal (plain (Entry_object e)).
Proof.
  induction before as [| e0 before IH]; intros Hfirst; cbn [app map find_id].
  - rewrite Get_id_restored. cbn [strict_equals_string].
    rewrite String.eqb_refl. reflexivity.
  - rewrite Get_id_restored. cbn [strict_equals_string].
    destruct (String.eqb_spec (Entry_id e0) (Entry_id e)) as [E | _].
    + exfalso. apply (Hfirst e0); [left; reflexivity | exact E].
    + apply IH. intros e' Hin. apply Hfirst. right. exact Hin.
Qed.

(** X22. After a reload the map shows the workouts as before. When the
    script has saved entries made by the constructors, with numbers that are
    finite and read back, then after the constructor has run on the new page
    and the position has arrived, the map carries one marker for each entry,
    in order, with the coordinates, the kind and the description that the
    marker of the original entry had. *)
Theorem reload_markers (geolocation : bool) (kind : string) (latitude longitude : float)
    (restored added : list Entry) (st : State) :
  App_workouts st = session_store restored added ->
  Forall (fun e => (exists clock, constructed clock e) /\ Entry_survives e)
    (restored ++ added) ->
  let page := snd (App_new geolocation (fresh_page (localStorage (save st)) kind)) in
  fst (_loadMap latitude longitude page) = Normal tt /\
  App_map (snd (_loadMap latitude longitude page)) =
    Some (mkMap (Arr [Num latitude; Num longitude]) 13
            (map (fun e => marker_of (Entry_object e)) (restored ++ added))).
Proof.
  intros Hw Hes page. subst page.
  rewrite App_new_load, (load_save_session restored added st kind Hw Hes). cbn [snd].
  rewrite _loadMap_eq by reflexivity.
  match goal with
  | |- context [forEach _ (App_workouts ?s) ?s'] =>
      change (App_workouts s) with (session_store (restored ++ added) [])
  end.
  unfold session_store. cbn [map]. rewrite app_nil_r. cbn [forEach].
  assert (Hobj : Forall script_workout
                   (map (fun e => plain (Entry_object e)) (restored ++ added))).
  { clear -Hes. induction Hes as [| e l [Hc He] _ IH]; cbn [map]; constructor;
      [| exact IH].
    exists e. split; [exact Hc | right; split; [exact He | reflexivity]]. }
  rewrite (forEach_markers _ Hobj _
             (mkMap (Arr [Num latitude; Num longitude]) mapZoomLevel []))
    by reflexivity.
  cbn [fst snd set_map App_map view_center view_zoom markers app].
  split; [reflexivity|]. f_equal. f_equal. rewrite map_map.
  clear -Hes. induction Hes as [| e l [_ He] _ IH]; [reflexivity|].
  cbn [map]. rewrite IH, (marker_of_restored e He). reflexivity.
Qed.

Lemma reload_markers_witness :
  fst (_loadMap 45 15
         (snd (App_new true
                 (fresh_page
                    (localStorage (save (set_workouts (session_store [entry_a] [entry_b])
                                           (fresh_page ∅ "running"))))
                    "running")))) = Normal tt /\
  App_map
    (snd (_loadMap 45 15
            (snd (App_new true
                    (fresh_page
                       (localStorage (save (set_workouts (session_store [entry_a] [entry_b])
                                              (fresh_page ∅ "running"))))
                       "running"))))) =
    Some (mkMap (Arr [Num 45; Num 15]) 13
            (map (fun e => marker_of (Entry_object e)) ([entry_a] ++ [entry_b]))).
Proof.
  apply (reload_markers true "running" 45 15 [entry_a] [entry_b]
           (set_workouts (session_store [entry_a] [entry_b]) (fresh_page ∅ "running"))).
  - reflexivity.
  - constructor; [split; [| exact Entry_survives_a] |].
    { exists demo_clock, (45.5, 15.9)%float, 5.2%float, 24%float, 178%float.
      left. reflexivity. }
    constructor; [split; [| exact Entry_survives_b] | constructor].
    exists demo_clock, (45.6, 15.8)%float, 20%float, 60%float, (-5)%float.
    right. reflexivity.
Defined.

(** X23. A click in the list works on restored entries as on new ones. When
    memory holds restored entries and the map is there, a click on the list
    item of an entry whose numbers are finite and read back moves the view to
    the coordinates of that entry at zoom level 13, provided no entry before
    it in the array has the same id; nothing else changes. *)
Theorem moveToPopup_restored (st : State) (m : LeafletMap) (before after : list Entry)
    (e : Entry) :
  App_workouts st = session_store (before ++ e :: after) [] ->
  (forall e', In e' before -> Entry_id e' <> Entry_id e) ->
  Entry_survives e ->
  App_map st = Some m ->
  _moveToPopup (Some (Entry_id e)) st =
  (Normal tt,
   set_map (mkMap (Arr [Num (fst (coords (Entry_super e)));
                        Num (snd (coords (Entry_super e)))])
              13 (markers m)) st).
Proof.
  intros Hws Hfirst Hs Hm.
  unfold _moveToPopup, bind, gets, lift, the_map, modify. cbn [fst snd].
  rewrite Hws. unfold session_store. cbn [map]. rewrite app_nil_r. cbn [findById].
  rewrite (find_id_first_restored before after e Hfirst), Hm.
  destruct (plain_Entry_same_data e Hs) as [Hsame _].
  rewrite (Hsame "coords" ltac:(discriminate)), Get_coords. reflexivity.
Qed.

Lemma moveToPopup_restored_witness :
  _moveToPopup (Some (Entry_id entry_b))
    (set_map (mkMap (Arr [Num 45; Num 15]) 13 [])
       (set_workouts (session_store ([entry_c] ++ entry_b :: [entry_a]) [])
          (fresh_page ∅ "running"))) =
  (Normal tt,
   set_map (mkMap (Arr [Num (fst (coords (Entry_super entry_b)));
                        Num (snd (coords (Entry_super entry_b)))])
              13 (markers (mkMap (Arr [Num 45; Num 15]) 13 [])))
     (set_map (mkMap (Arr [Num 45; Num 15]) 13 [])
        (set_workouts (session_store ([entry_c] ++ entry_b :: [entry_a]) [])
           (fresh_page ∅ "running")))).
Proof.
  apply (moveToPopup_restored
           (set_map (mkMap (Arr [Num 45; Num 15]) 13 [])
              (set_workouts (session_store ([entry_c] ++ entry_b :: [entry_a]) [])
                 (fresh_page ∅ "running")))
           (mkMap (Arr [Num 45; Num 15]) 13 []) [entry_c] [entry_a] entry_b).
  - reflexivity.
  - intros e' [<- | []]. vm_compute. discriminate.
  - exact Entry_survives_b.
  - reflexivity.
Defined.
